(** * DimanDocs: scan, index, cache and content loading

    A shallow embedding of the document pipeline of dimandocs (models.go,
    config.go): pattern compilation, the directory walk, metadata
    extraction, tree building, the metadata cache and the lazy content
    loader, followed by the properties proved about them.

    Go strings are byte strings: they are modelled as [string], one [ascii]
    per byte.  Library functions of the Go standard library that the program
    calls are modelled in the modules [utf8], [strings], [filepath] and
    [regexp] for the Unix build of the program. *)

From Stdlib Require Import Ascii String List Bool Arith Lia.
From stdpp Require Import base option list gmap strings.

Local Open Scope stdpp_scope.
#[local] Set Warnings "-register-all".

(** ** Bytes *)

Definition byte_of (n : nat) : ascii := ascii_of_nat n.
Definition code (c : ascii) : nat := nat_of_ascii c.

Fixpoint bytes (l : list nat) : string :=
  match l with
  | [] => ""
  | n :: l' => String (byte_of n) (bytes l')
  end.

Definition LF : ascii := byte_of 10.
Definition CR : ascii := byte_of 13.
Definition nl : string := String LF "".

Fixpoint dropBytes (n : nat) (s : string) : string :=
  match n, s with
  | S n', String _ s' => dropBytes n' s'
  | _, _ => s
  end.

(** ** unicode/utf8 *)

Module utf8.

Definition inRange (lo hi : nat) (c : ascii) : bool :=
  (lo <=? code c) && (code c <=? hi).

(** Width in bytes of the rune that [utf8.DecodeRuneInString] reads at the
    start of [s]: the length of a well-formed shortest-form sequence, and 1
    for a byte that does not start one (decoded as U+FFFD, width 1). *)
Definition runeLen (s : string) : nat :=
  match s with
  | "" => 0
  | String b0 s1 =>
    if code b0 <? 128 then 1
    else match s1 with
    | "" => 1
    | String b1 s2 =>
      if inRange 194 223 b0 then (if inRange 128 191 b1 then 2 else 1)
      else
        let second3 :=
          if code b0 =? 224 then inRange 160 191 b1
          else if code b0 =? 237 then inRange 128 159 b1
          else inRange 225 239 b0 && inRange 128 191 b1 in
        let second4 :=
          if code b0 =? 240 then inRange 144 191 b1
          else if code b0 =? 244 then inRange 128 143 b1
          else inRange 241 243 b0 && inRange 128 191 b1 in
        match s2 with
        | "" => 1
        | String b2 s3 =>
          if second3 then (if inRange 128 191 b2 then 3 else 1)
          else if second4 then
            match s3 with
            | "" => 1
            | String b3 _ =>
              if inRange 128 191 b2 && inRange 128 191 b3 then 4 else 1
            end
          else 1
        end
    end
  end.

(** The tail of [s] after its first rune. *)
Definition dropRune (s : string) : string :=
  match s with
  | "" => ""
  | String _ s' => dropBytes (runeLen s - 1) s'
  end.

End utf8.

(** The non-ASCII half of [strings.ToLower]: [strings.Map(unicode.ToLower, s)]
    needs the Unicode case tables, which are data of the Go runtime.  They are
    a parameter of the model. *)
Class UnicodeTables := { mapToLower : string -> string }.

(** ** strings *)

Module strings.

(** [strings.HasPrefix(s, prefix)] *)
Fixpoint HasPrefix (s prefix : string) : bool :=
  match prefix, s with
  | "", _ => true
  | String p prefix', String c s' => Ascii.eqb c p && HasPrefix s' prefix'
  | String _ _, "" => false
  end.

(** [strings.TrimPrefix(s, prefix)] *)
Definition TrimPrefix (s prefix : string) : string :=
  if HasPrefix s prefix then dropBytes (String.length prefix) s else s.

(** [strings.Contains(s, substr)] *)
Fixpoint Contains (s substr : string) : bool :=
  HasPrefix s substr ||
  match s with
  | "" => false
  | String _ s' => Contains s' substr
  end.

(** [strings.Split(s, sep)] for a separator of one byte, which is what
    every call of the program passes ("\n" and "/"): the pieces between
    the separators, [""] alone for the empty string. *)
Fixpoint Split (s : string) (sep : ascii) : list string :=
  match s with
  | "" => [""]
  | String c s' =>
    if Ascii.eqb c sep then "" :: Split s' sep
    else match Split s' sep with
         | [] => [String c ""]
         | piece :: pieces => String c piece :: pieces
         end
  end.

(** [strings.Join(elems, sep)] *)
Fixpoint Join (elems : list string) (sep : string) : string :=
  match elems with
  | [] => ""
  | [e] => e
  | e :: elems' => e +:+ sep +:+ Join elems' sep
  end.

(** The UTF-8 encodings of the runes for which [unicode.IsSpace] holds:
    tab, LF, VT, FF, CR, space, U+0085, U+00A0, U+1680, U+2000..U+200A,
    U+2028, U+2029, U+202F, U+205F, U+3000. *)
Definition spaceRunes : list string :=
  map bytes
    [ [9]; [10]; [11]; [12]; [13]; [32]; [194; 133]; [194; 160];
      [225; 154; 128];
      [226; 128; 128]; [226; 128; 129]; [226; 128; 130]; [226; 128; 131];
      [226; 128; 132]; [226; 128; 133]; [226; 128; 134]; [226; 128; 135];
      [226; 128; 136]; [226; 128; 137]; [226; 128; 138];
      [226; 128; 168]; [226; 128; 169]; [226; 128; 175]; [226; 129; 159];
      [227; 128; 128] ].

(** Length of the white-space rune at the start of [s], 0 if there is none. *)
Fixpoint spaceAt (runes : list string) (s : string) : nat :=
  match runes with
  | [] => 0
  | r :: runes' => if HasPrefix s r then String.length r else spaceAt runes' s
  end.

Fixpoint trimLoop (runes : list string) (fuel : nat) (s : string) : string :=
  match fuel with
  | 0 => s
  | S fuel' =>
    match spaceAt runes s with
    | 0 => s
    | n => trimLoop runes fuel' (dropBytes n s)
    end
  end.

Definition TrimLeftSpace (s : string) : string :=
  trimLoop spaceRunes (String.length s) s.

(** Trailing white space is found by [utf8.DecodeLastRuneInString], which
    reads the same sequences backwards. *)
Definition TrimRightSpace (s : string) : string :=
  String.rev
    (trimLoop (map String.rev spaceRunes) (String.length s) (String.rev s)).

(** [strings.TrimSpace(s)] *)
Definition TrimSpace (s : string) : string :=
  TrimRightSpace (TrimLeftSpace s).

Definition isASCII (s : string) : bool :=
  forallb (fun c => code c <? 128) (list_ascii_of_string s).

Definition lowerByte (c : ascii) : ascii :=
  if (65 <=? code c) && (code c <=? 90) then byte_of (code c + 32) else c.

Fixpoint lowerBytes (s : string) : string :=
  match s with
  | "" => ""
  | String c s' => String (lowerByte c) (lowerBytes s')
  end.

(** [strings.ToLower(s)]: byte-wise on an ASCII string, through the Unicode
    tables otherwise. *)
Definition ToLower `{UnicodeTables} (s : string) : string :=
  if isASCII s then lowerBytes s else mapToLower s.

End strings.

(** ** path/filepath (Unix: the separator is "/", there are no volume names) *)

Module filepath.

Definition Separator : ascii := "/"%char.

(** The elements of a path are scanned left to right; [out] is the stack of
    elements kept so far, last one first.  A ".." removes the element
    before it, unless there is none to remove: then it is dropped in a
    rooted path and kept in a relative one. *)
Fixpoint cleanElems (rooted : bool) (elems out : list string) : list string :=
  match elems with
  | [] => rev out
  | e :: elems' =>
    if String.eqb e "" || String.eqb e "." then cleanElems rooted elems' out
    else if String.eqb e ".." then
      match out with
      | top :: out' =>
        if String.eqb top ".." then cleanElems rooted elems' (".." :: out)
        else cleanElems rooted elems' out'
      | [] =>
        if rooted then cleanElems rooted elems' []
        else cleanElems rooted elems' [".."]
      end
    else cleanElems rooted elems' (e :: out)
  end.

(** [filepath.Clean(path)] *)
Definition Clean (path : string) : string :=
  if String.eqb path "" then "."
  else
    let rooted := strings.HasPrefix path "/" in
    let body := strings.Join (cleanElems rooted (strings.Split path Separator) []) "/" in
    if rooted then "/" +:+ body
    else if String.eqb body "" then "." else body.

(** [filepath.Join(elem...)]: the elements from the first non-empty one on,
    joined and cleaned. *)
Fixpoint Join (elem : list string) : string :=
  match elem with
  | [] => ""
  | e :: elem' =>
    if String.eqb e "" then Join elem' else Clean (strings.Join elem "/")
  end.

Definition hasSeparator (s : string) : bool :=
  existsb (Ascii.eqb Separator) (list_ascii_of_string s).

(** [path[:i+1]] for the index [i] of the last separator of [path]. *)
Fixpoint throughLastSeparator (path : string) : string :=
  match path with
  | "" => ""
  | String c path' =>
    if Ascii.eqb c Separator || hasSeparator path'
    then String c (throughLastSeparator path') else ""
  end.

(** [filepath.Dir(path)] *)
Definition Dir (path : string) : string := Clean (throughLastSeparator path).

Fixpoint stripTrailingSeparators (path : string) : string :=
  match path with
  | "" => ""
  | String c path' =>
    let rest := stripTrailingSeparators path' in
    if Ascii.eqb c Separator && String.eqb rest "" then "" else String c rest
  end.

(** [filepath.Base(path)] *)
Definition Base (path : string) : string :=
  if String.eqb path "" then "."
  else
    let path1 := stripTrailingSeparators path in
    let path2 := List.last (strings.Split path1 Separator) "" in
    if String.eqb path2 "" then "/" else path2.

Definition IsAbs (path : string) : bool := strings.HasPrefix path "/".

(** [filepath.Abs(path)], with the working directory of the process. *)
Definition Abs (wd path : string) : string :=
  if IsAbs path then Clean path else Join [wd; path].

(** [filepath.ToSlash(path)] is the identity where the separator is "/". *)
Definition ToSlash (path : string) : string := path.

(** The element at the start of [s] and what follows its separator. *)
Fixpoint cutElem (s : string) : string * string :=
  match s with
  | "" => ("", "")
  | String c s' =>
    if Ascii.eqb c Separator then ("", s')
    else let '(e, r) := cutElem s' in (String c e, r)
  end.

(** The loop of [filepath.Rel]: drops the elements that [base] and [targ]
    share; returns the element of [base] at which they differ ("" when
    one of them ran out) and what is left of each. *)
Fixpoint relLoop (fuel : nat) (base targ : string) : string * string * string :=
  match fuel with
  | 0 => ("", base, targ)
  | S fuel' =>
    if String.eqb base "" || String.eqb targ "" then ("", base, targ)
    else
      let '(be, base') := cutElem base in
      let '(te, targ') := cutElem targ in
      if String.eqb te be then relLoop fuel' base' targ'
      else (be, base, targ)
  end.

Fixpoint dotdots (n : nat) : string :=
  match n with
  | 0 => ""
  | S n' => "/.." +:+ dotdots n'
  end.

(** [filepath.Rel(basepath, targpath)]; [None] is its error. *)
Definition Rel (basepath targpath : string) : option string :=
  let base := Clean basepath in
  let targ := Clean targpath in
  if String.eqb targ base then Some "."
  else
    let base := if String.eqb base "." then "" else base in
    if negb (Bool.eqb (strings.HasPrefix base "/") (strings.HasPrefix targ "/"))
    then None
    else
      let '(be, b, t) := relLoop (String.length base) base targ in
      if String.eqb be ".." then None
      else if negb (String.eqb b "") then
        let seps := length (filter (Ascii.eqb Separator) (list_ascii_of_string b)) in
        Some (".." +:+ dotdots seps +:+
              (if negb (String.eqb t "") then "/" +:+ t else ""))
      else Some t.

End filepath.

(** ** regexp

    Compiled expressions are syntax trees; [Compile] reads the fragment of
    the RE2 syntax in which the patterns of this program are written
    (literals, escaped punctuation, [.], [^], [$], groups, [|], [*], [+],
    [?] and the flag group [(?i)]) and rejects everything else.
    [MatchString] is the unanchored match of Go. *)

Module regexp.

Inductive Regexp : Type :=
| Empty                          (* the empty string *)
| Lit (c : ascii)                (* one byte *)
| AnyNotNL                       (* [.]: one rune other than LF *)
| BeginText                      (* [^] without the m flag *)
| EndText                        (* [$] without the m flag *)
| Cat (r1 r2 : Regexp)
| Alt (r1 r2 : Regexp)
| Star (r : Regexp)
| Plus (r : Regexp)
| Quest (r : Regexp).

(** *** Matching *)

(** [matchAt r bot s k]: some prefix of [s] matches [r] and [k] accepts
    what follows it.  [bot] tells whether [s] is the whole text. *)
Fixpoint matchAt (r : Regexp) (bot : bool) (s : string)
    (k : bool -> string -> bool) {struct r} : bool :=
  match r with
  | Empty => k bot s
  | Lit c =>
    match s with
    | String c' s' => if Ascii.eqb c' c then k false s' else false
    | "" => false
    end
  | AnyNotNL =>
    match s with
    | String c' _ => if Ascii.eqb c' LF then false else k false (utf8.dropRune s)
    | "" => false
    end
  | BeginText => if bot then k bot s else false
  | EndText => match s with "" => k bot s | _ => false end
  | Cat r1 r2 => matchAt r1 bot s (fun bot' s' => matchAt r2 bot' s' k)
  | Alt r1 r2 => matchAt r1 bot s k || matchAt r2 bot s k
  | Quest r1 => matchAt r1 bot s k || k bot s
  | Star r1 =>
    (fix star (n : nat) (bot : bool) (s : string) {struct n} : bool :=
       k bot s ||
       match n with
       | 0 => false
       | S n' =>
         matchAt r1 bot s (fun bot' s' =>
           if String.length s' <? String.length s then star n' bot' s' else false)
       end) (String.length s) bot s
  | Plus r1 =>
    matchAt r1 bot s (fun bot1 s1 =>
      (fix star (n : nat) (bot : bool) (s : string) {struct n} : bool :=
         k bot s ||
         match n with
         | 0 => false
         | S n' =>
           matchAt r1 bot s (fun bot' s' =>
             if String.length s' <? String.length s then star n' bot' s' else false)
         end) (String.length s1) bot1 s1)
  end.

(** A match may start at every rune of the text and at its end. *)
Fixpoint search (fuel : nat) (r : Regexp) (bot : bool) (s : string) : bool :=
  matchAt r bot s (fun _ _ => true) ||
  match fuel, s with
  | S fuel', String _ _ => search fuel' r false (utf8.dropRune s)
  | _, _ => false
  end.

(** [MatchString(s)] of a compiled expression *)
Definition MatchString (r : Regexp) (s : string) : bool :=
  search (String.length s) r true s.

(** *** Parsing *)

Definition isLower (c : ascii) : bool := (97 <=? code c) && (code c <=? 122).
Definition isUpper (c : ascii) : bool := (65 <=? code c) && (code c <=? 90).
Definition isPunct (c : ascii) : bool :=
  let n := code c in
  ((33 <=? n) && (n <=? 47)) || ((58 <=? n) && (n <=? 64)) ||
  ((91 <=? n) && (n <=? 96)) || ((123 <=? n) && (n <=? 126)).

Fixpoint litSeq (s : string) : Regexp :=
  match s with
  | "" => Empty
  | String c "" => Lit c
  | String c s' => Cat (Lit c) (litSeq s')
  end.

(** A letter under [(?i)] stands for the runes of its case orbit: itself,
    its other case and, for k and s, U+212A and U+017F. *)
Definition foldLit (c : ascii) : Regexp :=
  let lower := if isUpper c then byte_of (code c + 32) else c in
  let upper := byte_of (code lower - 32) in
  if isLower lower then
    if Ascii.eqb lower "k" then Alt (Lit lower) (Alt (Lit upper) (litSeq (bytes [226; 132; 170])))
    else if Ascii.eqb lower "s" then Alt (Lit lower) (Alt (Lit upper) (litSeq (bytes [197; 191])))
    else Alt (Lit lower) (Lit upper)
  else Lit c.

Definition cat (r1 r2 : Regexp) : Regexp :=
  match r1, r2 with
  | Empty, _ => r2
  | _, Empty => r1
  | _, _ => Cat r1 r2
  end.

(** One repetition operator after an atom, with its optional non-greedy
    mark; a second operator is Go's "invalid nested repetition". *)
Definition parseRepeat (r : Regexp) (s : string) : option (Regexp * string) :=
  let lazyMark (s : string) :=
    match s with String "?" s' => s' | _ => s end in
  let once (r' : Regexp) (s' : string) :=
    let rest := lazyMark s' in
    match rest with
    | String "*" _ | String "+" _ | String "?" _ => None
    | _ => Some (r', rest)
    end in
  match s with
  | String "*" s' => once (Star r) s'
  | String "+" s' => once (Plus r) s'
  | String "?" s' => once (Quest r) s'
  | _ => Some (r, s)
  end.

Fixpoint parseAlt (fuel : nat) (fold : bool) (s : string) {struct fuel}
    : option (Regexp * string) :=
  match fuel with
  | 0 => None
  | S fuel' =>
    match parseCat fuel' fold s with
    | Some (r1, fold', String "|" rest) =>
      match parseAlt fuel' fold' rest with
      | Some (r2, rest') => Some (Alt r1 r2, rest')
      | None => None
      end
    | Some (r1, _, rest) => Some (r1, rest)
    | None => None
    end
  end
with parseCat (fuel : nat) (fold : bool) (s : string) {struct fuel}
    : option (Regexp * bool * string) :=
  match fuel with
  | 0 => None
  | S fuel' =>
    match s with
    | "" => Some (Empty, fold, s)
    | String "|" _ | String ")" _ => Some (Empty, fold, s)
    | String "(" (String "?" (String "i" (String ")" rest))) =>
      parseCat fuel' true rest
    | _ =>
      match parseAtom fuel' fold s with
      | Some (atom, rest) =>
        match parseRepeat atom rest with
        | Some (r1, rest1) =>
          match parseCat fuel' fold rest1 with
          | Some (r2, fold', rest2) => Some (cat r1 r2, fold', rest2)
          | None => None
          end
        | None => None
        end
      | None => None
      end
    end
  end
with parseAtom (fuel : nat) (fold : bool) (s : string) {struct fuel}
    : option (Regexp * string) :=
  match fuel with
  | 0 => None
  | S fuel' =>
    match s with
    | "" => None
    | String "(" rest =>
      let body :=
        match rest with
        | String "?" (String ":" rest') => Some rest'
        | String "?" _ => None
        | _ => Some rest
        end in
      match body with
      | Some rest' =>
        match parseAlt fuel' fold rest' with
        | Some (r, String ")" rest'') => Some (r, rest'')
        | _ => None
        end
      | None => None
      end
    | String "." rest => Some (AnyNotNL, rest)
    | String "^" rest => Some (BeginText, rest)
    | String "$" rest => Some (EndText, rest)
    | String "\" (String c rest) =>
      if isPunct c then Some (Lit c, rest) else None
    | String c rest =>
      if existsb (Ascii.eqb c) (list_ascii_of_string "()*+?[]{}|")
      then None
      else if 128 <=? code c then None
      else Some (if fold then foldLit c else Lit c, rest)
    end
  end.

(** [regexp.Compile(expr)]; [None] is its error. *)
Definition Compile (expr : string) : option Regexp :=
  match parseAlt (3 * String.length expr + 3) false expr with
  | Some (r, "") => Some r
  | _ => None
  end.

End regexp.

(** ** Data model (models.go) *)

Module DirectoryConfig.
Record t : Type := mk {
  Path : string;
  Name : string;
  FilePattern : string
}.
End DirectoryConfig.

Module Config.
Record t : Type := mk {
  Directories : list DirectoryConfig.t;
  Port : string;
  Title : string;
  IgnorePatterns : list string
}.
Definition zero : t := mk [] "" "" [].
Definition withDirectories (c : t) (dirs : list DirectoryConfig.t) : t :=
  mk dirs (Port c) (Title c) (IgnorePatterns c).
End Config.

Module Document.
Record t : Type := mk {
  Title : string;
  Path : string;
  Content : string;
  RelPath : string;
  DirName : string;
  SourceDir : string;
  SourceName : string;
  AbsPath : string;
  Overview : string
}.
(** [doc.Content = content] *)
Definition withContent (d : t) (content : string) : t :=
  mk (Title d) (Path d) content (RelPath d) (DirName d) (SourceDir d)
     (SourceName d) (AbsPath d) (Overview d).
End Document.

Module DirectoryGroup.
Record t : Type := mk {
  Name : string;
  Documents : list Document.t
}.
End DirectoryGroup.

Module TreeNode.
(** A node owns its children; [Document] is the document a file node
    points to. *)
Inductive t : Type :=
  mk (Name : string) (Path : string) (IsFile : bool)
     (Document : option Document.t) (Children : list t) (IsOpen : bool).
Definition Name (n : t) : string := let 'mk x _ _ _ _ _ := n in x.
Definition Path (n : t) : string := let 'mk _ x _ _ _ _ := n in x.
Definition IsFile (n : t) : bool := let 'mk _ _ x _ _ _ := n in x.
Definition Document (n : t) : option Document.t := let 'mk _ _ _ x _ _ := n in x.
Definition Children (n : t) : list t := let 'mk _ _ _ _ x _ := n in x.
Definition IsOpen (n : t) : bool := let 'mk _ _ _ _ _ x := n in x.
(** [node.Children = children] *)
Definition withChildren (n : t) (children : list t) : t :=
  mk (Name n) (Path n) (IsFile n) (Document n) children (IsOpen n).
End TreeNode.

Module DirectoryTree.
Record t : Type := mk {
  Name : string;
  Root : TreeNode.t
}.
End DirectoryTree.

Module CachedDocument.
(** Modelled from the spec: the declaration of the struct CachedDocument is
    not among the sources.  The spec describes it as "Document minus
    Content", and [saveToCache] and [loadFromCache] use exactly these
    fields. *)
Record t : Type := mk {
  Title : string;
  Path : string;
  RelPath : string;
  DirName : string;
  SourceDir : string;
  SourceName : string;
  AbsPath : string;
  Overview : string
}.
End CachedDocument.

Module CacheData.
(** Modelled from the spec: the declaration of the struct CacheData is not
    among the sources; it is the "Version string + ordered list of
    CachedDocument" of the spec, with the field names the code uses. *)
Record t : Type := mk {
  Documents : list CachedDocument.t;
  Version : string
}.
End CacheData.

Module App.
(** [UseCache] is read and written by models.go. *)
Record t : Type := mk {
  Config : Config.t;
  Documents : list Document.t;
  IgnoreRegexes : list regexp.Regexp;
  FileRegexes : gmap string regexp.Regexp;
  WorkingDir : string;
  TargetFile : string;
  UseCache : bool
}.
Definition withConfig (a : t) (c : Config.t) : t :=
  mk c (Documents a) (IgnoreRegexes a) (FileRegexes a) (WorkingDir a) (TargetFile a) (UseCache a).
Definition withDocuments (a : t) (docs : list Document.t) : t :=
  mk (Config a) docs (IgnoreRegexes a) (FileRegexes a) (WorkingDir a) (TargetFile a) (UseCache a).
Definition withIgnoreRegexes (a : t) (rs : list regexp.Regexp) : t :=
  mk (Config a) (Documents a) rs (FileRegexes a) (WorkingDir a) (TargetFile a) (UseCache a).
Definition withFileRegexes (a : t) (m : gmap string regexp.Regexp) : t :=
  mk (Config a) (Documents a) (IgnoreRegexes a) m (WorkingDir a) (TargetFile a) (UseCache a).
Definition withTargetFile (a : t) (f : string) : t :=
  mk (Config a) (Documents a) (IgnoreRegexes a) (FileRegexes a) (WorkingDir a) f (UseCache a).
(** [NewApp()], with the zero value of every other field *)
Definition NewApp : t := mk Config.zero [] [] ∅ "" "" false.
End App.

(** [Version], set at build time; "dev" otherwise. *)
Definition Version : string := "dev".

(** ** The operating system and the libraries behind the program *)

(** What a directory walk finds at a path: a file, a directory with its
    entries in the order [ReadDir] lists them (sorted by name; [listable] is
    false when reading the directory fails), or a name whose [Lstat] fails. *)
Inductive FileTree : Type :=
| FFile (name : string)
| FDir (name : string) (listable : bool) (entries : list FileTree)
| FGone (name : string).

Definition fileName (f : FileTree) : string :=
  match f with
  | FFile name | FDir name _ _ | FGone name => name
  end.

Definition IsDir (f : FileTree) : bool :=
  match f with
  | FDir _ _ _ => true
  | _ => false
  end.

Inductive readResult : Type :=
| ReadOK (data : string)
| NotExist
| ReadFailed.

Module OS.
Record t : Type := mk {
  Getwd : string;
  ReadFile : string -> readResult;
  CanWrite : string -> bool;
  Lstat : string -> option FileTree
}.
(** The state after a successful [ioutil.WriteFile(path, data, perm)]. *)
Definition write (os : t) (path data : string) : t :=
  mk (Getwd os)
     (fun p => if String.eqb p path then ReadOK data else ReadFile os p)
     (CanWrite os) (Lstat os).
End OS.

Definition WriteFile (os : OS.t) (path data : string) : option OS.t :=
  if OS.CanWrite os path then Some (OS.write os path data) else None.

(** encoding/json, on the types the program encodes and decodes. *)
Class JSON := {
  UnmarshalConfig : string -> Config.t -> option Config.t;
  MarshalCache : CacheData.t -> option string;
  UnmarshalCache : string -> option CacheData.t
}.

(** The markdown converter and the embedded templates. *)
Class Renderer := {
  Convert : string -> option string;
  templateOK : string -> bool
}.

Inductive error : Type :=
| ErrReadConfig
| ErrParseConfig
| ErrPathNotExist (path : string)
| ErrIgnorePattern (pattern : string)
| ErrFilePattern (pattern dir : string)
| ErrWalk (path : string)
| ErrReadFile (path : string)
| ErrScan (dir : string) (cause : error)
| ErrNilRegexp
| ErrReadCache
| ErrParseCache
| ErrMarshalCache
| ErrWriteCache.

(** ** Configuration (config.go) *)

Definition getDefaultConfig : Config.t :=
  Config.mk
    [DirectoryConfig.mk "./" "Documents" "\.md$"]
    "8090"
    "Documentation Browser"
    [".*/node_modules/.*"; ".*/\.git/.*"; ".*/vendor/.*"; ".*/build/.*"; ".*/dist/.*"].

Definition handleTargetPath (os : OS.t) (a : App.t) (targetPath : string)
    : App.t * option error :=
  let absPath := filepath.Abs (OS.Getwd os) targetPath in
  match OS.Lstat os absPath with
  | None | Some (FGone _) => (a, Some (ErrPathNotExist targetPath))
  | Some info =>
    if IsDir info then
      (App.withConfig a (Config.withDirectories (App.Config a)
         [DirectoryConfig.mk absPath "Documents" "\.md$"]), None)
    else
      let a := App.withTargetFile a absPath in
      let dirPath := filepath.Dir absPath in
      (App.withConfig a (Config.withDirectories (App.Config a)
         [DirectoryConfig.mk dirPath "Documents" "\.md$"]), None)
  end.

(** The loop "Compile ignore patterns" of [LoadConfig]. *)
Fixpoint compileIgnorePatterns (patterns : list string) (a : App.t)
    : App.t * option error :=
  match patterns with
  | [] => (a, None)
  | pattern :: patterns' =>
    match regexp.Compile pattern with
    | None => (a, Some (ErrIgnorePattern pattern))
    | Some regex =>
      compileIgnorePatterns patterns'
        (App.withIgnoreRegexes a (App.IgnoreRegexes a ++ [regex]))
    end
  end.

(** The pattern [LoadConfig] compiles for a configured directory. *)
Definition filePatternOf (dirConfig : DirectoryConfig.t) : string :=
  let pattern := DirectoryConfig.FilePattern dirConfig in
  if String.eqb pattern "" then "^(?i)(readme\.md)$" else pattern.

(** The loop "Compile file patterns for each directory" of [LoadConfig]. *)
Fixpoint compileFilePatterns (dirs : list DirectoryConfig.t) (a : App.t)
    : App.t * option error :=
  match dirs with
  | [] => (a, None)
  | dirConfig :: dirs' =>
    let pattern := filePatternOf dirConfig in
    match regexp.Compile pattern with
    | None => (a, Some (ErrFilePattern pattern (DirectoryConfig.Path dirConfig)))
    | Some regex =>
      compileFilePatterns dirs'
        (App.withFileRegexes a
           (<[DirectoryConfig.Path dirConfig := regex]> (App.FileRegexes a)))
    end
  end.

Definition LoadConfig `{JSON} (os : OS.t) (a : App.t) (configFile targetPath : string)
    : App.t * option error :=
  let configFile := if String.eqb configFile "" then "dimandocs.json" else configFile in
  let loaded :=
    match OS.ReadFile os configFile with
    | ReadOK data =>
      match UnmarshalConfig data (App.Config a) with
      | Some c => inl (App.withConfig a c)
      | None => inr ErrParseConfig
      end
    | NotExist =>
      if String.eqb configFile "dimandocs.json"
      then inl (App.withConfig a getDefaultConfig) else inr ErrReadConfig
    | ReadFailed => inr ErrReadConfig
    end in
  match loaded with
  | inr e => (a, Some e)
  | inl a =>
    let '(a, err) :=
      if negb (String.eqb targetPath "") then handleTargetPath os a targetPath
      else (a, None) in
    match err with
    | Some e => (a, Some e)
    | None =>
      let '(a, err) := compileIgnorePatterns (Config.IgnorePatterns (App.Config a)) a in
      match err with
      | Some e => (a, Some e)
      | None =>
        compileFilePatterns (Config.Directories (App.Config a))
          (App.withFileRegexes a ∅)
      end
    end
  end.

(** ** Scanning (models.go) *)

Fixpoint matchAny (regexes : list regexp.Regexp) (path : string) : bool :=
  match regexes with
  | [] => false
  | regex :: regexes' =>
    if regexp.MatchString regex path then true else matchAny regexes' path
  end.

Definition shouldIgnorePath (a : App.t) (path : string) : bool :=
  matchAny (App.IgnoreRegexes a) path.

(** The loop of [extractOverviewParagraph]; returning [paragraphLines] is
    its [break]. *)
Fixpoint overviewLoop (lines : list string) (foundOverview : bool)
    (paragraphLines : list string) : list string :=
  match lines with
  | [] => paragraphLines
  | line :: lines' =>
    let trimmedLine := strings.TrimSpace line in
    if strings.HasPrefix trimmedLine "## Overview" then
      overviewLoop lines' true paragraphLines
    else if foundOverview then
      if String.eqb trimmedLine "" && (length paragraphLines =? 0) then
        overviewLoop lines' foundOverview paragraphLines
      else if (strings.HasPrefix trimmedLine "#" || String.eqb trimmedLine "")
              && (0 <? length paragraphLines) then
        paragraphLines
      else if negb (String.eqb trimmedLine "") then
        overviewLoop lines' foundOverview (paragraphLines ++ [trimmedLine])
      else overviewLoop lines' foundOverview paragraphLines
    else overviewLoop lines' foundOverview paragraphLines
  end.

Definition extractOverviewParagraph (content : string) : string :=
  let lines := strings.Split content LF in
  strings.Join (overviewLoop lines false []) " ".

(** The title loop of [processFile]. *)
Fixpoint titleLoop (lines : list string) (title : string) : string :=
  match lines with
  | [] => title
  | line :: lines' =>
    if strings.HasPrefix line "# " then strings.TrimPrefix line "# "
    else titleLoop lines' title
  end.

(** The value of an expression [v, _ := filepath.Rel(..)]: Rel returns the
    empty string with its error. *)
Definition relOrEmpty (basepath targpath : string) : string :=
  default "" (filepath.Rel basepath targpath).

Definition processFile (os : OS.t) (a : App.t) (path rootDir sourceName : string)
    : App.t * option error :=
  match OS.ReadFile os path with
  | ReadOK content =>
    let relPath := relOrEmpty rootDir path in
    let dirName := filepath.Dir relPath in
    let dirName := if String.eqb dirName "." then "Root" else dirName in
    let filename := filepath.Base path in
    let dirName :=
      if String.eqb dirName "Root" then filename
      else dirName +:+ "/" +:+ filename in
    let absPath := filepath.Abs (OS.Getwd os) path in
    let absDir := filepath.Dir absPath in
    let relAbsDir := relOrEmpty (App.WorkingDir a) absDir in
    let relAbsDir :=
      if strings.HasPrefix relAbsDir "../"
      then "/" +:+ strings.TrimPrefix relAbsDir "../" else relAbsDir in
    let title := dirName in
    let title :=
      if strings.Contains content "# "
      then titleLoop (strings.Split content LF) title else title in
    let overview := extractOverviewParagraph content in
    let doc :=
      Document.mk title path content relPath dirName rootDir sourceName
        relAbsDir overview in
    (App.withDocuments a (App.Documents a ++ [doc]), None)
  | _ => (a, Some (ErrReadFile path))
  end.

(** What a walk function returns besides nil: [filepath.SkipDir] or an
    error that ends the walk. *)
Inductive walkErr : Type :=
| SkipDir
| Failed (e : error).

Definition WalkFunc : Type :=
  string -> FileTree -> option error -> App.t -> App.t * option walkErr.

(** [walk] of path/filepath: the function is called on the entry and, for a
    directory it did not skip, on the entries below it in order. *)
Fixpoint walk (fn : WalkFunc) (path : string) (info : FileTree) (a : App.t)
    {struct info} : App.t * option walkErr :=
  match info with
  | FFile _ => fn path info None a
  | FGone _ => fn path info (Some (ErrWalk path)) a
  | FDir _ listable entries =>
    let err := if listable then None else Some (ErrWalk path) in
    let '(a1, err1) := fn path info err a in
    match listable, err1 with
    | true, None =>
      (fix walkEntries (entries : list FileTree) (a : App.t)
           {struct entries} : App.t * option walkErr :=
         match entries with
         | [] => (a, None)
         | entry :: entries' =>
           let filename := filepath.Join [path; fileName entry] in
           let '(a', err) := walk fn filename entry a in
           match err, entry with
           | None, _ => walkEntries entries' a'
           | Some SkipDir, FFile _ => (a', err)
           | Some SkipDir, _ => walkEntries entries' a'
           | Some (Failed _), _ => (a', err)
           end
         end) entries a1
    | _, _ => (a1, err1)
    end
  end.

(** The loop of [walk] over the entries of a directory, by name. *)
Fixpoint walkEntries (fn : WalkFunc) (path : string) (entries : list FileTree) (a : App.t)
    : App.t * option walkErr :=
  match entries with
  | [] => (a, None)
  | entry :: entries' =>
    let filename := filepath.Join [path; fileName entry] in
    let '(a', err) := walk fn filename entry a in
    match err, entry with
    | None, _ => walkEntries fn path entries' a'
    | Some SkipDir, FFile _ => (a', err)
    | Some SkipDir, _ => walkEntries fn path entries' a'
    | Some (Failed _), _ => (a', err)
    end
  end.

(** [filepath.Walk(root, fn)] *)
Definition Walk (os : OS.t) (root : string) (fn : WalkFunc) (a : App.t)
    : App.t * option error :=
  let '(a', err) :=
    match OS.Lstat os root with
    | None => fn root (FGone root) (Some (ErrWalk root)) a
    | Some info => walk fn root info a
    end in
  match err with
  | None | Some SkipDir => (a', None)
  | Some (Failed e) => (a', Some e)
  end.

(** The walk function of [scanDirectory].  [fileRegex] is a pointer: calling
    [MatchString] through a nil pointer panics, which ends the scan. *)
Definition scanEntry (os : OS.t) (rootDir sourceName : string)
    (fileRegex : option regexp.Regexp) : WalkFunc :=
  fun path info err a =>
    match err with
    | Some e => (a, Some (Failed e))
    | None =>
      if shouldIgnorePath a path then
        if IsDir info then (a, Some SkipDir) else (a, None)
      else if negb (IsDir info) then
        let filename := fileName info in
        match fileRegex with
        | None => (a, Some (Failed ErrNilRegexp))
        | Some regex =>
          if regexp.MatchString regex filename then
            (* a failure of processFile is logged and the walk goes on *)
            ((processFile os a path rootDir sourceName).1, None)
          else (a, None)
        end
      else (a, None)
    end.

Definition scanDirectory (os : OS.t) (a : App.t) (rootDir sourceName : string)
    (fileRegex : option regexp.Regexp) : App.t * option error :=
  Walk os rootDir (scanEntry os rootDir sourceName fileRegex) a.

Fixpoint scanEach (os : OS.t) (dirs : list DirectoryConfig.t) (a : App.t)
    : App.t * option error :=
  match dirs with
  | [] => (a, None)
  | dirConfig :: dirs' =>
    let path := DirectoryConfig.Path dirConfig in
    let '(a', err) :=
      scanDirectory os a path (DirectoryConfig.Name dirConfig)
        (App.FileRegexes a !! path) in
    match err with
    | Some e => (a', Some (ErrScan path e))
    | None => scanEach os dirs' a'
    end
  end.

Definition ScanDirectories (os : OS.t) (a : App.t) : App.t * option error :=
  scanEach os (Config.Directories (App.Config a)) a.

(** ** Indexing (models.go) *)

(** The grouping loop of [GroupDocumentsByDirectory] and
    [BuildDirectoryTrees]. *)
Definition groupBySourceName (docs : list Document.t) : gmap string (list Document.t) :=
  foldl (fun groupMap doc =>
           let name := Document.SourceName doc in
           <[name := default [] (groupMap !! name) ++ [doc]]> groupMap)
        ∅ docs.

(** A [range] over a Go map visits every entry once, in an order the
    language leaves unspecified: any listing of the entries is a possible
    order of iteration. *)
Definition rangeOver {V : Type} (m : gmap string V) (visited : list (string * V)) : Prop :=
  visited ≡ₚ map_to_list m.

Definition GroupDocumentsByDirectory (a : App.t) (groups : list DirectoryGroup.t) : Prop :=
  exists visited,
    rangeOver (groupBySourceName (App.Documents a)) visited /\
    groups = map (fun '(name, docs) => DirectoryGroup.mk name docs) visited.

(** The search for an existing child and the append of a new one, in the
    loop body of [addDocumentToTree]; [descend] is the rest of the loop,
    run on the node that becomes [current]. *)
Fixpoint updateChild (part : string) (descend : TreeNode.t -> TreeNode.t)
    (newNode : TreeNode.t) (children : list TreeNode.t) : list TreeNode.t :=
  match children with
  | [] => [descend newNode]
  | child :: children' =>
    if String.eqb (TreeNode.Name child) part then descend child :: children'
    else child :: updateChild part descend newNode children'
  end.

Fixpoint addParts (parts : list string) (doc : Document.t) (currentPath : string)
    (current : TreeNode.t) : TreeNode.t :=
  match parts with
  | [] => current
  | part :: parts' =>
    let currentPath :=
      if String.eqb currentPath "" then part else currentPath +:+ "/" +:+ part in
    let isFile := match parts' with [] => true | _ => false end in
    let newNode :=
      TreeNode.mk part currentPath isFile (if isFile then Some doc else None) [] false in
    TreeNode.withChildren current
      (updateChild part (addParts parts' doc currentPath) newNode
         (TreeNode.Children current))
  end.

Definition addDocumentToTree (root : TreeNode.t) (doc : Document.t) (sourceDir : string)
    : TreeNode.t :=
  let relPath :=
    match filepath.Rel sourceDir (Document.Path doc) with
    | Some relPath => relPath
    | None => Document.Path doc
    end in
  let parts := strings.Split (filepath.ToSlash relPath) "/" in
  addParts parts doc "" root.

(** The body of the loop over the groups in [BuildDirectoryTrees]. *)
Definition buildTree (sourceName : string) (docs : list Document.t) : DirectoryTree.t :=
  let root := TreeNode.mk sourceName "" false None [] true in
  DirectoryTree.mk sourceName
    (foldl (fun root doc => addDocumentToTree root doc (Document.SourceDir doc)) root docs).

(** [BuildDirectoryTrees] when the map is visited in the order [visited]. *)
Definition buildTreesIn (visited : list (string * list Document.t)) : list DirectoryTree.t :=
  map (fun '(sourceName, docs) => buildTree sourceName docs) visited.

Definition BuildDirectoryTrees (a : App.t) (trees : list DirectoryTree.t) : Prop :=
  exists visited,
    rangeOver (groupBySourceName (App.Documents a)) visited /\
    trees = buildTreesIn visited.

(** ** Handlers (models.go) *)

(** The loop "Look for the second ---" of [stripFrontmatter], on
    [lines[1:]]. *)
Fixpoint closingLoop (lines : list string) (content : string) : string :=
  match lines with
  | [] => content
  | line :: lines' =>
    if String.eqb (strings.TrimSpace line) "---" then strings.Join lines' nl
    else closingLoop lines' content
  end.

Definition stripFrontmatter (content : string) : string :=
  if negb (strings.HasPrefix content ("---" +:+ nl))
     && negb (strings.HasPrefix content ("---" +:+ String CR nl))
  then content
  else
    let lines := strings.Split content LF in
    if length lines <? 3 then content
    else closingLoop (drop 1 lines) content.

Module DocumentData.
Record t : Type := mk {
  Title : string;
  AppTitle : string;
  DirName : string;
  AbsPath : string;
  Content : string
}.
End DocumentData.

Inductive Response : Type :=
| NotFound
| InternalServerError
| Page (data : DocumentData.t)
| JSONDocuments (results : list Document.t).

(** The index of the first document with the given RelPath. *)
Fixpoint findRelPath (docs : list Document.t) (path : string) (i : nat) : option nat :=
  match docs with
  | [] => None
  | d :: docs' =>
    if String.eqb (Document.RelPath d) path then Some i
    else findRelPath docs' path (S i)
  end.

(** [handleDocument], for the request path [urlPath]: the state of the
    application after the request and the response. *)
Definition handleDocument `{Renderer} (os : OS.t) (a : App.t) (urlPath : string)
    : App.t * Response :=
  let path := strings.TrimPrefix urlPath "/doc/" in
  match findRelPath (App.Documents a) path 0 with
  | None => (a, NotFound)
  | Some docIndex =>
    match App.Documents a !! docIndex with
    | None => (a, NotFound)
    | Some doc =>
      let loaded :=
        if String.eqb (Document.Content doc) "" then
          match OS.ReadFile os (Document.Path doc) with
          | ReadOK content => Some (Document.withContent doc content)
          | _ => None
          end
        else Some doc in
      match loaded with
      | None => (a, InternalServerError)
      | Some doc =>
        let a := App.withDocuments a (<[docIndex := doc]> (App.Documents a)) in
        if negb (templateOK "templates/document.html") then (a, InternalServerError)
        else
          let content := stripFrontmatter (Document.Content doc) in
          match Convert content with
          | None => (a, InternalServerError)
          | Some htmlContent =>
            (a, Page (DocumentData.mk (Document.Title doc)
                        (Config.Title (App.Config a)) (Document.DirName doc)
                        (Document.AbsPath doc) htmlContent))
          end
      end
    end
  end.

(** The loop [for i := range a.Documents] that fills empty contents, from
    index [i] on for [n] more documents. *)
Fixpoint loadLoop (os : OS.t) (n i : nat) (docs : list Document.t) : list Document.t :=
  match n with
  | 0 => docs
  | S n' =>
    let docs' :=
      match docs !! i with
      | Some doc =>
        if negb (String.eqb (Document.Content doc) "") then docs
        else
          match OS.ReadFile os (Document.Path doc) with
          | ReadOK content => <[i := Document.withContent doc content]> docs
          | _ => docs
          end
      | None => docs
      end in
    loadLoop os n' (S i) docs'
  end.

Definition loadDocumentContents (os : OS.t) (a : App.t) : App.t * option error :=
  (App.withDocuments a (loadLoop os (length (App.Documents a)) 0 (App.Documents a)), None).

(** The result loop of [handleSearch]. *)
Fixpoint searchLoop `{UnicodeTables} (docs : list Document.t) (query : string)
    (results : list Document.t) : list Document.t :=
  match docs with
  | [] => results
  | doc :: docs' =>
    if strings.Contains (strings.ToLower (Document.Title doc)) query
       || strings.Contains (strings.ToLower (Document.Content doc)) query
       || strings.Contains (strings.ToLower (Document.Overview doc)) query
    then searchLoop docs' query (results ++ [doc])
    else searchLoop docs' query results
  end.

(** [handleSearch], for the value [q] of the query parameter.  Its loading
    loop is the loop of [loadDocumentContents]. *)
Definition handleSearch `{UnicodeTables} (os : OS.t) (a : App.t) (q : string)
    : App.t * Response :=
  let query := strings.ToLower (strings.TrimSpace q) in
  if String.eqb query "" then (a, JSONDocuments [])
  else
    let a :=
      if App.UseCache a
      then App.withDocuments a (loadLoop os (length (App.Documents a)) 0 (App.Documents a))
      else a in
    (a, JSONDocuments (searchLoop (App.Documents a) query [])).

(** ** Cache (models.go) *)

Definition cacheFile : string := ".dimandocs-cache.json".

(** The Document that [loadFromCache] builds from a cached one; its Content
    is empty. *)
Definition documentOf (cached : CachedDocument.t) : Document.t :=
  Document.mk (CachedDocument.Title cached) (CachedDocument.Path cached)
    "" (CachedDocument.RelPath cached) (CachedDocument.DirName cached)
    (CachedDocument.SourceDir cached) (CachedDocument.SourceName cached)
    (CachedDocument.AbsPath cached) (CachedDocument.Overview cached).

(** The CachedDocument that [saveToCache] builds from a Document. *)
Definition cachedOf (doc : Document.t) : CachedDocument.t :=
  CachedDocument.mk (Document.Title doc) (Document.Path doc)
    (Document.RelPath doc) (Document.DirName doc) (Document.SourceDir doc)
    (Document.SourceName doc) (Document.AbsPath doc) (Document.Overview doc).

Definition loadFromCache `{JSON} (os : OS.t) (a : App.t) : App.t * option error :=
  match OS.ReadFile os cacheFile with
  | ReadOK data =>
    match UnmarshalCache data with
    | Some cache =>
      (App.withDocuments a (map documentOf (CacheData.Documents cache)), None)
    | None => (a, Some ErrParseCache)
    end
  | _ => (a, Some ErrReadCache)
  end.

Definition saveToCache `{JSON} (os : OS.t) (a : App.t) : OS.t * option error :=
  let cachedDocs := map cachedOf (App.Documents a) in
  let cache := CacheData.mk cachedDocs Version in
  match MarshalCache cache with
  | None => (os, Some ErrMarshalCache)
  | Some data =>
    match WriteFile os cacheFile data with
    | None => (os, Some ErrWriteCache)
    | Some os' => (os', None)
    end
  end.


(** ** Reference definitions

    The definitions below do not come from the program: they say in Rocq
    what the specification says in words, and are what the program is
    compared with. *)

Fixpoint takeWhile {A : Type} (p : A -> bool) (l : list A) : list A :=
  match l with
  | [] => []
  | x :: l' => if p x then x :: takeWhile p l' else []
  end.

Fixpoint dropWhile {A : Type} (p : A -> bool) (l : list A) : list A :=
  match l with
  | [] => []
  | x :: l' => if p x then dropWhile p l' else l
  end.

(** *** Overview paragraph *)

Definition isOverviewHeading (line : string) : bool :=
  strings.HasPrefix (strings.TrimSpace line) "## Overview".

Definition isHeading (line : string) : bool :=
  strings.HasPrefix (strings.TrimSpace line) "#".

Definition isBlank (line : string) : bool :=
  String.eqb (strings.TrimSpace line) "".

(** The specification's Overview: go to the first line whose trimmed form
    starts with "## Overview", skip the blank lines after it, collect lines
    up to the next heading or blank line, join them with single spaces. *)
Definition overview_spec (content : string) : string :=
  match dropWhile (fun line => negb (isOverviewHeading line))
                  (strings.Split content LF) with
  | [] => ""
  | _ :: after =>
    match dropWhile isBlank after with
    | [] => ""
    | first :: rest =>
      strings.Join
        (map strings.TrimSpace
           (first :: takeWhile (fun line => negb (isHeading line || isBlank line)) rest))
        " "
    end
  end.

(** *** Front matter *)

Definition beginsWithDelimiterLine (content : string) : bool :=
  strings.HasPrefix content ("---" +:+ nl)
  || strings.HasPrefix content ("---" +:+ String CR nl).

(** The lines after the first line, among those after the opening one, that
    trims to "---". *)
Definition afterClosingLine (content : string) : option (list string) :=
  let later := drop 1 (strings.Split content LF) in
  match list_find (fun line => strings.TrimSpace line = "---") later with
  | Some (i, _) => Some (drop (S i) later)
  | None => None
  end.

(** The claim about stripFrontmatter, as it is stated. *)
Definition stripFrontmatter_spec (content : string) : string :=
  if beginsWithDelimiterLine content then
    match afterClosingLine content with
    | Some rest => strings.Join rest nl
    | None => content
    end
  else content.

(** The same with the condition the code adds: at least three lines. *)
Definition stripFrontmatter_amended (content : string) : string :=
  if beginsWithDelimiterLine content
     && (3 <=? length (strings.Split content LF)) then
    match afterClosingLine content with
    | Some rest => strings.Join rest nl
    | None => content
    end
  else content.

(** *** Display path *)

Fixpoint stripClimbs (fuel : nat) (rel : string) : string :=
  match fuel with
  | 0 => rel
  | S fuel' =>
    if strings.HasPrefix rel "../" then stripClimbs fuel' (dropBytes 3 rel) else rel
  end.

(** The specification's AbsPath for a directory whose path relative to the
    working directory is [rel]: a path that climbs above the working
    directory is shown rooted at "/", as in "../../foo" -> "/foo". *)
Definition absPath_spec (rel : string) : string :=
  if strings.HasPrefix rel "../" then "/" +:+ stripClimbs (String.length rel) rel
  else rel.

(** What the code does: the first "../" becomes "/". *)
Definition absPath_amended (rel : string) : string :=
  if strings.HasPrefix rel "../" then "/" +:+ dropBytes 3 rel else rel.

(** *** File patterns *)

(** [strings.HasSuffix(s, suffix)] *)
Definition HasSuffix (s suffix : string) : bool :=
  strings.HasPrefix (String.rev s) (String.rev suffix).

(** A letter in either case, as [(?i)] compiles it. *)
Definition letter (lower : ascii) : regexp.Regexp :=
  regexp.Alt (regexp.Lit lower) (regexp.Lit (byte_of (code lower - 32))).

Fixpoint seqRe (rs : list regexp.Regexp) : regexp.Regexp :=
  match rs with
  | [] => regexp.Empty
  | [r] => r
  | r :: rs' => regexp.Cat r (seqRe rs')
  end.

(** The expression that "^(?i)(readme\.md)$" compiles to. *)
Definition readmeRegexp : regexp.Regexp :=
  regexp.Cat regexp.BeginText
    (regexp.Cat
       (seqRe [letter "r"; letter "e"; letter "a"; letter "d"; letter "m"; letter "e";
               regexp.Lit "."; letter "m"; letter "d"])
       regexp.EndText).

(** [byteClass r p]: the expression [r] reads one byte, any of those for
    which [p] holds. *)
Inductive byteClass : regexp.Regexp -> (ascii -> bool) -> Prop :=
| byteClass_Lit c :
    byteClass (regexp.Lit c) (fun c' => Ascii.eqb c' c)
| byteClass_Alt r1 r2 p1 p2 :
    byteClass r1 p1 -> byteClass r2 p2 ->
    byteClass (regexp.Alt r1 r2) (fun c' => p1 c' || p2 c').

(** One byte of each class in turn, then [k] on the rest. *)
Fixpoint matchPrefix (classes : list (ascii -> bool)) (s : string) (k : string -> bool) : bool :=
  match classes with
  | [] => k s
  | p :: classes' =>
    match s with
    | String c s' => p c && matchPrefix classes' s' k
    | "" => false
    end
  end.

(** *** Walks *)

(** [descends path info chain file]: in the tree [info] found at [path],
    [file] is the path under which a walk reaches a file, and [chain] lists
    the paths of the entries on the way, from [path] down to [file]. *)
Inductive descends : string -> FileTree -> list string -> string -> Prop :=
| descends_file path name :
    descends path (FFile name) [path] path
| descends_dir path name listable entries entry chain file :
    In entry entries ->
    descends (filepath.Join [path; fileName entry]) entry chain file ->
    descends path (FDir name listable entries) (path :: chain) file.

(** The documents [new] were found below [path]: each has the path of a
    file of the tree [info], reached through entries none of which is
    matched by one of [regexes]. *)
Definition foundUnder (regexes : list regexp.Regexp) (path : string) (info : FileTree)
    (new : list Document.t) : Prop :=
  Forall (fun doc =>
            exists chain,
              descends path info chain (Document.Path doc) /\
              Forall (fun p => matchAny regexes p = false) chain) new.

(** *** Search *)

(** A document matches a query: its title, content or overview contains it
    when both are put in lower case. *)
Definition matchesQuery `{UnicodeTables} (query : string) (doc : Document.t) : bool :=
  strings.Contains (strings.ToLower (Document.Title doc)) (strings.ToLower query)
  || strings.Contains (strings.ToLower (Document.Content doc)) (strings.ToLower query)
  || strings.Contains (strings.ToLower (Document.Overview doc)) (strings.ToLower query).

(** The claim about the search, as it is stated: the documents that contain
    the query string, none for an empty or all-whitespace query. *)
Definition search_spec `{UnicodeTables} (q : string) (docs : list Document.t)
    : list Document.t :=
  if String.eqb (strings.TrimSpace q) "" then []
  else List.filter (matchesQuery q) docs.

(** *** Content loading *)

(** What the loading loop does to one document. *)
Definition loadContent (os : OS.t) (doc : Document.t) : Document.t :=
  if String.eqb (Document.Content doc) "" then
    match OS.ReadFile os (Document.Path doc) with
    | ReadOK content => Document.withContent doc content
    | _ => doc
    end
  else doc.

(** Two documents agree on every field but Content. *)
Definition sameMetadata (doc doc' : Document.t) : Prop :=
  Document.Title doc' = Document.Title doc /\
  Document.Path doc' = Document.Path doc /\
  Document.RelPath doc' = Document.RelPath doc /\
  Document.DirName doc' = Document.DirName doc /\
  Document.SourceDir doc' = Document.SourceDir doc /\
  Document.SourceName doc' = Document.SourceName doc /\
  Document.AbsPath doc' = Document.AbsPath doc /\
  Document.Overview doc' = Document.Overview doc.

(** The invariant of content loading, for a document [doc] before an
    operation and the same document [doc'] after it: only Content may
    change; a loaded document is left as it is; so is one whose file cannot
    be read; a change puts the content of the file at Path in the place of
    an empty Content. *)
Definition loadInvariant (os : OS.t) (doc doc' : Document.t) : Prop :=
  sameMetadata doc doc' /\
  (Document.Content doc <> "" -> doc' = doc) /\
  ((forall content, OS.ReadFile os (Document.Path doc) <> ReadOK content) -> doc' = doc) /\
  (doc' <> doc ->
     Document.Content doc = "" /\
     OS.ReadFile os (Document.Path doc) = ReadOK (Document.Content doc')).

(** ** Instances for running the model

    Stand-ins for the libraries the model is parameterised by, used where a
    statement is evaluated on concrete data. *)

(** Texts without letters outside ASCII have nothing to map. *)
Definition asciiTables : UnicodeTables := {| mapToLower := fun s => s |}.

(** A converter that passes the markdown text through. *)
Definition plainRenderer : Renderer :=
  {| Convert := fun content => Some content; templateOK := fun _ => true |}.

Module plainjson.

(** A writer and a reader of the cache file in compact JSON, with the two
    escapes a string needs to be read back. *)

Definition quoteChar : ascii := byte_of 34.
Definition backslash : ascii := byte_of 92.

Fixpoint escape (s : string) : string :=
  match s with
  | "" => ""
  | String c s' =>
    if Ascii.eqb c quoteChar || Ascii.eqb c backslash
    then String backslash (String c (escape s'))
    else String c (escape s')
  end.

Definition quote (s : string) : string :=
  String quoteChar (escape s +:+ String quoteChar "").

Definition field (key value : string) : string :=
  quote key +:+ ":" +:+ quote value.

Definition writeDocument (d : CachedDocument.t) : string :=
  "{" +:+ strings.Join
    [ field "title" (CachedDocument.Title d); field "path" (CachedDocument.Path d);
      field "rel_path" (CachedDocument.RelPath d); field "dir_name" (CachedDocument.DirName d);
      field "source_dir" (CachedDocument.SourceDir d);
      field "source_name" (CachedDocument.SourceName d);
      field "abs_path" (CachedDocument.AbsPath d); field "overview" (CachedDocument.Overview d) ]
    "," +:+ "}".

Definition writeCache (c : CacheData.t) : string :=
  "{" +:+ quote "documents" +:+ ":["
  +:+ strings.Join (map writeDocument (CacheData.Documents c)) ","
  +:+ "]," +:+ field "version" (CacheData.Version c) +:+ "}".

Definition expect (lit s : string) : option string :=
  if strings.HasPrefix s lit then Some (dropBytes (String.length lit) s) else None.

(** The text up to the closing quote, unescaped, and what follows it. *)
Fixpoint readQuoted (s : string) : option (string * string) :=
  match s with
  | "" => None
  | String c s' =>
    if Ascii.eqb c quoteChar then Some ("", s')
    else if Ascii.eqb c backslash then
      match s' with
      | String e s'' =>
        match readQuoted s'' with
        | Some (v, rest) => Some (String e v, rest)
        | None => None
        end
      | "" => None
      end
    else
      match readQuoted s' with
      | Some (v, rest) => Some (String c v, rest)
      | None => None
      end
  end.

Definition readField (key s : string) : option (string * string) :=
  s ← expect (quote key +:+ ":" +:+ String quoteChar "") s;
  readQuoted s.

Definition readDocument (s : string) : option (CachedDocument.t * string) :=
  s ← expect "{" s;
  '(title, s) ← readField "title" s; s ← expect "," s;
  '(path, s) ← readField "path" s; s ← expect "," s;
  '(relPath, s) ← readField "rel_path" s; s ← expect "," s;
  '(dirName, s) ← readField "dir_name" s; s ← expect "," s;
  '(sourceDir, s) ← readField "source_dir" s; s ← expect "," s;
  '(sourceName, s) ← readField "source_name" s; s ← expect "," s;
  '(absPath, s) ← readField "abs_path" s; s ← expect "," s;
  '(overview, s) ← readField "overview" s;
  s ← expect "}" s;
  Some (CachedDocument.mk title path relPath dirName sourceDir sourceName absPath overview, s).

(** A configuration file with the fields "directories" (path, name and an
    optional file_pattern each) and "ignore_patterns", in this order. *)
Definition writeDirectory (d : DirectoryConfig.t) : string :=
  "{" +:+ field "path" (DirectoryConfig.Path d) +:+ "," +:+ field "name" (DirectoryConfig.Name d)
  +:+ (if String.eqb (DirectoryConfig.FilePattern d) "" then ""
       else "," +:+ field "file_pattern" (DirectoryConfig.FilePattern d))
  +:+ "}".

Definition writeConfig (c : Config.t) : string :=
  "{" +:+ quote "directories" +:+ ":["
  +:+ strings.Join (map writeDirectory (Config.Directories c)) ","
  +:+ "]," +:+ quote "ignore_patterns" +:+ ":["
  +:+ strings.Join (map quote (Config.IgnorePatterns c)) "," +:+ "]}".

Definition readDirectory (s : string) : option (DirectoryConfig.t * string) :=
  s ← expect "{" s;
  '(path, s) ← readField "path" s; s ← expect "," s;
  '(name, s) ← readField "name" s;
  match expect "," s with
  | Some s =>
    '(pattern, s) ← readField "file_pattern" s;
    s ← expect "}" s;
    Some (DirectoryConfig.mk path name pattern, s)
  | None =>
    s ← expect "}" s;
    Some (DirectoryConfig.mk path name "", s)
  end.

(** A list of items between "[" (already read) and "]". *)
Fixpoint readList {A : Type} (item : string -> option (A * string)) (fuel : nat)
    (s : string) : option (list A * string) :=
  match fuel with
  | 0 => None
  | S fuel' =>
    match expect "]" s with
    | Some s' => Some ([], s')
    | None =>
      '(x, s) ← item s;
      match expect "," s with
      | Some s' =>
        '(xs, s) ← readList item fuel' s';
        Some (x :: xs, s)
      | None =>
        s ← expect "]" s;
        Some ([x], s)
      end
    end
  end.

Definition readCache (s : string) : option CacheData.t :=
  s0 ← expect ("{" +:+ quote "documents" +:+ ":[") s;
  '(docs, s1) ← readList readDocument (String.length s) s0;
  s2 ← expect "," s1;
  '(version, s3) ← readField "version" s2;
  s4 ← expect "}" s3;
  if String.eqb s4 "" then Some (CacheData.mk docs version) else None.

Definition readConfig (s : string) (c : Config.t) : option Config.t :=
  s0 ← expect ("{" +:+ quote "directories" +:+ ":[") s;
  '(dirs, s1) ← readList readDirectory (String.length s) s0;
  s2 ← expect ("," +:+ quote "ignore_patterns" +:+ ":[") s1;
  '(patterns, s3) ← readList (fun s => s ← expect (String quoteChar "") s; readQuoted s)
                       (String.length s) s2;
  s4 ← expect "}" s3;
  if String.eqb s4 "" then Some (Config.mk dirs (Config.Port c) (Config.Title c) patterns)
  else None.

Definition codec : JSON :=
  {| UnmarshalConfig := readConfig;
     MarshalCache := fun c => Some (writeCache c);
     UnmarshalCache := readCache |}.

End plainjson.

(** A small world: the working directory is /w/a/b and the documents live in
    /w/foo, two levels up and one down. *)
Definition exampleTree : FileTree :=
  FDir "foo" true
    [ FDir ".git" true [FFile "README.md"];
      FFile "README.md";
      FDir "guide" true [FFile "faq.md"; FFile "notes.txt"];
      FFile "secret.md" ].

Definition exampleOS : OS.t :=
  OS.mk "/w/a/b"
    (fun path =>
       if String.eqb path "/w/foo/README.md" then ReadOK ("# My Title" +:+ nl +:+ "Body")
       else if String.eqb path "/w/foo/guide/faq.md" then ReadOK ("Setup questions")
       else if String.eqb path "/w/foo/.git/README.md" then ReadOK ("# Internal")
       else if String.eqb path "/w/foo/secret.md" then ReadFailed
       else NotExist)
    (fun _ => true)
    (fun path => if String.eqb path "/w/foo" then Some exampleTree else None).

(** The application after LoadConfig, for a configuration that names /w/foo
    with the pattern of all markdown files and ignores .git directories. *)
Definition exampleConfig : Config.t :=
  Config.mk [DirectoryConfig.mk "/w/foo" "Docs" "\.md$"] "8090" "Docs" [".*/\.git(/.*)?$"].

Definition exampleApp : App.t :=
  App.mk exampleConfig []
    (omap regexp.Compile (Config.IgnorePatterns exampleConfig))
    (list_to_map
       (omap (fun d => pair (DirectoryConfig.Path d) <$> regexp.Compile (DirectoryConfig.FilePattern d))
             (Config.Directories exampleConfig)))
    "/w/a/b" "" true.

(** An index of four documents from two sources, as a scan leaves it. *)
Definition exampleDocs : list Document.t :=
  [ Document.mk "Setup Guide" "/w/foo/guide/setup.md" "Install steps" "guide/setup.md"
      "guide/setup.md" "/w/foo" "Docs" "/../foo/guide" "";
    Document.mk "Todo" "/w/notes/todo.md" "# Todo" "todo.md" "todo.md" "/w/notes" "Notes"
      "/../notes" "";
    Document.mk "FAQ" "/w/foo/guide/faq.md" "Setup questions" "guide/faq.md"
      "guide/faq.md" "/w/foo" "Docs" "/../foo/guide" "";
    Document.mk "My Title" "/w/foo/README.md" "" "README.md"
      "README.md" "/w/foo" "Docs" "/../foo" "" ].

Definition exampleIndex : App.t :=
  App.withDocuments exampleApp exampleDocs.

(** A configuration file that names one directory and no file pattern. *)
Definition exampleConfigOS : OS.t :=
  OS.mk "/w/a/b"
    (fun path =>
       if String.eqb path "dimandocs.json"
       then ReadOK (plainjson.writeConfig
                      (Config.mk [DirectoryConfig.mk "/w/foo" "Docs" ""] "" "" []))
       else NotExist)
    (fun _ => true)
    (fun path => if String.eqb path "/w/foo" then Some exampleTree else None).

(** ** Start-up and the remaining handlers (models.go) *)

(** [Initialize].  The working directory of the model's [OS.t] can always
    be read, so the error return of [GetWorkingDirectory] does not occur.
    A failed [saveToCache] is logged and the start-up goes on. *)
Definition Initialize `{JSON} (os : OS.t) (a : App.t) (configFile targetPath : string)
    (useCache : bool) : OS.t * App.t * option error :=
  let a :=
    App.mk (App.Config a) (App.Documents a) (App.IgnoreRegexes a) (App.FileRegexes a)
      (OS.Getwd os) (App.TargetFile a) useCache in
  let '(a, err) := LoadConfig os a configFile targetPath in
  match err with
  | Some e => (os, a, Some e)
  | None =>
    let '(a, loaded) :=
      if App.UseCache a then
        let '(a', err) := loadFromCache os a in
        (a', match err with None => true | Some _ => false end)
      else (a, false) in
    if loaded then (os, a, None)
    else
      let '(a, err) := ScanDirectories os a in
      match err with
      | Some e => (os, a, Some e)
      | None =>
        if App.UseCache a then ((saveToCache os a).1, a, None) else (os, a, None)
      end
  end.



(** The type int of Go, 64 bits wide: the value of an arithmetic expression
    is its mathematical value wrapped around. *)
Definition wrapInt (z : Z) : Z := ((z + 2 ^ 63) mod 2 ^ 64 - 2 ^ 63)%Z.

(** The loop of [findAvailablePort]: [for port := startPort; port < limit;
    port++], where [listen port] tells whether [net.Listen] succeeds on the
    port.  The loop makes at most 100 rounds. *)
Fixpoint probePorts (listen : Z -> bool) (rounds : nat) (port limit : Z) : option Z :=
  match rounds with
  | 0 => None
  | S rounds' =>
    if (port <? limit)%Z then
      if listen port then Some port
      else probePorts listen rounds' (wrapInt (port + 1)) limit
    else None
  end.

(** [findAvailablePort]; [None] is its error "no available port found". *)
Definition findAvailablePort (listen : Z -> bool) (startPort : Z) : option Z :=
  probePorts listen 100 startPort (wrapInt (startPort + 100)).

(** ** Reference definitions for the further properties *)

(** [descendsTo path info chain file name]: as [descends], with the name of
    the file as the directory lists it. *)
Inductive descendsTo : string -> FileTree -> list string -> string -> string -> Prop :=
| descendsTo_file path name :
    descendsTo path (FFile name) [path] path name
| descendsTo_dir path name listable entries entry chain file fname :
    In entry entries ->
    descendsTo (filepath.Join [path; fileName entry]) entry chain file fname ->
    descendsTo path (FDir name listable entries) (path :: chain) file fname.

(** The first child with a name, as the loop "Look for existing node" of
    [addDocumentToTree] finds it. *)
Fixpoint findChild (name : string) (children : list TreeNode.t) : option TreeNode.t :=
  match children with
  | [] => None
  | child :: children' =>
    if String.eqb (TreeNode.Name child) name then Some child
    else findChild name children'
  end.

(** The node reached from [node] through the children named [parts]. *)
Fixpoint findPath (parts : list string) (node : TreeNode.t) : option TreeNode.t :=
  match parts with
  | [] => Some node
  | part :: parts' =>
    match findChild part (TreeNode.Children node) with
    | Some child => findPath parts' child
    | None => None
    end
  end.

(** A text without a line feed. *)
Fixpoint noLF (s : string) : Prop :=
  match s with
  | "" => True
  | String c s' => c <> LF /\ noLF s'
  end.

(** The tree of the source "Docs" of the example index, one of its
    documents, and a machine on which the ports below 8092 are taken. *)
Definition exampleRoot : TreeNode.t :=
  DirectoryTree.Root
    (buildTree "Docs"
       (List.filter (fun doc => String.eqb (Document.SourceName doc) "Docs") exampleDocs)).

Definition exampleFaq : Document.t :=
  Document.mk "FAQ" "/w/foo/guide/faq.md" "Setup questions" "guide/faq.md"
    "guide/faq.md" "/w/foo" "Docs" "/../foo/guide" "".

Definition exampleListen (port : Z) : bool := (8092 <=? port)%Z.

(** The document [doc] was read by a scan from a file of the tree [info] at
    [path]: the file is reached through entries none of which is matched by
    one of [regexes], its name is matched by [regex], and the document
    carries the content read from it and the labels of the scan. *)
Definition indexedFrom (os : OS.t) (regexes : list regexp.Regexp) (regex : regexp.Regexp)
    (rootDir sourceName path : string) (info : FileTree) (doc : Document.t) : Prop :=
  exists chain fname,
    descendsTo path info chain (Document.Path doc) fname /\
    Forall (fun p => matchAny regexes p = false) chain /\
    regexp.MatchString regex fname = true /\
    OS.ReadFile os (Document.Path doc) = ReadOK (Document.Content doc) /\
    Document.SourceDir doc = rootDir /\
    Document.SourceName doc = sourceName /\
    Document.RelPath doc = relOrEmpty rootDir (Document.Path doc).

(** The expression of the example configuration, and a machine with the
    configuration file of [exampleConfigOS] on which the configured
    directory is missing. *)
Definition exampleRegex : regexp.Regexp :=
  default regexp.Empty (regexp.Compile "\.md$").

Definition exampleLostOS : OS.t :=
  OS.mk "/w/a/b" (OS.ReadFile exampleConfigOS) (fun _ => true) (fun _ => None).

(** A machine with the files of [exampleOS] and a configuration file that
    holds [exampleConfig]. *)
Definition exampleStartOS : OS.t :=
  OS.mk "/w/a/b"
    (fun path =>
       if String.eqb path "dimandocs.json" then ReadOK (plainjson.writeConfig exampleConfig)
       else OS.ReadFile exampleOS path)
    (fun _ => true)
    (OS.Lstat exampleOS).


(** * Properties *)

(** ** The library models on known values *)

Example Split_ex :
  strings.Split ("a" +:+ nl +:+ nl +:+ "b") LF = ["a"; ""; "b"] /\
  strings.Split "" LF = [""] /\
  strings.Split "a/b/" "/" = ["a"; "b"; ""].
Proof. repeat split. Qed.

Example TrimSpace_ex :
  strings.TrimSpace ("  " +:+ bytes [9; 194; 160] +:+ "x y " +:+ bytes [13; 226; 128; 168]) = "x y" /\
  strings.TrimSpace (bytes [32; 10; 9]) = "" /\
  strings.TrimSpace (bytes [194; 32]) = bytes [194].
Proof. vm_compute. repeat split. Qed.

Example Clean_ex :
  map filepath.Clean
    ["abc//def//ghi"; "abc/./../def"; "/../abc"; "../../abc/.."; ""; "./"; "/"; "a/.."]
  = ["abc/def/ghi"; "def"; "/abc"; "../.."; "."; "."; "/"; "."].
Proof. vm_compute. reflexivity. Qed.

Example Rel_ex :
  map (fun p => filepath.Rel p.1 p.2)
    [("a/b", "a/b/c/d"); ("a/b/c", "a/c/d"); ("a/b/c/d/", "a/b"); ("/a/b", "/a/b/.");
     (".", "a/b"); ("..", "a"); ("/a", "a"); ("/", "/a/b"); ("/w/a/b", "/w/foo");
     ("./", "docs/x.md"); ("..", "../x")]
  = [Some "c/d"; Some "../../c/d"; Some "../.."; Some "."; Some "a/b";
     None; None; Some "a/b"; Some "../../foo"; Some "docs/x.md"; Some "x"].
Proof. vm_compute. reflexivity. Qed.

Example Dir_Base_ex :
  map (fun p => (filepath.Dir p, filepath.Base p)) ["/a/b/c.md"; "c.md"; "a/"; "/"; ""; "a/b"]
  = [("/a/b", "c.md"); (".", "c.md"); ("a", "a"); ("/", "/"); (".", "."); ("a", "b")].
Proof. vm_compute. reflexivity. Qed.

Example Join_ex :
  map filepath.Join [["./"; "README.md"]; ["/w/foo"; ".git"]; [""; "a"]; ["a"; ""]; ["a/b"; "../c"]]
  = ["README.md"; "/w/foo/.git"; "a"; "a"; "a/c"].
Proof. vm_compute. reflexivity. Qed.

Example Compile_ex :
  regexp.Compile "\.md$"
    = Some (regexp.Cat (regexp.Lit ".")
              (regexp.Cat (regexp.Lit "m") (regexp.Cat (regexp.Lit "d") regexp.EndText))) /\
  regexp.Compile "a**" = None /\
  regexp.Compile "(a" = None /\
  regexp.Compile "[a-z]" = None.
Proof. vm_compute. repeat split. Qed.

Example MatchString_ex :
  map (fun p => option_map (fun r => regexp.MatchString r p.2) (regexp.Compile p.1))
    [ ("\.md$", "notes.md"); ("\.md$", "notes.mdx"); ("^(?i)(readme\.md)$", "ReadMe.MD");
      (".*/\.git(/.*)?$", "/w/foo/.git"); (".*/\.git(/.*)?$", "/w/foo/.git/config");
      (".*/\.git(/.*)?$", "/w/foo/.github"); (".*/\.git(/.*)?$", ".git/config");
      ("(a|b)*c+?d", "xxabbaccd"); ("^(a*)*$", "aaaaaaaaaaaaaaab") ]
  = [Some true; Some false; Some true; Some true; Some true; Some false; Some false;
     Some true; Some false].
Proof. vm_compute. reflexivity. Qed.

(** A rune is as wide as the bytes there are: [.] and the search always
    move forward. *)
Lemma dropRune_shorter (c : ascii) (s : string) :
  String.length (utf8.dropRune (String c s)) <= String.length s.
Proof.
  unfold utf8.dropRune. generalize (utf8.runeLen (String c s) - 1).
  intros n. revert s. induction n as [|n IH]; intros [|c' s]; simpl; try lia.
  specialize (IH s). lia.
Qed.

(** ** Strings *)

Lemma app_String (c : ascii) (s t : string) : String c s +:+ t = String c (s +:+ t).
Proof. reflexivity. Qed.

Lemma app_empty_l (s : string) : "" +:+ s = s.
Proof. reflexivity. Qed.

Lemma app_empty_r (s : string) : s +:+ "" = s.
Proof. induction s as [|c s IH]; [reflexivity|]. rewrite app_String. by f_equal. Qed.

Lemma app_assoc_s (s t u : string) : (s +:+ t) +:+ u = s +:+ (t +:+ u).
Proof. induction s as [|c s IH]; [reflexivity|]. rewrite !app_String. by f_equal. Qed.

Lemma HasPrefix_app (p r : string) : strings.HasPrefix (p +:+ r) p = true.
Proof.
  induction p as [|c p IH]; [by destruct r|].
  rewrite app_String. simpl. by rewrite Ascii.eqb_refl.
Qed.

Lemma HasPrefix_inv (s p : string) :
  strings.HasPrefix s p = true -> s = p +:+ dropBytes (String.length p) s.
Proof.
  revert s. induction p as [|c p IH]; intros s Hp; [reflexivity|].
  destruct s as [|c' s]; [discriminate|].
  simpl in Hp. apply andb_true_iff in Hp as [Hc Hp].
  apply Ascii.eqb_eq in Hc as ->.
  rewrite app_String. simpl. f_equal. by apply IH.
Qed.

Lemma TrimPrefix_spec (s p : string) :
  strings.HasPrefix s p = true -> s = p +:+ strings.TrimPrefix s p.
Proof. intros Hp. unfold strings.TrimPrefix. rewrite Hp. by apply HasPrefix_inv. Qed.

Lemma HasPrefix_app_l (s p t : string) :
  strings.HasPrefix s p = true -> strings.HasPrefix (s +:+ t) p = true.
Proof.
  revert s. induction p as [|c p IH]; intros s Hp; [by destruct (s +:+ t)|].
  destruct s as [|c' s]; [discriminate|].
  rewrite app_String. simpl in *.
  apply andb_true_iff in Hp as [-> Hp]. by rewrite IH.
Qed.

Lemma Contains_prefix (s p : string) :
  strings.HasPrefix s p = true -> strings.Contains s p = true.
Proof. intros Hp. destruct s; simpl in *; by rewrite Hp. Qed.

Lemma Contains_app (pre s p : string) :
  strings.Contains s p = true -> strings.Contains (pre +:+ s) p = true.
Proof.
  intros Hs. induction pre as [|c pre IH]; [done|].
  rewrite app_String. simpl. rewrite IH. by rewrite orb_true_r.
Qed.

Lemma Contains_middle (pre s post p : string) :
  strings.HasPrefix s p = true -> strings.Contains (pre +:+ s +:+ post) p = true.
Proof.
  intros Hp. apply Contains_app, Contains_prefix. by apply HasPrefix_app_l.
Qed.

Lemma Split_cons (s : string) (sep : ascii) :
  exists piece pieces, strings.Split s sep = piece :: pieces.
Proof.
  induction s as [|c s (piece & pieces & IH)]; simpl; [by eauto|].
  destruct (Ascii.eqb c sep); [by eauto|]. rewrite IH. by eauto.
Qed.

Lemma Join_cons (e e' : string) (l : list string) (sep : string) :
  strings.Join (e :: e' :: l) sep = e +:+ sep +:+ strings.Join (e' :: l) sep.
Proof. reflexivity. Qed.

(** Joining the pieces of a split with the separator gives the text back. *)
Lemma Join_Split (s : string) (sep : ascii) :
  strings.Join (strings.Split s sep) (String sep "") = s.
Proof.
  induction s as [|c s IH]; [reflexivity|]. simpl.
  destruct (Split_cons s sep) as (p0 & ps & Hs). rewrite Hs in IH |- *.
  destruct (Ascii.eqb_spec c sep) as [->|_].
  - rewrite Join_cons, IH. reflexivity.
  - destruct ps as [|p1 ps].
    + simpl in *. by rewrite IH.
    + rewrite Join_cons in *. rewrite app_String. by rewrite IH.
Qed.

Lemma Join_piece (l : list string) (sep piece : string) :
  In piece l -> exists pre post, strings.Join l sep = pre +:+ piece +:+ post.
Proof.
  induction l as [|e l IH]; intros Hin; [done|].
  destruct l as [|e' l].
  - destruct Hin as [<-|[]]. exists "", "". simpl. by rewrite app_empty_r.
  - rewrite Join_cons. destruct Hin as [<-|Hin].
    + by exists "", (sep +:+ strings.Join (e' :: l) sep).
    + destruct (IH Hin) as (pre & post & ->).
      exists (e +:+ sep +:+ pre), post. by rewrite !app_assoc_s.
Qed.

(** Every piece of a split is a part of the text. *)
Lemma Split_piece (s : string) (sep : ascii) (piece : string) :
  In piece (strings.Split s sep) -> exists pre post, s = pre +:+ piece +:+ post.
Proof.
  intros Hin.
  destruct (Join_piece _ (String sep "") _ Hin) as (pre & post & Hj).
  rewrite Join_Split in Hj. by exists pre, post.
Qed.

(** The trimming loop stops for want of white space, not of fuel. *)
Lemma spaceAt_empty (runes : list string) :
  Forall (fun r => r <> "") runes -> strings.spaceAt runes "" = 0.
Proof.
  induction 1 as [|r runes Hr _ IH]; [reflexivity|]. simpl.
  by destruct r.
Qed.

Lemma length_dropBytes (n : nat) (c : ascii) (s : string) :
  String.length (dropBytes (S n) (String c s)) <= String.length s.
Proof.
  simpl. revert s. induction n as [|n IH]; intros [|c' s]; simpl; try lia.
  specialize (IH s). lia.
Qed.

Lemma trimLoop_done (runes : list string) (fuel : nat) (s : string) :
  Forall (fun r => r <> "") runes ->
  String.length s <= fuel ->
  strings.spaceAt runes (strings.trimLoop runes fuel s) = 0.
Proof.
  intros Hrunes. revert s. induction fuel as [|fuel IH]; intros s Hlen.
  - destruct s; [|simpl in Hlen; lia]. by apply spaceAt_empty.
  - cbn [strings.trimLoop]. destruct (strings.spaceAt runes s) as [|n] eqn:Hn; [done|].
    destruct s as [|c s]; [by rewrite spaceAt_empty in Hn|].
    apply IH. pose proof (length_dropBytes n c s). simpl in Hlen. lia.
Qed.

Lemma TrimLeftSpace_done (s : string) :
  strings.spaceAt strings.spaceRunes (strings.TrimLeftSpace s) = 0.
Proof.
  apply trimLoop_done; [|done].
  unfold strings.spaceRunes. cbn [map bytes]. by repeat constructor.
Qed.

(** ** Front matter *)

Lemma closingLoop_find (lines : list string) (content : string) :
  closingLoop lines content =
  match list_find (fun line => strings.TrimSpace line = "---") lines with
  | Some (i, _) => strings.Join (drop (S i) lines) nl
  | None => content
  end.
Proof.
  induction lines as [|line lines IH]; [reflexivity|].
  cbn [closingLoop list_find]. 
  destruct (String.eqb_spec (strings.TrimSpace line) "---") as [Heq|Hne].
  - rewrite decide_True by done. reflexivity.
  - rewrite decide_False by done. rewrite IH.
    destruct (list_find _ lines) as [[i x]|]; reflexivity.
Qed.

Lemma beginsWithDelimiterLine_guard (content : string) :
  negb (strings.HasPrefix content ("---" +:+ nl))
  && negb (strings.HasPrefix content ("---" +:+ String CR nl))
  = negb (beginsWithDelimiterLine content).
Proof. unfold beginsWithDelimiterLine. by rewrite negb_orb. Qed.

(** C10 (as stated, refuted): the content "---\n---" begins with a delimiter
    line and its second line trims to "---", so the claim has it reduced
    to the (empty) text after that line; stripFrontmatter returns it
    unchanged, because it has fewer than three lines. *)
Lemma stripFrontmatter_two_lines_unchanged :
  let content := "---" +:+ nl +:+ "---" in
  beginsWithDelimiterLine content = true /\
  afterClosingLine content = Some [] /\
  stripFrontmatter_spec content = "" /\
  stripFrontmatter content = content /\
  stripFrontmatter content <> stripFrontmatter_spec content.
Proof. vm_compute. repeat split; discriminate. Qed.

(** stripFrontmatter in terms of the first closing line. *)
Lemma stripFrontmatter_find (content : string) :
  stripFrontmatter content =
  if negb (beginsWithDelimiterLine content) then content
  else if length (strings.Split content LF) <? 3 then content
  else match afterClosingLine content with
       | Some rest => strings.Join rest nl
       | None => content
       end.
Proof.
  unfold stripFrontmatter, afterClosingLine.
  rewrite beginsWithDelimiterLine_guard.
  destruct (negb (beginsWithDelimiterLine content)); [reflexivity|].
  destruct (length (strings.Split content LF) <? 3); [reflexivity|].
  rewrite closingLoop_find. by destruct (list_find _ _) as [[i x]|].
Qed.

(** C10 (amended): stripFrontmatter returns its input unchanged unless the
    content begins with a "---" delimiter line, has at least three lines and
    some later line trims to exactly "---"; when all three hold it returns
    the lines after the first such closing line, joined by newlines. *)
Theorem stripFrontmatter_amended_correct (content : string) :
  stripFrontmatter content = stripFrontmatter_amended content.
Proof.
  rewrite stripFrontmatter_find. unfold stripFrontmatter_amended.
  destruct (beginsWithDelimiterLine content); [|reflexivity]. cbn [negb andb].
  destruct (Nat.ltb_spec (length (strings.Split content LF)) 3) as [Hlt|Hge].
  - by rewrite (proj2 (Nat.leb_gt _ _)).
  - by rewrite (proj2 (Nat.leb_le _ _)).
Qed.

(** Where the content has three lines or more, the claim holds as stated. *)
Lemma stripFrontmatter_spec_three_lines (content : string) :
  3 <= length (strings.Split content LF) ->
  stripFrontmatter content = stripFrontmatter_spec content.
Proof.
  intros Hlen. rewrite stripFrontmatter_find. unfold stripFrontmatter_spec.
  rewrite (proj2 (Nat.ltb_ge _ _)) by done.
  by destruct (beginsWithDelimiterLine content).
Qed.

Lemma stripFrontmatter_no_delimiter (content : string) :
  beginsWithDelimiterLine content = false -> stripFrontmatter content = content.
Proof. intros Hb. rewrite stripFrontmatter_find. by rewrite Hb. Qed.

Lemma stripFrontmatter_unclosed (content : string) :
  afterClosingLine content = None -> stripFrontmatter content = content.
Proof.
  intros Hc. rewrite stripFrontmatter_find, Hc.
  by destruct (negb _), (length (strings.Split content LF) <? 3).
Qed.

Example stripFrontmatter_ex :
  stripFrontmatter
    ("---" +:+ nl +:+ "title: x" +:+ nl +:+ " --- " +:+ nl +:+ "# Doc" +:+ nl +:+ "text")
  = "# Doc" +:+ nl +:+ "text".
Proof. vm_compute. reflexivity. Qed.

(** The document view renders the content without its front matter. *)
Lemma handleDocument_strips `{Renderer} (os : OS.t) (a a' : App.t)
    (urlPath : string) (data : DocumentData.t) :
  handleDocument os a urlPath = (a', Page data) ->
  exists doc, In doc (App.Documents a') /\
    Convert (stripFrontmatter (Document.Content doc)) = Some (DocumentData.Content data).
Proof.
  unfold handleDocument. intros Hh.
  destruct (findRelPath _ _ _) as [i|]; [|discriminate].
  destruct (App.Documents a !! i) as [doc|] eqn:Hi; [|discriminate].
  set (loaded := if String.eqb _ _ then _ else _) in Hh.
  destruct loaded as [doc'|]; [|discriminate].
  destruct (templateOK _); [|discriminate]. simpl in Hh.
  destruct (Convert _) as [html|] eqn:Hc; [|discriminate].
  injection Hh as <- <-. exists doc'. split; [|done].
  simpl. apply list_elem_of_In, list_elem_of_lookup. exists i.
  apply list_lookup_insert_eq. by eapply lookup_lt_Some.
Qed.

(** ** Overview *)

Lemma overviewLoop_before (lines : list string) :
  overviewLoop lines false [] =
  match dropWhile (fun line => negb (isOverviewHeading line)) lines with
  | [] => []
  | _ :: after => overviewLoop after true []
  end.
Proof.
  induction lines as [|line lines IH]; [reflexivity|].
  cbn [overviewLoop dropWhile]. unfold isOverviewHeading at 1.
  by destruct (strings.HasPrefix _ _).
Qed.

Lemma overviewLoop_blank (lines : list string) :
  forallb (fun line => negb (isOverviewHeading line)) lines = true ->
  overviewLoop lines true [] =
  match dropWhile isBlank lines with
  | [] => []
  | first :: rest => overviewLoop rest true [strings.TrimSpace first]
  end.
Proof.
  induction lines as [|line lines IH]; [reflexivity|].
  cbn [forallb overviewLoop dropWhile]. intros [Hl Hls]%andb_true_iff.
  unfold isOverviewHeading in Hl. apply negb_true_iff in Hl. rewrite Hl.
  unfold isBlank at 1.
  destruct (String.eqb (strings.TrimSpace line) ""); simpl; [by apply IH|].
  by rewrite andb_false_r.
Qed.

Lemma overviewLoop_collect (lines acc : list string) :
  acc <> [] ->
  forallb (fun line => negb (isOverviewHeading line)) lines = true ->
  overviewLoop lines true acc =
  acc ++ map strings.TrimSpace
    (takeWhile (fun line => negb (isHeading line || isBlank line)) lines).
Proof.
  revert acc. induction lines as [|line lines IH]; intros acc Hacc.
  { intros _. simpl. by rewrite app_nil_r. }
  cbn [forallb overviewLoop takeWhile]. intros [Hl Hls]%andb_true_iff.
  unfold isOverviewHeading in Hl. apply negb_true_iff in Hl. rewrite Hl.
  unfold isHeading, isBlank.
  assert ((length acc =? 0) = false) as ->.
  { destruct acc; [done|reflexivity]. }
  assert ((0 <? length acc) = true) as ->.
  { destruct acc; [done|reflexivity]. }
  rewrite andb_false_r, andb_true_r.
  destruct (strings.HasPrefix _ "#" || String.eqb _ "") eqn:Hstop.
  { cbn [negb map]. by rewrite app_nil_r. }
  apply orb_false_iff in Hstop as [_ ->]. cbn [negb map].
  rewrite IH; [|by destruct acc|done].
  by rewrite <- app_assoc.
Qed.

(** Where no later line starts with "## Overview" again, the Overview is the
    one the specification describes. *)
Lemma extractOverview_single_heading (content : string) :
  forallb (fun line => negb (isOverviewHeading line))
    (drop 1 (dropWhile (fun line => negb (isOverviewHeading line))
                       (strings.Split content LF))) = true ->
  extractOverviewParagraph content = overview_spec content.
Proof.
  unfold extractOverviewParagraph, overview_spec. intros Hno.
  rewrite overviewLoop_before.
  destruct (dropWhile _ (strings.Split content LF)) as [|heading after];
    [reflexivity|].
  simpl in Hno. rewrite overviewLoop_blank by done.
  assert (forallb (fun line => negb (isOverviewHeading line))
            (dropWhile isBlank after) = true) as Hno'.
  { clear -Hno. induction after as [|l after IH]; [done|]. simpl in *.
    apply andb_true_iff in Hno as [Hl Hls].
    destruct (isBlank l); [by apply IH|]. simpl. by rewrite Hl. }
  destruct (dropWhile isBlank after) as [|first rest]; [reflexivity|].
  simpl in Hno'. apply andb_true_iff in Hno' as [_ Hrest].
  by rewrite overviewLoop_collect.
Qed.

(** Once the heading is found, a line that starts with "## Overview" has no
    effect at all: the loop passes over it. *)
Lemma overviewLoop_skips (lines acc : list string) :
  overviewLoop lines true acc =
  overviewLoop (List.filter (fun line => negb (isOverviewHeading line)) lines) true acc.
Proof.
  revert acc. induction lines as [|line lines IH]; intros acc; [reflexivity|].
  cbn [List.filter]. unfold isOverviewHeading at 1.
  destruct (strings.HasPrefix (strings.TrimSpace line) "## Overview") eqn:Hh; cbn [negb].
  - cbn [overviewLoop]. by rewrite Hh.
  - cbn [overviewLoop]. rewrite Hh.
    repeat (destruct (_ && _); [by rewrite ?IH|]).
    destruct (negb _); by rewrite IH.
Qed.

Lemma filter_not_heading (lines : list string) :
  forallb (fun line => negb (isOverviewHeading line))
    (List.filter (fun line => negb (isOverviewHeading line)) lines) = true.
Proof.
  induction lines as [|line lines IH]; [reflexivity|]. cbn [List.filter].
  destruct (negb (isOverviewHeading line)) eqn:Hl; [|done]. simpl. by rewrite Hl.
Qed.

(** What extractOverviewParagraph computes on every content: the Overview of
    the specification for the text without the later lines that start with
    "## Overview". *)
Lemma extractOverview_all (content : string) :
  extractOverviewParagraph content =
  match dropWhile (fun line => negb (isOverviewHeading line))
                  (strings.Split content LF) with
  | [] => ""
  | _ :: after =>
    match dropWhile isBlank
            (List.filter (fun line => negb (isOverviewHeading line)) after) with
    | [] => ""
    | first :: rest =>
      strings.Join
        (map strings.TrimSpace
           (first :: takeWhile (fun line => negb (isHeading line || isBlank line)) rest))
        " "
    end
  end.
Proof.
  unfold extractOverviewParagraph. rewrite overviewLoop_before.
  destruct (dropWhile _ (strings.Split content LF)) as [|heading after];
    [reflexivity|].
  rewrite overviewLoop_skips.
  pose proof (filter_not_heading after) as Hno.
  set (kept := List.filter _ after) in *. clearbody kept.
  rewrite overviewLoop_blank by done.
  assert (forallb (fun line => negb (isOverviewHeading line))
            (dropWhile isBlank kept) = true) as Hno'.
  { clear -Hno. induction kept as [|l kept IH]; [done|]. simpl in *.
    apply andb_true_iff in Hno as [Hl Hls].
    destruct (isBlank l); [by apply IH|]. simpl. by rewrite Hl. }
  destruct (dropWhile isBlank kept) as [|first rest]; [reflexivity|].
  simpl in Hno'. apply andb_true_iff in Hno' as [_ Hrest].
  by rewrite overviewLoop_collect.
Qed.

Lemma extractOverview_no_heading (content : string) :
  forallb (fun line => negb (isOverviewHeading line)) (strings.Split content LF) = true ->
  extractOverviewParagraph content = "".
Proof.
  unfold extractOverviewParagraph. intros Hno. rewrite overviewLoop_before.
  replace (dropWhile _ _) with (@nil string); [reflexivity|].
  induction (strings.Split content LF) as [|l ls IH]; [done|]. simpl in *.
  apply andb_true_iff in Hno as [-> Hls]. by apply IH.
Qed.

Example extractOverview_ex :
  extractOverviewParagraph
    ("## Overview" +:+ nl +:+ "Line one." +:+ nl +:+ "Line two." +:+ nl +:+ nl +:+ "## Next")
  = "Line one. Line two.".
Proof. vm_compute. reflexivity. Qed.

(** C5 (the code departs from the claim): a later line that starts with
    "## Overview" is a heading, yet collection does not stop at it: the
    line is skipped and the text after it is taken into the Overview. *)
Theorem extractOverview_second_heading :
  let content :=
    "## Overview" +:+ nl +:+ "First." +:+ nl +:+ "## Overview details" +:+ nl +:+ "Second." in
  extractOverviewParagraph content = "First. Second." /\
  overview_spec content = "First.".
Proof. vm_compute. split; reflexivity. Qed.

(** ** Metadata of a scanned file *)

Lemma titleLoop_find (lines : list string) (title : string) :
  titleLoop lines title =
  match list_find (fun line => strings.HasPrefix line "# " = true) lines with
  | Some (_, line) => strings.TrimPrefix line "# "
  | None => title
  end.
Proof.
  induction lines as [|line lines IH]; [reflexivity|].
  cbn [titleLoop list_find].
  destruct (strings.HasPrefix line "# ") eqn:Hp.
  - by rewrite decide_True.
  - rewrite decide_False by done. rewrite IH.
    by destruct (list_find _ lines) as [[i x]|].
Qed.

(** The test [strings.Contains(content, "# ")] only saves the search: a
    content without "# " has no line that begins with it. *)
Lemma no_marker_no_heading (content : string) :
  strings.Contains content "# " = false ->
  list_find (fun line => strings.HasPrefix line "# " = true)
            (strings.Split content LF) = None.
Proof.
  intros Hc. apply list_find_None, Forall_forall. intros line Hin Hp.
  apply list_elem_of_In, Split_piece in Hin as (pre & post & ->).
  by rewrite (Contains_middle pre line post "# " Hp) in Hc.
Qed.

(** The document that processFile appends for a readable file. *)
Lemma processFile_appends (os : OS.t) (a : App.t) (path rootDir sourceName content : string) :
  OS.ReadFile os path = ReadOK content ->
  exists doc,
    processFile os a path rootDir sourceName
      = (App.withDocuments a (App.Documents a ++ [doc]), None) /\
    Document.Path doc = path /\
    Document.Content doc = content /\
    Document.SourceDir doc = rootDir /\
    Document.SourceName doc = sourceName /\
    Document.RelPath doc = relOrEmpty rootDir path /\
    Document.Overview doc = extractOverviewParagraph content /\
    Document.AbsPath doc =
      absPath_amended
        (relOrEmpty (App.WorkingDir a) (filepath.Dir (filepath.Abs (OS.Getwd os) path))) /\
    Document.Title doc =
      (if strings.Contains content "# "
       then titleLoop (strings.Split content LF) (Document.DirName doc)
       else Document.DirName doc).
Proof.
  intros Hr. unfold processFile. rewrite Hr. eexists. split; [reflexivity|].
  cbn. unfold absPath_amended, strings.TrimPrefix.
  repeat split; by destruct (strings.HasPrefix _ "../").
Qed.

Lemma processFile_unreadable (os : OS.t) (a : App.t) (path rootDir sourceName : string) :
  (forall content, OS.ReadFile os path <> ReadOK content) ->
  processFile os a path rootDir sourceName = (a, Some (ErrReadFile path)).
Proof.
  intros Hr. unfold processFile. destruct (OS.ReadFile os path); [by destruct (Hr data)|done..].
Qed.

(** C6: the Title of a scanned file is the text after "# " on the first line
    that begins with "# "; when no line begins with "# " it is the DirName
    of the document. *)
Theorem title_is_first_heading (os : OS.t) (a : App.t)
    (path rootDir sourceName content : string) :
  OS.ReadFile os path = ReadOK content ->
  exists doc,
    processFile os a path rootDir sourceName
      = (App.withDocuments a (App.Documents a ++ [doc]), None) /\
    match list_find (fun line => strings.HasPrefix line "# " = true)
                    (strings.Split content LF) with
    | Some (_, line) => line = "# " +:+ Document.Title doc
    | None => Document.Title doc = Document.DirName doc
    end.
Proof.
  intros Hr.
  destruct (processFile_appends os a path rootDir sourceName content Hr)
    as (doc & Hp & _ & _ & _ & _ & _ & _ & _ & Ht).
  exists doc. split; [done|]. rewrite Ht.
  destruct (strings.Contains content "# ") eqn:Hc.
  - rewrite titleLoop_find.
    destruct (list_find _ _) as [[i line]|] eqn:Hf; [|done].
    apply list_find_Some in Hf as (_ & Hline & _).
    by apply TrimPrefix_spec.
  - by rewrite no_marker_no_heading.
Qed.

Lemma title_is_first_heading_witness :
  exists doc,
    processFile exampleOS exampleApp "/w/foo/README.md" "/w/foo" "Docs"
      = (App.withDocuments exampleApp (App.Documents exampleApp ++ [doc]), None) /\
    match list_find (fun line => strings.HasPrefix line "# " = true)
                    (strings.Split ("# My Title" +:+ nl +:+ "Body") LF) with
    | Some (_, line) => line = "# " +:+ Document.Title doc
    | None => Document.Title doc = Document.DirName doc
    end.
Proof.
  apply (title_is_first_heading exampleOS exampleApp "/w/foo/README.md" "/w/foo" "Docs").
  reflexivity.
Defined.

(** The two cases the specification names. *)
Example title_examples :
  map Document.Title
    (App.Documents (processFile exampleOS exampleApp "/w/foo/README.md" "/w/foo" "Docs").1)
    = ["My Title"] /\
  map (fun doc => (Document.Title doc, Document.DirName doc))
    (App.Documents (processFile exampleOS exampleApp "/w/foo/guide/faq.md" "/w/foo" "Docs").1)
    = [("guide/faq.md", "guide/faq.md")].
Proof. vm_compute. split; reflexivity. Qed.

(** C3 (as stated, refuted): the file /w/foo/README.md is scanned from the
    working directory /w/a/b.  Its directory is "../../foo" relative to
    the working directory; the claim has the AbsPath "/foo", the document
    gets "/../foo". *)
Lemma absPath_two_levels_up :
  relOrEmpty (App.WorkingDir exampleApp)
    (filepath.Dir (filepath.Abs (OS.Getwd exampleOS) "/w/foo/README.md")) = "../../foo" /\
  absPath_spec "../../foo" = "/foo" /\
  map Document.AbsPath
    (App.Documents (processFile exampleOS exampleApp "/w/foo/README.md" "/w/foo" "Docs").1)
    = ["/../foo"] /\
  map Document.AbsPath
    (App.Documents (processFile exampleOS exampleApp "/w/foo/README.md" "/w/foo" "Docs").1)
    <> [absPath_spec "../../foo"].
Proof. vm_compute. repeat split; discriminate. Qed.

(** C3 (amended): the AbsPath of a scanned file is its directory relative to
    the working directory, with a leading "../" replaced by "/" once; it
    never begins with "../". *)
Theorem absPath_first_climb_replaced (os : OS.t) (a : App.t)
    (path rootDir sourceName content : string) :
  OS.ReadFile os path = ReadOK content ->
  exists doc,
    processFile os a path rootDir sourceName
      = (App.withDocuments a (App.Documents a ++ [doc]), None) /\
    Document.AbsPath doc =
      absPath_amended
        (relOrEmpty (App.WorkingDir a) (filepath.Dir (filepath.Abs (OS.Getwd os) path))) /\
    strings.HasPrefix (Document.AbsPath doc) "../" = false.
Proof.
  intros Hr.
  destruct (processFile_appends os a path rootDir sourceName content Hr)
    as (doc & Hp & _ & _ & _ & _ & _ & _ & Habs & _).
  exists doc. split; [done|]. split; [done|]. rewrite Habs.
  unfold absPath_amended.
  by destruct (strings.HasPrefix (relOrEmpty _ _) "../") eqn:Hp'.
Qed.

Lemma absPath_first_climb_replaced_witness :
  exists doc,
    processFile exampleOS exampleApp "/w/foo/README.md" "/w/foo" "Docs"
      = (App.withDocuments exampleApp (App.Documents exampleApp ++ [doc]), None) /\
    Document.AbsPath doc =
      absPath_amended
        (relOrEmpty (App.WorkingDir exampleApp)
           (filepath.Dir (filepath.Abs (OS.Getwd exampleOS) "/w/foo/README.md"))) /\
    strings.HasPrefix (Document.AbsPath doc) "../" = false.
Proof.
  apply (absPath_first_climb_replaced exampleOS exampleApp
           "/w/foo/README.md" "/w/foo" "Docs" ("# My Title" +:+ nl +:+ "Body")).
  reflexivity.
Defined.

(** ** Content loading *)

Lemma loadLoop_map (os : OS.t) (n i : nat) (docs : list Document.t) :
  i + n = length docs ->
  loadLoop os n i docs = take i docs ++ map (loadContent os) (drop i docs).
Proof.
  revert i docs. induction n as [|n IH]; intros i docs Hlen.
  { simpl. rewrite drop_ge by lia. rewrite take_ge by lia. by rewrite app_nil_r. }
  destruct (lookup_lt_is_Some_2 docs i) as [doc Hi]; [lia|].
  simpl. rewrite Hi.
  assert ((if negb (String.eqb (Document.Content doc) "") then docs
           else match OS.ReadFile os (Document.Path doc) with
                | ReadOK content => <[i:=Document.withContent doc content]> docs
                | _ => docs
                end) = <[i:=loadContent os doc]> docs) as ->.
  { unfold loadContent.
    destruct (String.eqb (Document.Content doc) ""); simpl;
      [destruct (OS.ReadFile os _)|];
      first [reflexivity | by rewrite (list_insert_id docs i doc Hi)]. }
  rewrite IH by (rewrite length_insert; lia).
  rewrite (take_S_r _ _ (loadContent os doc))
    by (apply list_lookup_insert_eq; lia).
  rewrite take_insert_ge by lia. rewrite drop_insert_lt by lia.
  rewrite (drop_S docs doc i Hi). simpl. by rewrite <- app_assoc.
Qed.

Lemma loadLoop_all (os : OS.t) (docs : list Document.t) :
  loadLoop os (length docs) 0 docs = map (loadContent os) docs.
Proof. by rewrite loadLoop_map. Qed.

Lemma sameMetadata_refl (doc : Document.t) : sameMetadata doc doc.
Proof. by repeat split. Qed.

Lemma loadInvariant_refl (os : OS.t) (doc : Document.t) : loadInvariant os doc doc.
Proof. split; [apply sameMetadata_refl|]. by repeat split. Qed.

Lemma withContent_same (doc : Document.t) :
  Document.withContent doc (Document.Content doc) = doc.
Proof. by destruct doc. Qed.

Lemma loadInvariant_loaded (os : OS.t) (doc : Document.t) (content : string) :
  Document.Content doc = "" ->
  OS.ReadFile os (Document.Path doc) = ReadOK content ->
  loadInvariant os doc (Document.withContent doc content).
Proof.
  intros Hc Hr. split; [by repeat split|]. split; [done|]. split.
  - intros Hno. by destruct (Hno content).
  - done.
Qed.

Lemma loadInvariant_loadContent (os : OS.t) (doc : Document.t) :
  loadInvariant os doc (loadContent os doc).
Proof.
  unfold loadContent.
  destruct (String.eqb_spec (Document.Content doc) "") as [Hc|Hc];
    [|apply loadInvariant_refl].
  destruct (OS.ReadFile os (Document.Path doc)) eqn:Hr;
    [by apply loadInvariant_loaded|apply loadInvariant_refl..].
Qed.

Lemma Forall2_insert_r {A : Type} (R : A -> A -> Prop) (l : list A) (i : nat) (x y : A) :
  (forall z, R z z) -> l !! i = Some x -> R x y -> Forall2 R l (<[i:=y]> l).
Proof.
  intros Hrefl Hi Hxy. rewrite <- (list_insert_id l i x Hi) at 1.
  apply Forall2_insert; [|done]. by apply Forall_Forall2_diag, Forall_forall.
Qed.

Lemma handleDocument_state `{Renderer} (os : OS.t) (a : App.t) (urlPath : string) :
  (handleDocument os a urlPath).1 = a \/
  exists i doc content,
    App.Documents a !! i = Some doc /\
    Document.Content doc = "" /\
    OS.ReadFile os (Document.Path doc) = ReadOK content /\
    (handleDocument os a urlPath).1
      = App.withDocuments a (<[i:=Document.withContent doc content]> (App.Documents a)).
Proof.
  assert (forall docs, App.withDocuments a docs = a -> 
            forall r : Response, (App.withDocuments a docs, r).1 = a) as Hsame by done.
  unfold handleDocument.
  destruct (findRelPath _ _ _) as [i|]; [|by left].
  destruct (App.Documents a !! i) as [doc|] eqn:Hi; [|by left].
  destruct (String.eqb_spec (Document.Content doc) "") as [Hc|Hc].
  - destruct (OS.ReadFile os (Document.Path doc)) as [content| |] eqn:Hr;
      [|by left..].
    right. exists i, doc, content. repeat split; try done.
    destruct (templateOK _); [|done]. simpl. by destruct (Convert _).
  - left. rewrite (list_insert_id _ _ _ Hi).
    assert (App.withDocuments a (App.Documents a) = a) as -> by by destruct a.
    destruct (templateOK _); [|done]. simpl. by destruct (Convert _).
Qed.

(** C9: the bulk loader and the on-demand load of the document view change
    a document in one way only: an empty Content becomes the content of the
    file at its Path.  A document with content is left as it is, a failed
    read leaves the document as it is (Content empty), and no other field of
    any document, and nothing else in the application, changes. *)
Theorem content_loaded_at_most_once `{Renderer} (os : OS.t) (a : App.t) :
  (exists docs',
     loadDocumentContents os a = (App.withDocuments a docs', None) /\
     docs' = map (loadContent os) (App.Documents a) /\
     Forall2 (loadInvariant os) (App.Documents a) docs') /\
  (forall urlPath, exists docs',
     (handleDocument os a urlPath).1 = App.withDocuments a docs' /\
     Forall2 (loadInvariant os) (App.Documents a) docs').
Proof.
  split.
  - exists (map (loadContent os) (App.Documents a)).
    unfold loadDocumentContents. rewrite loadLoop_all. repeat split.
    apply Forall2_fmap_r, Forall_Forall2_diag, Forall_forall.
    intros doc _. apply loadInvariant_loadContent.
  - intros urlPath.
    destruct (handleDocument_state os a urlPath)
      as [->|(i & doc & content & Hi & Hc & Hr & ->)].
    + exists (App.Documents a). split; [by destruct a|].
      apply Forall_Forall2_diag, Forall_forall. intros doc _.
      apply loadInvariant_refl.
    + eexists. split; [reflexivity|].
      eapply Forall2_insert_r; [apply loadInvariant_refl|done|].
      by apply loadInvariant_loaded.
Qed.

(** Loading again changes nothing once every readable document is loaded,
    as long as the files stay the same. *)
Lemma loadContent_idempotent (os : OS.t) (doc : Document.t) :
  loadContent os (loadContent os doc) = loadContent os doc.
Proof.
  unfold loadContent at 2 3.
  destruct (String.eqb_spec (Document.Content doc) "") as [Hc|Hc].
  - destruct (OS.ReadFile os (Document.Path doc)) as [content| |] eqn:Hr.
    + unfold loadContent. simpl. rewrite Hr.
      destruct (String.eqb_spec content "") as [->|_]; [|done].
      by destruct doc.
    + unfold loadContent. rewrite Hr. by destruct (String.eqb _ _).
    + unfold loadContent. rewrite Hr. by destruct (String.eqb _ _).
  - unfold loadContent. by rewrite (proj2 (String.eqb_neq _ _) Hc).
Qed.

(** ** Search *)

Lemma searchLoop_filter `{UnicodeTables} (docs results : list Document.t) (query : string) :
  searchLoop docs query results =
  results ++ List.filter
    (fun doc =>
       strings.Contains (strings.ToLower (Document.Title doc)) query
       || strings.Contains (strings.ToLower (Document.Content doc)) query
       || strings.Contains (strings.ToLower (Document.Overview doc)) query) docs.
Proof.
  revert results. induction docs as [|doc docs IH]; intros results; simpl.
  - by rewrite app_nil_r.
  - destruct (_ || _ || _); rewrite IH; [|done]. by rewrite <- app_assoc.
Qed.

(** C7 (as stated, refuted): the query " setup" has a leading space.  No
    field of the two documents contains it, so the claim has an empty
    result; the handler trims the query and returns both documents. *)
Lemma search_trims_query :
  let guide := Document.mk "Setup Guide" "g.md" "Install steps" "g.md" "g.md" "." "Docs" "." "" in
  let faq := Document.mk "FAQ" "f.md" "Setup questions" "f.md" "f.md" "." "Docs" "." "" in
  let a := App.mk Config.zero [guide; faq] [] ∅ "/w" "" false in
  let response := (@handleSearch asciiTables exampleOS a " setup").2 in
  let index := App.Documents (@handleSearch asciiTables exampleOS a " setup").1 in
  @search_spec asciiTables " setup" index = [] /\
  response = JSONDocuments [guide; faq] /\
  response <> JSONDocuments (@search_spec asciiTables " setup" index).
Proof. vm_compute. repeat split. discriminate. Qed.

(** C7 (amended): the search returns, in index order, exactly the documents
    whose Title, Content or Overview contains the query without the white
    space around it, both taken in lower case; a query that is empty once
    trimmed gives the empty list.  The documents are those of the index
    after the handler has filled in missing contents. *)
Theorem search_returns_matches `{UnicodeTables} (os : OS.t) (a : App.t) (q : string) :
  let query := strings.TrimSpace q in
  let index := App.Documents (handleSearch os a q).1 in
  (handleSearch os a q).2 =
    JSONDocuments
      (if String.eqb (strings.ToLower query) "" then []
       else List.filter (matchesQuery query) index) /\
  (forall doc,
     In doc (List.filter (matchesQuery query) index) <->
     In doc index /\
     (strings.Contains (strings.ToLower (Document.Title doc)) (strings.ToLower query) = true
      \/ strings.Contains (strings.ToLower (Document.Content doc)) (strings.ToLower query) = true
      \/ strings.Contains (strings.ToLower (Document.Overview doc)) (strings.ToLower query) = true)) /\
  (if App.UseCache a && negb (String.eqb (strings.ToLower query) "")
   then (handleSearch os a q).1
        = App.withDocuments a (map (loadContent os) (App.Documents a))
   else (handleSearch os a q).1 = a).
Proof.
  intros query index.
  assert (forall doc,
     In doc (List.filter (matchesQuery query) index) <->
     In doc index /\
     (strings.Contains (strings.ToLower (Document.Title doc)) (strings.ToLower query) = true
      \/ strings.Contains (strings.ToLower (Document.Content doc)) (strings.ToLower query) = true
      \/ strings.Contains (strings.ToLower (Document.Overview doc)) (strings.ToLower query) = true))
    as Hmem.
  { intros doc. rewrite filter_In. unfold matchesQuery.
    rewrite !orb_true_iff. tauto. }
  split; [|split; [exact Hmem|]]; subst query index; unfold handleSearch;
    destruct (String.eqb (strings.ToLower (strings.TrimSpace q)) "") eqn:He.
  - reflexivity.
  - cbn [snd fst]. by rewrite searchLoop_filter.
  - by rewrite andb_false_r.
  - rewrite andb_true_r. destruct (App.UseCache a); [|reflexivity].
    cbn [fst]. by rewrite loadLoop_all.
Qed.

(** The scenario of the specification, whatever the Unicode tables. *)
Example search_scenario `{UnicodeTables} :
  let guide := Document.mk "Setup Guide" "g.md" "Install steps" "g.md" "g.md" "." "Docs" "." "" in
  let faq := Document.mk "FAQ" "f.md" "Setup questions" "f.md" "f.md" "." "Docs" "." "" in
  let a := App.mk Config.zero [guide; faq] [] ∅ "/w" "" false in
  (handleSearch exampleOS a "setup").2 = JSONDocuments [guide; faq] /\
  (handleSearch exampleOS a "").2 = JSONDocuments [] /\
  (handleSearch exampleOS a "   ").2 = JSONDocuments [] /\
  (handleSearch exampleOS a " Install ").2 = JSONDocuments [guide].
Proof. vm_compute. repeat split. Qed.

(** ** Cache *)

Lemma documentOf_cachedOf (doc : Document.t) :
  documentOf (cachedOf doc) = Document.withContent doc "".
Proof. reflexivity. Qed.

Lemma ReadFile_write (os : OS.t) (path data : string) :
  OS.ReadFile (OS.write os path data) path = ReadOK data.
Proof. simpl. by rewrite String.eqb_refl. Qed.




(** ** File patterns *)

Lemma byteClass_matchAt (r : regexp.Regexp) (p : ascii -> bool) :
  byteClass r p ->
  forall bot s k,
    regexp.matchAt r bot s k =
    match s with
    | String c s' => p c && k false s'
    | "" => false
    end.
Proof.
  induction 1 as [c|r1 r2 p1 p2 _ IH1 _ IH2]; intros bot s k.
  - destruct s as [|c' s']; [done|]. simpl. by destruct (Ascii.eqb c' c).
  - cbn [regexp.matchAt]. rewrite IH1, IH2. destruct s as [|c' s']; [done|].
    destruct (p1 c'), (p2 c'), (k false s'); reflexivity.
Qed.

Lemma seqRe_matchAt (rs : list regexp.Regexp) (classes : list (ascii -> bool)) :
  Forall2 byteClass rs classes -> rs <> [] ->
  forall bot s k,
    regexp.matchAt (seqRe rs) bot s k = matchPrefix classes s (k false).
Proof.
  induction 1 as [|r p rs classes Hr Hrs IH]; [done|]. intros _ bot s k.
  destruct rs as [|r' rs].
  - inversion Hrs; subst. simpl seqRe. rewrite (byteClass_matchAt _ _ Hr).
    by destruct s.
  - change (seqRe (r :: r' :: rs)) with (regexp.Cat r (seqRe (r' :: rs))).
    cbn [regexp.matchAt]. rewrite (byteClass_matchAt _ _ Hr).
    destruct s as [|c s]; [done|]. cbn [matchPrefix]. by rewrite IH.
Qed.

Lemma matchPrefix_ext (cl1 cl2 : list (ascii -> bool)) (s : string) (k1 k2 : string -> bool) :
  Forall2 (fun p1 p2 => forall c, p1 c = p2 c) cl1 cl2 ->
  (forall rest, k1 rest = k2 rest) ->
  matchPrefix cl1 s k1 = matchPrefix cl2 s k2.
Proof.
  intros Hcl Hk. revert s. induction Hcl as [|p1 p2 cl1 cl2 Hp _ IH]; intros s; [apply Hk|].
  destruct s as [|c s]; [done|]. simpl. by rewrite Hp, IH.
Qed.

(** Reading the bytes that lower to those of [p], and nothing more, is
    being equal to [p] in lower case. *)
Lemma matchPrefix_lower (p name : string) :
  matchPrefix (map (fun l c => Ascii.eqb (strings.lowerByte c) l) (list_ascii_of_string p))
              name (fun rest => String.eqb rest "")
  = String.eqb (strings.lowerBytes name) p.
Proof.
  revert name. induction p as [|l p IH]; intros name.
  - destruct name; reflexivity.
  - destruct name as [|c name]; [reflexivity|]. cbn. by rewrite IH.
Qed.

Lemma letter_class (l : ascii) :
  byteClass (letter l) (fun c => Ascii.eqb c l || Ascii.eqb c (byte_of (code l - 32))).
Proof. apply byteClass_Alt; apply byteClass_Lit. Qed.

Lemma anchored_search (fuel : nat) (r : regexp.Regexp) (s : string) :
  regexp.search fuel (regexp.Cat regexp.BeginText r) false s = false.
Proof.
  revert s. induction fuel as [|fuel IH]; intros s; simpl.
  - by destruct s.
  - destruct s; [done|]. apply IH.
Qed.

Lemma anchored_MatchString (r : regexp.Regexp) (s : string) :
  regexp.MatchString (regexp.Cat regexp.BeginText r) s
  = regexp.matchAt r true s (fun _ _ => true).
Proof.
  unfold regexp.MatchString.
  destruct s as [|c s]; simpl; [by rewrite orb_false_r|].
  by rewrite anchored_search, orb_false_r.
Qed.

Lemma readmeRegexp_compiled : regexp.Compile "^(?i)(readme\.md)$" = Some readmeRegexp.
Proof. vm_compute. reflexivity. Qed.

(** The default pattern matches the names that are "readme.md" in lower
    case, and no other. *)
Lemma readmeRegexp_matches (name : string) :
  regexp.MatchString readmeRegexp name = String.eqb (strings.lowerBytes name) "readme.md".
Proof.
  unfold readmeRegexp. rewrite anchored_MatchString. cbn [regexp.matchAt].
  erewrite seqRe_matchAt; [|repeat constructor; apply letter_class|done].
  rewrite <- matchPrefix_lower. apply matchPrefix_ext.
  - cbn [map list_ascii_of_string].
    repeat (constructor; [intros [[] [] [] [] [] [] [] []]; reflexivity|]).
    constructor.
  - by intros [|c rest].
Qed.

Lemma compileIgnorePatterns_Config (patterns : list string) (a a' : App.t) (err : option error) :
  compileIgnorePatterns patterns a = (a', err) -> App.Config a' = App.Config a.
Proof.
  revert a. induction patterns as [|pattern patterns IH]; intros a; simpl.
  - by intros [= <- _].
  - destruct (regexp.Compile pattern); [|by intros [= <- _]].
    intros Hc. by rewrite (IH _ Hc).
Qed.

Lemma compileFilePatterns_Config (dirs : list DirectoryConfig.t) (a a' : App.t)
    (err : option error) :
  compileFilePatterns dirs a = (a', err) -> App.Config a' = App.Config a.
Proof.
  revert a. induction dirs as [|dirConfig dirs IH]; intros a; simpl.
  - by intros [= <- _].
  - destruct (regexp.Compile _); [|by intros [= <- _]].
    intros Hc. by rewrite (IH _ Hc).
Qed.

(** A later directory with another path leaves the entry of a path alone. *)
Lemma compileFilePatterns_other (dirs : list DirectoryConfig.t) (a a' : App.t) (path : string) :
  compileFilePatterns dirs a = (a', None) ->
  (forall later, In later dirs -> DirectoryConfig.Path later <> path) ->
  App.FileRegexes a' !! path = App.FileRegexes a !! path.
Proof.
  revert a. induction dirs as [|dirConfig dirs IH]; intros a; simpl.
  - by intros [= <-].
  - destruct (regexp.Compile _) as [regex|]; [|discriminate].
    intros Hc Hne. rewrite (IH _ Hc) by (intros; apply Hne; by right).
    simpl. apply lookup_insert_ne, Hne. by left.
Qed.

(** The expression the scanner finds for a configured directory is the
    compiled pattern of the last entry with its path. *)
Lemma compileFilePatterns_lookup (before after : list DirectoryConfig.t)
    (dirConfig : DirectoryConfig.t) (a a' : App.t) :
  compileFilePatterns (before ++ dirConfig :: after) a = (a', None) ->
  (forall later, In later after ->
     DirectoryConfig.Path later <> DirectoryConfig.Path dirConfig) ->
  exists regex,
    regexp.Compile (filePatternOf dirConfig) = Some regex /\
    App.FileRegexes a' !! DirectoryConfig.Path dirConfig = Some regex.
Proof.
  revert a. induction before as [|d before IH]; intros a; simpl.
  - destruct (regexp.Compile (filePatternOf dirConfig)) as [regex|]; [|discriminate].
    intros Hc Hne. exists regex. split; [done|].
    rewrite (compileFilePatterns_other _ _ _ _ Hc Hne). simpl.
    apply lookup_insert_eq.
  - destruct (regexp.Compile (filePatternOf d)); [|discriminate]. apply IH.
Qed.

(** A LoadConfig that succeeds ends with the loop over the directories it
    leaves in the configuration. *)
Lemma LoadConfig_file_patterns `{JSON} (os : OS.t) (a a' : App.t)
    (configFile targetPath : string) :
  LoadConfig os a configFile targetPath = (a', None) ->
  exists a0, compileFilePatterns (Config.Directories (App.Config a')) a0 = (a', None).
Proof.
  unfold LoadConfig.
  set (loaded := match OS.ReadFile os _ with ReadOK _ => _ | _ => _ end).
  destruct loaded as [a1|e]; [|discriminate].
  set (targeted := if negb _ then _ else _).
  destruct targeted as [a2 [e|]]; [discriminate|].
  destruct (compileIgnorePatterns _ a2) as [a3 [e|]] eqn:Hi; [discriminate|].
  intros Hc. exists (App.withFileRegexes a3 ∅).
  by rewrite (compileFilePatterns_Config _ _ _ _ Hc).
Qed.

(** C4 (as stated, refuted): the configuration file names the directory
    /w/foo without a file pattern.  LoadConfig succeeds, and the expression
    the scanner then uses for /w/foo does not match "notes.md". *)
Lemma default_file_pattern_rejects_notes :
  let loaded := @LoadConfig plainjson.codec exampleConfigOS App.NewApp "" "" in
  loaded.2 = None /\
  Config.Directories (App.Config loaded.1) = [DirectoryConfig.mk "/w/foo" "Docs" ""] /\
  HasSuffix "notes.md" ".md" = true /\
  exists regex,
    App.FileRegexes loaded.1 !! "/w/foo" = Some regex /\
    regexp.MatchString regex "notes.md" = false.
Proof.
  repeat split. exists readmeRegexp. split; vm_compute; reflexivity.
Qed.

(** C4 (amended): for a configured directory whose file_pattern is empty,
    the expression the scanner uses is the compiled "^(?i)(readme\.md)$":
    it matches the file names that read "readme.md" in lower case and no
    other.  (The expressions are kept by path: the entry meant is the last
    one configured for its path.) *)
Theorem default_file_pattern_is_readme `{JSON} (os : OS.t) (a a' : App.t)
    (configFile targetPath : string)
    (before after : list DirectoryConfig.t) (dirConfig : DirectoryConfig.t) :
  LoadConfig os a configFile targetPath = (a', None) ->
  Config.Directories (App.Config a') = before ++ dirConfig :: after ->
  (forall later, In later after ->
     DirectoryConfig.Path later <> DirectoryConfig.Path dirConfig) ->
  DirectoryConfig.FilePattern dirConfig = "" ->
  exists regex,
    App.FileRegexes a' !! DirectoryConfig.Path dirConfig = Some regex /\
    forall name,
      regexp.MatchString regex name = true <-> strings.lowerBytes name = "readme.md".
Proof.
  intros Hload Hdirs Hlast Hempty.
  destruct (LoadConfig_file_patterns os a a' configFile targetPath Hload) as [a0 Hc].
  rewrite Hdirs in Hc.
  destruct (compileFilePatterns_lookup _ _ _ _ _ Hc Hlast) as (regex & Hre & Hlook).
  exists regex. split; [done|]. intros name.
  unfold filePatternOf in Hre. rewrite Hempty in Hre. simpl in Hre.
  rewrite readmeRegexp_compiled in Hre. injection Hre as <-.
  rewrite readmeRegexp_matches. apply String.eqb_eq.
Qed.

Lemma default_file_pattern_is_readme_witness :
  exists regex,
    App.FileRegexes (@LoadConfig plainjson.codec exampleConfigOS App.NewApp "" "").1
      !! "/w/foo" = Some regex /\
    forall name,
      regexp.MatchString regex name = true <-> strings.lowerBytes name = "readme.md".
Proof.
  apply (@default_file_pattern_is_readme plainjson.codec exampleConfigOS App.NewApp _ "" ""
           [] [] (DirectoryConfig.mk "/w/foo" "Docs" "")).
  - vm_compute. reflexivity.
  - vm_compute. reflexivity.
  - intros later [].
  - reflexivity.
Defined.

(** ** Scanning *)

Lemma FileTree_ind' (P : FileTree -> Prop) :
  (forall name, P (FFile name)) ->
  (forall name, P (FGone name)) ->
  (forall name listable entries, Forall P entries -> P (FDir name listable entries)) ->
  forall info, P info.
Proof.
  intros Hfile Hgone Hdir. fix IH 1. intros [name|name listable entries|name].
  - apply Hfile.
  - apply Hdir. induction entries as [|entry entries IHentries]; constructor.
    + apply IH.
    + apply IHentries.
  - apply Hgone.
Qed.

Lemma walk_FDir (fn : WalkFunc) (path name : string) (listable : bool)
    (entries : list FileTree) (a : App.t) :
  walk fn path (FDir name listable entries) a =
  let err := if listable then None else Some (ErrWalk path) in
  let '(a1, err1) := fn path (FDir name listable entries) err a in
  match listable, err1 with
  | true, None => walkEntries fn path entries a1
  | _, _ => (a1, err1)
  end.
Proof.
  cbn [walk]. cbv zeta. destruct (fn path _ _ a) as [a1 err1].
  destruct listable, err1; try reflexivity.
  revert a1. induction entries as [|entry entries IH]; intros a1; [reflexivity|].
  cbn [walkEntries]. cbv zeta. destruct (walk fn _ entry a1) as [a' err].
  destruct err as [[|e]|], entry; by rewrite ?IH.
Qed.

Lemma withDocuments_same (a : App.t) : App.withDocuments a (App.Documents a ++ []) = a.
Proof. rewrite app_nil_r. by destruct a. Qed.

Lemma withDocuments_twice (a : App.t) (new1 new2 : list Document.t) :
  App.withDocuments (App.withDocuments a (App.Documents a ++ new1))
    (App.Documents (App.withDocuments a (App.Documents a ++ new1)) ++ new2)
  = App.withDocuments a (App.Documents a ++ (new1 ++ new2)).
Proof. simpl. by rewrite app_assoc. Qed.

Lemma descends_last (path : string) (info : FileTree) (chain : list string) (file : string) :
  descends path info chain file -> In file chain.
Proof. induction 1; [by left|by right]. Qed.

(** What the walk function of scanDirectory does on one entry. *)
Lemma scanEntry_adds (os : OS.t) (rootDir sourceName : string)
    (fileRegex : option regexp.Regexp) (path : string) (info : FileTree)
    (err : option error) (a a' : App.t) (res : option walkErr) :
  scanEntry os rootDir sourceName fileRegex path info err a = (a', res) ->
  a' = a \/
  exists doc,
    a' = App.withDocuments a (App.Documents a ++ [doc]) /\
    Document.Path doc = path /\
    IsDir info = false /\ err = None /\ res = None /\
    shouldIgnorePath a path = false.
Proof.
  unfold scanEntry. destruct err as [e|]; [by intros [= <- _]; left|].
  destruct (shouldIgnorePath a path) eqn:Hig.
  { destruct (IsDir info); intros [= <- _]; by left. }
  destruct (IsDir info) eqn:Hdir; [by intros [= <- _]; left|]. cbn [negb].
  destruct fileRegex as [regex|]; [|by intros [= <- _]; left].
  destruct (regexp.MatchString regex (fileName info)); [|by intros [= <- _]; left].
  intros [= <- <-].
  destruct (OS.ReadFile os path) as [content| |] eqn:Hr.
  - destruct (processFile_appends os a path rootDir sourceName content Hr)
      as (doc & -> & Hpath & _).
    right. by exists doc.
  - left. rewrite processFile_unreadable; [done|]. intros c. by rewrite Hr.
  - left. rewrite processFile_unreadable; [done|]. intros c. by rewrite Hr.
Qed.

Lemma scanEntry_directory (os : OS.t) (rootDir sourceName : string)
    (fileRegex : option regexp.Regexp) (path name : string) (listable : bool)
    (entries : list FileTree) (a : App.t) :
  scanEntry os rootDir sourceName fileRegex path (FDir name listable entries) None a =
  (a, if shouldIgnorePath a path then Some SkipDir else None).
Proof. unfold scanEntry. by destruct (shouldIgnorePath a path). Qed.

Lemma walkEntries_scan (fn : WalkFunc) (path : string) (entries : list FileTree) :
  Forall (fun info =>
            forall path a a' err,
              walk fn path info a = (a', err) ->
              exists new,
                a' = App.withDocuments a (App.Documents a ++ new) /\
                foundUnder (App.IgnoreRegexes a) path info new) entries ->
  forall a a' err,
    walkEntries fn path entries a = (a', err) ->
    exists new,
      a' = App.withDocuments a (App.Documents a ++ new) /\
      Forall (fun doc =>
                exists entry chain,
                  In entry entries /\
                  descends (filepath.Join [path; fileName entry]) entry chain
                           (Document.Path doc) /\
                  Forall (fun p => matchAny (App.IgnoreRegexes a) p = false) chain) new.
Proof.
  induction 1 as [|entry entries Hentry _ IH]; intros a a' err; cbn [walkEntries].
  { intros [= <- _]. exists []. by rewrite withDocuments_same. }
  cbv zeta. destruct (walk fn _ entry a) as [a1 err1] eqn:Hw.
  destruct (Hentry _ _ _ _ Hw) as (new1 & -> & Hnew1).
  assert (Forall (fun doc =>
            exists entry0 chain,
              In entry0 (entry :: entries) /\
              descends (filepath.Join [path; fileName entry0]) entry0 chain
                       (Document.Path doc) /\
              Forall (fun p => matchAny (App.IgnoreRegexes a) p = false) chain) new1)
    as Hfirst.
  { eapply Forall_impl; [exact Hnew1|]. intros doc (chain & Hd & Hc).
    exists entry, chain. split; [by left|done]. }
  assert (forall a' err,
            walkEntries fn path entries
              (App.withDocuments a (App.Documents a ++ new1)) = (a', err) ->
            exists new,
              a' = App.withDocuments a (App.Documents a ++ new) /\
              Forall (fun doc =>
                exists entry0 chain,
                  In entry0 (entry :: entries) /\
                  descends (filepath.Join [path; fileName entry0]) entry0 chain
                           (Document.Path doc) /\
                  Forall (fun p => matchAny (App.IgnoreRegexes a) p = false) chain) new)
    as Hrest.
  { intros a2 err2 Hw2. destruct (IH _ _ _ Hw2) as (new2 & -> & Hnew2).
    exists (new1 ++ new2). split; [apply withDocuments_twice|].
    apply Forall_app. split; [done|].
    eapply Forall_impl; [exact Hnew2|]. intros doc (entry0 & chain & Hin & Hd & Hc).
    exists entry0, chain. split; [by right|done]. }
  destruct err1 as [[|e]|].
  - destruct entry; first [by apply Hrest | intros [= <- _]; by exists new1].
  - intros [= <- _]. by exists new1.
  - apply Hrest.
Qed.

(** The documents a walk adds were found below its starting point. *)
Lemma walk_scan (os : OS.t) (rootDir sourceName : string)
    (fileRegex : option regexp.Regexp) (info : FileTree) :
  forall path a a' err,
    walk (scanEntry os rootDir sourceName fileRegex) path info a = (a', err) ->
    exists new,
      a' = App.withDocuments a (App.Documents a ++ new) /\
      foundUnder (App.IgnoreRegexes a) path info new.
Proof.
  induction info as [name|name|name listable entries IH] using FileTree_ind';
    intros path a a' err.
  - cbn [walk]. intros Hs.
    destruct (scanEntry_adds _ _ _ _ _ _ _ _ _ _ Hs)
      as [->|(doc & -> & Hpath & _ & _ & _ & Hig)].
    + exists []. split; [by rewrite withDocuments_same|constructor].
    + exists [doc]. split; [done|]. constructor; [|constructor].
      exists [path]. rewrite Hpath. split; [constructor|].
      constructor; [exact Hig|constructor].
  - cbn [walk]. intros [= <- _].
    exists []. split; [by rewrite withDocuments_same|constructor].
  - rewrite walk_FDir. cbv zeta.
    destruct listable.
    + rewrite scanEntry_directory.
      destruct (shouldIgnorePath a path) eqn:Hig.
      { intros [= <- _]. exists []. split; [by rewrite withDocuments_same|constructor]. }
      intros Hw. destruct (walkEntries_scan _ _ _ IH _ _ _ Hw) as (new & -> & Hnew).
      exists new. split; [done|].
      eapply Forall_impl; [exact Hnew|]. intros doc (entry & chain & Hin & Hd & Hc).
      exists (path :: chain). split; [by eapply descends_dir|].
      constructor; [exact Hig|done].
    + cbn. intros [= <- _].
      exists []. split; [by rewrite withDocuments_same|constructor].
Qed.

(** C1: the Documents a scan adds all come from files of the tree under the
    root that neither match an ignore pattern themselves nor lie below a
    directory that matches one.  A directory that matches is pruned: the
    walk returns SkipDir for it whatever it contains; a file that matches
    produces no Document. *)
Theorem scan_excludes_ignored (os : OS.t) (a a' : App.t) (rootDir sourceName : string)
    (fileRegex : option regexp.Regexp) (err : option error) :
  scanDirectory os a rootDir sourceName fileRegex = (a', err) ->
  (exists new,
     a' = App.withDocuments a (App.Documents a ++ new) /\
     forall doc, In doc new ->
       shouldIgnorePath a (Document.Path doc) = false /\
       exists info chain,
         OS.Lstat os rootDir = Some info /\
         descends rootDir info chain (Document.Path doc) /\
         forall p, In p chain -> shouldIgnorePath a p = false) /\
  (forall b path name entries,
     shouldIgnorePath b path = true ->
     walk (scanEntry os rootDir sourceName fileRegex) path (FDir name true entries) b
       = (b, Some SkipDir)) /\
  (forall b path name,
     shouldIgnorePath b path = true ->
     walk (scanEntry os rootDir sourceName fileRegex) path (FFile name) b = (b, None)).
Proof.
  intros Hscan. split; [|split].
  - unfold scanDirectory, Walk in Hscan.
    destruct (OS.Lstat os rootDir) as [info|] eqn:Hstat.
    + destruct (walk _ rootDir info a) as [a1 err1] eqn:Hw.
      destruct (walk_scan _ _ _ _ _ _ _ _ _ Hw) as (new & -> & Hnew).
      exists new. split; [by destruct err1 as [[|e]|]; injection Hscan as <- _|].
      intros doc Hin. unfold foundUnder in Hnew. rewrite Forall_forall in Hnew.
      destruct (Hnew doc) as (chain & Hd & Hc); [by apply list_elem_of_In|].
      rewrite Forall_forall in Hc. split.
      * apply Hc, list_elem_of_In. by eapply descends_last.
      * exists info, chain. split; [done|]. split; [done|].
        intros p Hp. by apply Hc, list_elem_of_In.
    + cbn in Hscan. injection Hscan as <- _.
      exists []. split; [by rewrite withDocuments_same|]. by intros doc [].
  - intros b path name entries Hig. rewrite walk_FDir. cbv zeta.
    by rewrite scanEntry_directory, Hig.
  - intros b path name Hig. cbn [walk]. unfold scanEntry. by rewrite Hig.
Qed.

Lemma scan_excludes_ignored_witness :
  let fileRegex := regexp.Compile "\.md$" in
  let scan := scanDirectory exampleOS exampleApp "/w/foo" "Docs" fileRegex in
  (exists new,
     scan.1 = App.withDocuments exampleApp (App.Documents exampleApp ++ new) /\
     forall doc, In doc new ->
       shouldIgnorePath exampleApp (Document.Path doc) = false /\
       exists info chain,
         OS.Lstat exampleOS "/w/foo" = Some info /\
         descends "/w/foo" info chain (Document.Path doc) /\
         forall p, In p chain -> shouldIgnorePath exampleApp p = false) /\
  (forall b path name entries,
     shouldIgnorePath b path = true ->
     walk (scanEntry exampleOS "/w/foo" "Docs" fileRegex) path (FDir name true entries) b
       = (b, Some SkipDir)) /\
  (forall b path name,
     shouldIgnorePath b path = true ->
     walk (scanEntry exampleOS "/w/foo" "Docs" fileRegex) path (FFile name) b = (b, None)).
Proof.
  apply (scan_excludes_ignored exampleOS exampleApp _ "/w/foo" "Docs" _
           (scanDirectory exampleOS exampleApp "/w/foo" "Docs" (regexp.Compile "\.md$")).2).
  vm_compute. reflexivity.
Defined.

(** The scan of the example tree: /w/foo/.git matches the ignore pattern
    and the README.md below it is not indexed. *)
Example scan_example :
  let scan := scanDirectory exampleOS exampleApp "/w/foo" "Docs" (regexp.Compile "\.md$") in
  map Document.Path (App.Documents scan.1) = ["/w/foo/README.md"; "/w/foo/guide/faq.md"] /\
  scan.2 = None /\
  shouldIgnorePath exampleApp "/w/foo/.git" = true.
Proof. vm_compute. repeat split. Qed.

Lemma scanDirectory_IgnoreRegexes (os : OS.t) (a a' : App.t) (rootDir sourceName : string)
    (fileRegex : option regexp.Regexp) (err : option error) :
  scanDirectory os a rootDir sourceName fileRegex = (a', err) ->
  exists new,
    a' = App.withDocuments a (App.Documents a ++ new) /\
    Forall (fun doc => shouldIgnorePath a (Document.Path doc) = false) new.
Proof.
  unfold scanDirectory, Walk.
  destruct (OS.Lstat os rootDir) as [info|].
  - destruct (walk _ rootDir info a) as [a1 err1] eqn:Hw.
    destruct (walk_scan _ _ _ _ _ _ _ _ _ Hw) as (new & -> & Hnew).
    intros Hs. exists new. split; [by destruct err1 as [[|e]|]; injection Hs as <- _|].
    eapply Forall_impl; [exact Hnew|]. intros doc (chain & Hd & Hc).
    rewrite Forall_forall in Hc. apply Hc, list_elem_of_In. by eapply descends_last.
  - cbn. intros [= <- _]. exists []. split; [by rewrite withDocuments_same|constructor].
Qed.

(** Scanning all the configured directories from an empty index leaves no
    document with an ignored path in it. *)
Lemma scanEach_not_ignored (os : OS.t) (dirs : list DirectoryConfig.t) (a a' : App.t)
    (err : option error) :
  scanEach os dirs a = (a', err) ->
  exists new,
    a' = App.withDocuments a (App.Documents a ++ new) /\
    Forall (fun doc => shouldIgnorePath a (Document.Path doc) = false) new.
Proof.
  revert a. induction dirs as [|dirConfig dirs IH]; intros a; cbn [scanEach].
  { intros [= <- _]. exists []. split; [by rewrite withDocuments_same|constructor]. }
  cbv zeta. destruct (scanDirectory os a _ _ _) as [a1 err1] eqn:Hs.
  destruct (scanDirectory_IgnoreRegexes _ _ _ _ _ _ _ Hs) as (new1 & -> & Hnew1).
  destruct err1 as [e|]; [intros [= <- _]; by exists new1|].
  intros Hrest. destruct (IH _ Hrest) as (new2 & -> & Hnew2).
  exists (new1 ++ new2). split; [apply withDocuments_twice|].
  apply Forall_app. by split.
Qed.

Lemma ScanDirectories_not_ignored (os : OS.t) (a a' : App.t) (err : option error) :
  App.Documents a = [] ->
  ScanDirectories os a = (a', err) ->
  Forall (fun doc => shouldIgnorePath a' (Document.Path doc) = false) (App.Documents a').
Proof.
  unfold ScanDirectories. intros Hempty Hs.
  destruct (scanEach_not_ignored _ _ _ _ _ Hs) as (new & -> & Hnew).
  simpl. by rewrite Hempty.
Qed.

(** ** Trees *)

Lemma groupBySourceName_foldl (docs : list Document.t) (name : string)
    (groupMap : gmap string (list Document.t)) :
  foldl (fun groupMap doc =>
           let name := Document.SourceName doc in
           <[name := default [] (groupMap !! name) ++ [doc]]> groupMap)
        groupMap docs !! name =
  match List.filter (fun doc => String.eqb (Document.SourceName doc) name) docs with
  | [] => groupMap !! name
  | group => Some (default [] (groupMap !! name) ++ group)
  end.
Proof.
  revert groupMap. induction docs as [|doc docs IH]; intros groupMap; [done|].
  cbn [foldl List.filter]. rewrite IH.
  destruct (String.eqb_spec (Document.SourceName doc) name) as [->|Hne].
  - rewrite lookup_insert_eq. cbn [default].
    destruct (List.filter _ docs) as [|d group]; [done|].
    unfold id. by rewrite <- app_assoc.
  - by rewrite lookup_insert_ne.
Qed.

(** The group of a source name holds its documents in index order. *)
Lemma groupBySourceName_lookup (docs group : list Document.t) (name : string) :
  groupBySourceName docs !! name = Some group ->
  group = List.filter (fun doc => String.eqb (Document.SourceName doc) name) docs.
Proof.
  unfold groupBySourceName. rewrite groupBySourceName_foldl, lookup_empty.
  destruct (List.filter _ docs); [done|]. by intros [= <-].
Qed.

Lemma buildTree_Name (sourceName : string) (docs : list Document.t) :
  DirectoryTree.Name (buildTree sourceName docs) = sourceName.
Proof. reflexivity. Qed.

Lemma buildTreesIn_In (visited : list (string * list Document.t)) (tree : DirectoryTree.t) :
  In tree (buildTreesIn visited) ->
  exists docs, In (DirectoryTree.Name tree, docs) visited /\
               tree = buildTree (DirectoryTree.Name tree) docs.
Proof.
  unfold buildTreesIn. rewrite in_map_iff. intros ([name docs] & <- & Hin).
  by exists docs.
Qed.

Lemma addParts_Name (parts : list string) (doc : Document.t) (currentPath : string)
    (current : TreeNode.t) :
  TreeNode.Name (addParts parts doc currentPath current) = TreeNode.Name current.
Proof. by destruct parts. Qed.

(** First-seen order of siblings: the children of a node keep their places;
    a name that is not among them yet is added behind them. *)
Lemma updateChild_names (part : string) (descend : TreeNode.t -> TreeNode.t)
    (newNode : TreeNode.t) (children : list TreeNode.t) :
  (forall node, TreeNode.Name (descend node) = TreeNode.Name node) ->
  TreeNode.Name newNode = part ->
  map TreeNode.Name (updateChild part descend newNode children) =
  if existsb (fun child => String.eqb (TreeNode.Name child) part) children
  then map TreeNode.Name children
  else map TreeNode.Name children ++ [part].
Proof.
  intros Hdescend Hnew. induction children as [|child children IH]; simpl.
  - by rewrite Hdescend, Hnew.
  - destruct (String.eqb (TreeNode.Name child) part); simpl.
    + by rewrite Hdescend.
    + rewrite IH. by destruct (existsb _ children).
Qed.

Lemma addParts_children (part : string) (parts : list string) (doc : Document.t)
    (currentPath : string) (current : TreeNode.t) :
  map TreeNode.Name (TreeNode.Children (addParts (part :: parts) doc currentPath current)) =
  if existsb (fun child => String.eqb (TreeNode.Name child) part) (TreeNode.Children current)
  then map TreeNode.Name (TreeNode.Children current)
  else map TreeNode.Name (TreeNode.Children current) ++ [part].
Proof.
  cbn [addParts]. destruct current as [name path isFile document children isOpen].
  cbn [TreeNode.withChildren TreeNode.Children].
  apply updateChild_names; [|reflexivity]. intros node. apply addParts_Name.
Qed.

Example buildTrees_example :
  map (fun tree =>
         (DirectoryTree.Name tree,
          map (fun node => (TreeNode.Name node, map TreeNode.Name (TreeNode.Children node)))
              (TreeNode.Children (DirectoryTree.Root tree))))
      (buildTreesIn (map_to_list (groupBySourceName exampleDocs)))
  = [ ("Notes", [("todo.md", [])]);
      ("Docs", [("guide", ["setup.md"; "faq.md"]); ("README.md", [])]) ].
Proof. vm_compute. reflexivity. Qed.

(** The order of the trees is that of the visit: it is not fixed. *)
Example buildTrees_order_varies :
  let groups := map_to_list (groupBySourceName exampleDocs) in
  map DirectoryTree.Name (buildTreesIn groups) = ["Notes"; "Docs"] /\
  map DirectoryTree.Name (buildTreesIn (reverse groups)) = ["Docs"; "Notes"].
Proof. vm_compute. split; reflexivity. Qed.

(** C8: two runs of BuildDirectoryTrees on the same Document list give the
    same trees, whatever the order in which each run visits the groups:
    the results are permutations of each other, hold one tree per source
    name, and each tree is the one built from the documents of its source
    name in index order (same names, same child order, same documents). *)
Theorem buildTrees_deterministic (a : App.t) (trees1 trees2 : list DirectoryTree.t) :
  BuildDirectoryTrees a trees1 ->
  BuildDirectoryTrees a trees2 ->
  trees1 ≡ₚ trees2 /\
  (forall tree, In tree trees1 <-> In tree trees2) /\
  NoDup (map DirectoryTree.Name trees1) /\
  (forall tree, In tree trees1 ->
     tree = buildTree (DirectoryTree.Name tree)
              (List.filter
                 (fun doc => String.eqb (Document.SourceName doc) (DirectoryTree.Name tree))
                 (App.Documents a))).
Proof.
  intros (visited1 & Hv1 & ->) (visited2 & Hv2 & ->). unfold rangeOver in *.
  assert (visited1 ≡ₚ visited2) as Hperm by (by rewrite Hv1, Hv2).
  assert (buildTreesIn visited1 ≡ₚ buildTreesIn visited2) as Htrees.
  { unfold buildTreesIn. by apply fmap_Permutation. }
  split; [done|]. split; [|split].
  - intros tree. rewrite <- !list_elem_of_In. by rewrite Htrees.
  - assert (map DirectoryTree.Name (buildTreesIn visited1) = visited1.*1) as ->.
    { unfold buildTreesIn. rewrite map_map. apply map_ext. by intros [name docs]. }
    rewrite Hv1. apply NoDup_fst_map_to_list.
  - intros tree (docs & Hin & Htree)%buildTreesIn_In.
    rewrite Htree at 1. f_equal.
    apply groupBySourceName_lookup, elem_of_map_to_list.
    rewrite <- Hv1. by apply list_elem_of_In.
Qed.

Lemma buildTrees_deterministic_witness :
  let groups := map_to_list (groupBySourceName (App.Documents exampleIndex)) in
  let trees1 := buildTreesIn groups in
  let trees2 := buildTreesIn (reverse groups) in
  trees1 ≡ₚ trees2 /\
  (forall tree, In tree trees1 <-> In tree trees2) /\
  NoDup (map DirectoryTree.Name trees1) /\
  (forall tree, In tree trees1 ->
     tree = buildTree (DirectoryTree.Name tree)
              (List.filter
                 (fun doc => String.eqb (Document.SourceName doc) (DirectoryTree.Name tree))
                 (App.Documents exampleIndex))).
Proof.
  apply (buildTrees_deterministic exampleIndex).
  - exists (map_to_list (groupBySourceName (App.Documents exampleIndex))).
    split; [unfold rangeOver|]; reflexivity.
  - exists (reverse (map_to_list (groupBySourceName (App.Documents exampleIndex)))).
    split; [apply reverse_Permutation|reflexivity].
Defined.

(** ** The stand-in codec

    The reader of [plainjson] reads back every cache its writer writes: the
    hypothesis of the round trip holds for it at every document list. *)

Lemma dropBytes_app (p rest : string) : dropBytes (String.length p) (p +:+ rest) = rest.
Proof. induction p as [|c p IH]; [by destruct rest|]. by rewrite app_String. Qed.

Lemma expect_app (lit rest : string) : plainjson.expect lit (lit +:+ rest) = Some rest.
Proof. unfold plainjson.expect. by rewrite HasPrefix_app, dropBytes_app. Qed.

Lemma expect_char (c : ascii) (rest : string) :
  plainjson.expect (String c "") (String c rest) = Some rest.
Proof. apply (expect_app (String c "") rest). Qed.

Lemma expect_other (c c' : ascii) (rest : string) :
  c <> c' -> plainjson.expect (String c "") (String c' rest) = None.
Proof.
  intros Hne. unfold plainjson.expect. simpl.
  by rewrite (proj2 (Ascii.eqb_neq c' c)).
Qed.

Lemma readQuoted_escape (s rest : string) :
  plainjson.readQuoted (plainjson.escape s +:+ String plainjson.quoteChar rest)
  = Some (s, rest).
Proof.
  induction s as [|c s IH]; [reflexivity|]. cbn [plainjson.escape].
  destruct (Ascii.eqb c plainjson.quoteChar || Ascii.eqb c plainjson.backslash) eqn:Hc.
  - rewrite !app_String. cbn [plainjson.readQuoted].
    replace (Ascii.eqb plainjson.backslash plainjson.quoteChar) with false by reflexivity.
    rewrite Ascii.eqb_refl. by rewrite IH.
  - apply orb_false_iff in Hc as [Hq Hb].
    rewrite app_String. cbn [plainjson.readQuoted]. by rewrite Hq, Hb, IH.
Qed.

Lemma readField_field (key value rest : string) :
  plainjson.readField key (plainjson.field key value +:+ rest) = Some (value, rest).
Proof.
  unfold plainjson.readField, plainjson.field.
  replace ((plainjson.quote key +:+ ":" +:+ plainjson.quote value) +:+ rest)
    with ((plainjson.quote key +:+ ":" +:+ String plainjson.quoteChar "")
          +:+ (plainjson.escape value +:+ String plainjson.quoteChar rest)).
  { rewrite expect_app. simpl. apply readQuoted_escape. }
  unfold plainjson.quote at 3. by rewrite !app_assoc_s, !app_String, !app_assoc_s.
Qed.

Lemma readDocument_write (d : CachedDocument.t) (rest : string) :
  plainjson.readDocument (plainjson.writeDocument d +:+ rest) = Some (d, rest).
Proof.
  unfold plainjson.readDocument, plainjson.writeDocument.
  rewrite !Join_cons. cbn [strings.Join].
  rewrite !app_assoc_s, expect_app. cbn [mbind option_bind].
  repeat (rewrite readField_field; cbn [mbind option_bind];
          rewrite ?expect_app; cbn [mbind option_bind]).
  by destruct d.
Qed.

Lemma writeDocument_starts (d : CachedDocument.t) (rest : string) :
  exists tail, plainjson.writeDocument d +:+ rest = String "{" tail.
Proof. unfold plainjson.writeDocument. rewrite app_assoc_s. by eexists. Qed.

Lemma readDocuments_write (docs : list CachedDocument.t) (fuel : nat) (rest : string) :
  length docs < fuel ->
  plainjson.readList plainjson.readDocument fuel
    (strings.Join (map plainjson.writeDocument docs) "," +:+ String "]" rest)
  = Some (docs, rest).
Proof.
  revert fuel. induction docs as [|d docs IH]; intros fuel Hfuel;
    (destruct fuel as [|fuel]; [simpl in Hfuel; lia|]).
  { cbn [plainjson.readList map strings.Join]. by rewrite app_empty_l, expect_char. }
  cbn [plainjson.readList map].
  assert (forall tail,
            plainjson.expect "]" (plainjson.writeDocument d +:+ tail) = None) as Hopen.
  { intros tail. destruct (writeDocument_starts d tail) as [t ->].
    by apply expect_other. }
  destruct docs as [|d' docs].
  - cbn [strings.Join map]. rewrite Hopen, readDocument_write. cbn [mbind option_bind].
    rewrite expect_other by done. by rewrite expect_char.
  - cbn [map]. rewrite Join_cons, !app_assoc_s, Hopen, readDocument_write.
    cbn [mbind option_bind]. rewrite expect_app.
    change (plainjson.writeDocument d' :: map plainjson.writeDocument docs)
      with (map plainjson.writeDocument (d' :: docs)).
    rewrite IH by (simpl in *; lia). reflexivity.
Qed.

Lemma length_app_s (s t : string) :
  String.length (s +:+ t) = String.length s + String.length t.
Proof. induction s as [|c s IH]; [reflexivity|]. rewrite app_String. simpl. by rewrite IH. Qed.

Lemma length_Join_documents (docs : list CachedDocument.t) :
  length docs <= String.length (strings.Join (map plainjson.writeDocument docs) ",").
Proof.
  induction docs as [|d docs IH]; [simpl; lia|].
  destruct docs as [|d' docs].
  - cbn [map strings.Join length]. destruct (writeDocument_starts d "") as [t Ht].
    rewrite app_empty_r in Ht. rewrite Ht. simpl. lia.
  - cbn [map]. rewrite Join_cons, !length_app_s.
    change (plainjson.writeDocument d' :: map plainjson.writeDocument docs)
      with (map plainjson.writeDocument (d' :: docs)).
    simpl in *. lia.
Qed.

Lemma plainjson_round_trip (cache : CacheData.t) :
  plainjson.readCache (plainjson.writeCache cache) = Some cache.
Proof.
  unfold plainjson.readCache.
  assert (length (CacheData.Documents cache)
          < String.length (plainjson.writeCache cache)) as Hfuel.
  { unfold plainjson.writeCache. rewrite !length_app_s.
    pose proof (length_Join_documents (CacheData.Documents cache)). simpl. lia. }
  revert Hfuel. generalize (String.length (plainjson.writeCache cache)). intros fuel Hfuel.
  unfold plainjson.writeCache.
  replace ("{" +:+ plainjson.quote "documents" +:+ ":[" +:+
           strings.Join (map plainjson.writeDocument (CacheData.Documents cache)) "," +:+
           "]," +:+ plainjson.field "version" (CacheData.Version cache) +:+ "}")
    with (("{" +:+ plainjson.quote "documents" +:+ ":[") +:+
          (strings.Join (map plainjson.writeDocument (CacheData.Documents cache)) "," +:+
           String "]" ("," +:+ plainjson.field "version" (CacheData.Version cache) +:+ "}")))
    by (by rewrite !app_assoc_s).
  rewrite expect_app. cbn [mbind option_bind].
  rewrite readDocuments_write by done. cbn [mbind option_bind].
  rewrite expect_app. cbn [mbind option_bind].
  rewrite readField_field. cbn [mbind option_bind].
  rewrite expect_char. cbn [mbind option_bind]. by destruct cache.
Qed.


(** * Further properties *)

(** ** Trees: paths that are there and paths that are added *)

Lemma updateChild_found (part : string) (descend : TreeNode.t -> TreeNode.t)
    (newNode child : TreeNode.t) (children : list TreeNode.t) :
  findChild part children = Some child ->
  descend child = child ->
  updateChild part descend newNode children = children.
Proof.
  intros Hfind Hsame. induction children as [|c children IH]; [done|].
  simpl in *. destruct (String.eqb (TreeNode.Name c) part).
  - injection Hfind as ->. by rewrite Hsame.
  - by rewrite IH.
Qed.

Lemma withChildren_same (node : TreeNode.t) :
  TreeNode.withChildren node (TreeNode.Children node) = node.
Proof. by destruct node. Qed.

Lemma addParts_present (parts : list string) (doc : Document.t) :
  forall currentPath node,
    is_Some (findPath parts node) ->
    addParts parts doc currentPath node = node.
Proof.
  induction parts as [|part parts IH]; intros currentPath node Hfound; [done|].
  cbn [findPath] in Hfound. cbn [addParts].
  destruct (findChild part (TreeNode.Children node)) as [child|] eqn:Hchild;
    [|by destruct Hfound].
  erewrite updateChild_found; [apply withChildren_same|exact Hchild|].
  by apply IH.
Qed.

Lemma findChild_updateChild (part : string) (descend : TreeNode.t -> TreeNode.t)
    (newNode : TreeNode.t) (children : list TreeNode.t) :
  (forall node, TreeNode.Name (descend node) = TreeNode.Name node) ->
  TreeNode.Name newNode = part ->
  findChild part (updateChild part descend newNode children) =
  Some (descend (default newNode (findChild part children))).
Proof.
  intros Hname Hnew. induction children as [|c children IH]; simpl.
  - by rewrite Hname, Hnew, String.eqb_refl.
  - destruct (String.eqb (TreeNode.Name c) part) eqn:Hc; simpl.
    + by rewrite Hname, Hc.
    + by rewrite Hc, IH.
Qed.

Lemma findPath_added (doc : Document.t) (parts : list string) :
  forall currentPath node,
    parts <> [] ->
    match findPath parts node with
    | Some present => findPath parts (addParts parts doc currentPath node) = Some present
    | None =>
      exists added,
        findPath parts (addParts parts doc currentPath node) = Some added /\
        TreeNode.Name added = List.last parts "" /\
        TreeNode.IsFile added = true /\
        TreeNode.Document added = Some doc /\
        TreeNode.Children added = []
    end.
Proof.
  induction parts as [|part parts IH]; intros currentPath node Hne; [done|].
  cbn [findPath addParts].
  set (path' := if String.eqb currentPath "" then part else _).
  destruct node as [name path isFile document children isOpen].
  cbn [TreeNode.withChildren TreeNode.Children].
  rewrite findChild_updateChild; [|intros n; apply addParts_Name|reflexivity].
  destruct parts as [|part' parts].
  - cbn [addParts findPath].
    destruct (findChild part children) as [child|]; [done|].
    eexists. split; [reflexivity|]. by repeat split.
  - specialize (IH path').
    destruct (findChild part children) as [child|]; cbn [default].
    + by apply IH.
    + set (newNode := TreeNode.mk part path' false None [] false).
      specialize (IH newNode ltac:(done)).
      change (findPath (part' :: parts) newNode) with (@None TreeNode.t) in IH.
      destruct IH as (added & Hfind & Hname & Hfile & Hdoc & Hkids).
      exists added. by repeat split.
Qed.

(** X1: adding a document whose path is already in the tree changes
    nothing: the node that is there stays, the document is not attached. *)
Theorem addDocumentToTree_present (root : TreeNode.t) (doc : Document.t) (sourceDir : string) :
  let relPath := default (Document.Path doc) (filepath.Rel sourceDir (Document.Path doc)) in
  is_Some (findPath (strings.Split (filepath.ToSlash relPath) "/") root) ->
  addDocumentToTree root doc sourceDir = root.
Proof.
  intros relPath Hfound. unfold addDocumentToTree.
  replace (match filepath.Rel sourceDir (Document.Path doc) with
           | Some r => r
           | None => Document.Path doc
           end) with relPath by (subst relPath; by destruct (filepath.Rel _ _)).
  by apply addParts_present.
Qed.

(** X2: after a document is added, the node at its relative path exists.  It
    is the node that was there before, if there was one; otherwise it is a
    new file node without children that carries the document. *)
Theorem addDocumentToTree_findPath (root : TreeNode.t) (doc : Document.t) (sourceDir : string) :
  let relPath := default (Document.Path doc) (filepath.Rel sourceDir (Document.Path doc)) in
  let parts := strings.Split (filepath.ToSlash relPath) "/" in
  match findPath parts root with
  | Some present => findPath parts (addDocumentToTree root doc sourceDir) = Some present
  | None =>
    exists added,
      findPath parts (addDocumentToTree root doc sourceDir) = Some added /\
      TreeNode.Name added = List.last parts "" /\
      TreeNode.IsFile added = true /\
      TreeNode.Document added = Some doc /\
      TreeNode.Children added = []
  end.
Proof.
  intros relPath parts. unfold addDocumentToTree.
  replace (match filepath.Rel sourceDir (Document.Path doc) with
           | Some r => r
           | None => Document.Path doc
           end) with relPath by (subst relPath; by destruct (filepath.Rel _ _)).
  apply findPath_added. subst parts.
  destruct (Split_cons (filepath.ToSlash relPath) "/") as (p & ps & ->). done.
Qed.

Lemma addDocumentToTree_present_witness :
  addDocumentToTree exampleRoot exampleFaq "/w/foo" = exampleRoot.
Proof.
  apply (addDocumentToTree_present exampleRoot exampleFaq "/w/foo").
  destruct (findPath _ exampleRoot) as [node|] eqn:Hfind; [by eexists|].
  vm_compute in Hfind. discriminate.
Defined.

(** ** Front matter: nothing is made up *)

Lemma Join_drop_suffix (lines : list string) (sep : string) (n : nat) :
  exists front, strings.Join lines sep = front +:+ strings.Join (drop n lines) sep.
Proof.
  revert lines. induction n as [|n IH]; intros lines; [by exists ""|].
  destruct lines as [|line lines]; [by exists ""|]. cbn [drop].
  destruct (IH lines) as [front Hfront].
  destruct lines as [|line' lines].
  - exists line. rewrite drop_nil. simpl. by rewrite app_empty_r.
  - rewrite Join_cons, Hfront. exists (line +:+ sep +:+ front).
    by rewrite !app_assoc_s.
Qed.

(** X3: what stripFrontmatter returns is the end of the content it was
    given: it removes text from the front and changes nothing else. *)
Theorem stripFrontmatter_suffix (content : string) :
  exists front, content = front +:+ stripFrontmatter content.
Proof.
  rewrite stripFrontmatter_find.
  destruct (negb (beginsWithDelimiterLine content)); [by exists ""|].
  destruct (length (strings.Split content LF) <? 3); [by exists ""|].
  unfold afterClosingLine.
  destruct (list_find _ _) as [[i line]|]; [|by exists ""].
  rewrite drop_drop.
  destruct (Join_drop_suffix (strings.Split content LF) nl (1 + S i)) as [front Hfront].
  exists front. rewrite <- Hfront. symmetry. apply Join_Split.
Qed.

(** ** Ports *)

Lemma wrapInt_small (z : Z) :
  (- 2 ^ 63 <= z < 2 ^ 63)%Z -> wrapInt z = z.
Proof. intros Hz. unfold wrapInt. rewrite Z.mod_small; lia. Qed.

Lemma probePorts_first (listen : Z -> bool) (rounds : nat) :
  forall port limit,
    (- 2 ^ 63 <= port)%Z -> (limit < 2 ^ 63)%Z ->
    (limit <= port + Z.of_nat rounds)%Z ->
    match probePorts listen rounds port limit with
    | Some found =>
      (port <= found < limit)%Z /\ listen found = true /\
      forall q, (port <= q < found)%Z -> listen q = false
    | None => forall q, (port <= q < limit)%Z -> listen q = false
    end.
Proof.
  induction rounds as [|rounds IH]; intros port limit Hlo Hhi Hrounds.
  { simpl. intros q Hq. lia. }
  cbn [probePorts]. destruct (Z.ltb_spec port limit) as [Hlt|Hge];
    [|intros q Hq; lia].
  destruct (listen port) eqn:Hport.
  { split; [lia|]. split; [done|]. intros q Hq. lia. }
  rewrite wrapInt_small by lia.
  specialize (IH (port + 1)%Z limit ltac:(lia) Hhi ltac:(lia)).
  destruct (probePorts listen rounds (port + 1) limit) as [found|].
  - destruct IH as (Hrange & Hfound & Hbefore). split; [lia|]. split; [done|].
    intros q Hq. destruct (Z.eq_dec q port) as [->|Hne]; [done|]. apply Hbefore. lia.
  - intros q Hq. destruct (Z.eq_dec q port) as [->|Hne]; [done|]. apply IH. lia.
Qed.

(** X4: findAvailablePort returns the lowest port of the hundred from
    startPort on that can be listened on, and fails only when none of them
    can.  A startPort within a hundred of the largest int makes the bound
    of the loop wrap around: then no port is tried at all. *)
Theorem findAvailablePort_lowest (listen : Z -> bool) (startPort : Z) :
  (- 2 ^ 63 <= startPort < 2 ^ 63)%Z ->
  if (startPort + 100 <? 2 ^ 63)%Z then
    match findAvailablePort listen startPort with
    | Some port =>
      (startPort <= port < startPort + 100)%Z /\ listen port = true /\
      forall q, (startPort <= q < port)%Z -> listen q = false
    | None => forall q, (startPort <= q < startPort + 100)%Z -> listen q = false
    end
  else findAvailablePort listen startPort = None.
Proof.
  intros Hstart. unfold findAvailablePort.
  destruct (Z.ltb_spec (startPort + 100) (2 ^ 63)) as [Hfits|Hwraps].
  - rewrite wrapInt_small by lia. apply probePorts_first; lia.
  - assert (wrapInt (startPort + 100) = startPort + 100 - 2 ^ 64)%Z as ->.
    { unfold wrapInt.
      replace (startPort + 100 + 2 ^ 63)%Z
        with ((startPort + 100 - 2 ^ 63) + 1 * 2 ^ 64)%Z by lia.
      rewrite Z.mod_add by lia. rewrite Z.mod_small; lia. }
    cbn [probePorts].
    destruct (Z.ltb_spec startPort (startPort + 100 - 2 ^ 64)) as [Hlt|Hge]; [lia|done].
Qed.

Lemma findAvailablePort_lowest_witness :
  match findAvailablePort exampleListen 8090 with
  | Some port =>
    (8090 <= port < 8090 + 100)%Z /\ exampleListen port = true /\
    forall q, (8090 <= q < port)%Z -> exampleListen q = false
  | None => forall q, (8090 <= q < 8090 + 100)%Z -> exampleListen q = false
  end.
Proof.
  apply (findAvailablePort_lowest exampleListen 8090). lia.
Defined.

Example findAvailablePort_ex :
  findAvailablePort exampleListen 8090 = Some 8092%Z /\
  findAvailablePort exampleListen 7000 = None /\
  findAvailablePort (fun _ => true) (2 ^ 63 - 50) = None.
Proof. vm_compute. repeat split. Qed.

(** ** Document pages *)

Lemma findRelPath_None (docs : list Document.t) (path : string) (i : nat) :
  findRelPath docs path i = None <->
  forall doc, In doc docs -> Document.RelPath doc <> path.
Proof.
  revert i. induction docs as [|d docs IH]; intros i; simpl.
  - split; [by intros _ doc []|done].
  - destruct (String.eqb_spec (Document.RelPath d) path) as [Heq|Hne].
    + split; [done|]. intros Hall. by destruct (Hall d (or_introl eq_refl)).
    + rewrite IH. split.
      * intros Hall doc [<-|Hin]; [done|by apply Hall].
      * intros Hall doc Hin. apply Hall. by right.
Qed.

Lemma findRelPath_Some (docs : list Document.t) (path : string) (i j : nat) :
  findRelPath docs path i = Some j ->
  exists doc, docs !! (j - i) = Some doc /\ i <= j /\ Document.RelPath doc = path.
Proof.
  revert i. induction docs as [|d docs IH]; intros i; simpl; [done|].
  destruct (String.eqb_spec (Document.RelPath d) path) as [Heq|Hne].
  - intros [= <-]. exists d. by rewrite Nat.sub_diag.
  - intros Hfind. destruct (IH _ Hfind) as (doc & Hdoc & Hle & Hpath).
    exists doc. replace (j - i) with (S (j - S i)) by lia. split; [done|]. split; [lia|done].
Qed.

Lemma handleDocument_NotFound `{Renderer} (os : OS.t) (a : App.t) (urlPath : string) :
  (handleDocument os a urlPath).2 = NotFound <->
  forall doc, In doc (App.Documents a) ->
    Document.RelPath doc <> strings.TrimPrefix urlPath "/doc/".
Proof.
  rewrite <- (findRelPath_None _ _ 0). unfold handleDocument.
  destruct (findRelPath _ _ 0) as [i|] eqn:Hfind; [|done].
  destruct (findRelPath_Some _ _ _ _ Hfind) as (doc & Hdoc & _ & _).
  rewrite Nat.sub_0_r in Hdoc. rewrite Hdoc. split; [|done].
  destruct (if String.eqb _ _ then _ else _) as [doc'|]; [|done].
  destruct (templateOK _); [|done]. simpl. by destruct (Convert _).
Qed.

(** X5: the document view answers "not found" exactly when no document of
    the index has the requested relative path, and then leaves the index as
    it is. *)
Theorem handleDocument_not_found `{Renderer} (os : OS.t) (a : App.t) (urlPath : string) :
  ((handleDocument os a urlPath).2 = NotFound <->
   forall doc, In doc (App.Documents a) ->
     Document.RelPath doc <> strings.TrimPrefix urlPath "/doc/") /\
  ((handleDocument os a urlPath).2 = NotFound -> (handleDocument os a urlPath).1 = a).
Proof.
  split; [apply handleDocument_NotFound|].
  unfold handleDocument.
  destruct (findRelPath _ _ 0) as [i|] eqn:Hfind; [|done].
  destruct (App.Documents a !! i) as [doc|]; [|done].
  destruct (if String.eqb _ _ then _ else _) as [doc'|]; [|done].
  destruct (templateOK _); [|done]. simpl. by destruct (Convert _).
Qed.




(** ** Scanning: what is indexed, what is not, and how a scan fails *)

Lemma walk_file_not_SkipDir (os : OS.t) (rootDir sourceName : string)
    (fileRegex : option regexp.Regexp) (path name : string) (a a' : App.t)
    (res : option walkErr) :
  walk (scanEntry os rootDir sourceName fileRegex) path (FFile name) a = (a', res) ->
  res <> Some SkipDir.
Proof.
  cbn [walk]. unfold scanEntry. cbn [IsDir negb fileName].
  destruct (shouldIgnorePath a path); [by intros [= _ <-]|].
  destruct fileRegex as [regex|]; [|by intros [= _ <-]].
  destruct (regexp.MatchString regex name); by intros [= _ <-].
Qed.

Lemma walkEntries_grows (os : OS.t) (rootDir sourceName : string)
    (fileRegex : option regexp.Regexp) (path : string) (entries : list FileTree)
    (a a' : App.t) (res : option walkErr) :
  walkEntries (scanEntry os rootDir sourceName fileRegex) path entries a = (a', res) ->
  exists new, a' = App.withDocuments a (App.Documents a ++ new).
Proof.
  intros Hw.
  destruct (walkEntries_scan (scanEntry os rootDir sourceName fileRegex) path entries)
    with (a := a) (a' := a') (err := res) as (new & Hnew & _); [|done|by exists new].
  apply Forall_forall. intros info _ path0 a0 a0' err0. apply walk_scan.
Qed.

(** A walk over the entries of a directory that does not fail has walked
    every one of them, and what each walk added stays in the index. *)
Lemma walkEntries_visits (os : OS.t) (rootDir sourceName : string)
    (fileRegex : option regexp.Regexp) (path : string) (entries : list FileTree)
    (entry : FileTree) :
  forall a a' res,
    walkEntries (scanEntry os rootDir sourceName fileRegex) path entries a = (a', res) ->
    (forall e, res <> Some (Failed e)) ->
    In entry entries ->
    exists new0 a1 res1 rest,
      walk (scanEntry os rootDir sourceName fileRegex)
           (filepath.Join [path; fileName entry]) entry
           (App.withDocuments a (App.Documents a ++ new0)) = (a1, res1) /\
      (forall e, res1 <> Some (Failed e)) /\
      App.Documents a' = App.Documents a1 ++ rest.
Proof.
  induction entries as [|entry0 entries IH]; intros a a' res; [by intros _ _ []|].
  cbn [walkEntries]. cbv zeta.
  destruct (walk _ _ entry0 a) as [a1 res1] eqn:Hw.
  destruct (walk_scan _ _ _ _ _ _ _ _ _ Hw) as (new1 & Ha1 & _).
  assert (walkEntries (scanEntry os rootDir sourceName fileRegex) path entries a1 = (a', res) ->
          (forall e, res1 <> Some (Failed e)) ->
          (forall e, res <> Some (Failed e)) ->
          In entry (entry0 :: entries) ->
          exists new0 a2 res2 rest,
            walk (scanEntry os rootDir sourceName fileRegex)
                 (filepath.Join [path; fileName entry]) entry
                 (App.withDocuments a (App.Documents a ++ new0)) = (a2, res2) /\
            (forall e, res2 <> Some (Failed e)) /\
            App.Documents a' = App.Documents a2 ++ rest) as Hgo.
  { intros Hrest Hres1 Hres [<-|Hin].
    - destruct (walkEntries_grows _ _ _ _ _ _ _ _ _ Hrest) as (rest & ->).
      exists [], a1, res1, rest. by rewrite withDocuments_same.
    - destruct (IH _ _ _ Hrest Hres Hin) as (new0 & a2 & res2 & rest & Hw2 & Hres2 & Hdocs).
      exists (new1 ++ new0), a2, res2, rest. rewrite Ha1 in Hw2.
      by rewrite withDocuments_twice in Hw2. }
  destruct res1 as [[|e1]|].
  - destruct entry0 as [name0|name0 listable0 entries0|name0].
    + by destruct (walk_file_not_SkipDir _ _ _ _ _ _ _ _ _ Hw).
    + intros Hrest. by apply Hgo.
    + intros Hrest. by apply Hgo.
  - intros [= _ <-] Hres. by destruct (Hres e1).
  - intros Hrest. by apply Hgo.
Qed.

Lemma walk_finds (os : OS.t) (rootDir sourceName : string) (regex : regexp.Regexp)
    (path : string) (info : FileTree) (chain : list string) (file fname : string) :
  descendsTo path info chain file fname ->
  forall a a' res content,
    walk (scanEntry os rootDir sourceName (Some regex)) path info a = (a', res) ->
    (forall e, res <> Some (Failed e)) ->
    Forall (fun p => shouldIgnorePath a p = false) chain ->
    regexp.MatchString regex fname = true ->
    OS.ReadFile os file = ReadOK content ->
    exists doc,
      In doc (App.Documents a') /\
      Document.Path doc = file /\ Document.Content doc = content /\
      Document.SourceDir doc = rootDir /\ Document.SourceName doc = sourceName.
Proof.
  induction 1 as [path name|path name listable entries entry chain file fname Hin Hd IH];
    intros a a' res content Hw Hres Hchain Hmatch Hread.
  - apply Forall_cons in Hchain as [Hig _].
    cbn [walk] in Hw. unfold scanEntry in Hw. rewrite Hig in Hw.
    cbn [IsDir negb fileName] in Hw. rewrite Hmatch in Hw.
    destruct (processFile_appends os a path rootDir sourceName content Hread)
      as (doc & Hp & Hpath & Hcontent & Hdir & Hname & _).
    rewrite Hp in Hw. injection Hw as <- _. exists doc.
    split; [|done]. simpl. apply in_or_app. right. by left.
  - apply Forall_cons in Hchain as [Hig Hchain].
    rewrite walk_FDir in Hw. cbv zeta in Hw. destruct listable.
    + rewrite scanEntry_directory, Hig in Hw.
      destruct (walkEntries_visits _ _ _ _ _ _ entry _ _ _ Hw Hres Hin)
        as (new0 & a1 & res1 & rest & Hw1 & Hres1 & Hdocs).
      destruct (IH _ _ _ content Hw1 Hres1 Hchain Hmatch Hread) as (doc & Hdoc & Hfields).
      exists doc. split; [|done]. rewrite Hdocs. apply in_or_app. by left.
    + unfold scanEntry in Hw. injection Hw as _ <-. by destruct (Hres (ErrWalk path)).
Qed.

(** X7: a scan that succeeds misses nothing: every file under the root
    that is reached through entries no ignore pattern matches, whose name
    the pattern of the directory matches and which can be read, has a
    document in the index, with the content of the file and the labels of
    the scanned directory. *)
Theorem scanDirectory_complete (os : OS.t) (a a' : App.t) (rootDir sourceName : string)
    (regex : regexp.Regexp) (info : FileTree) (chain : list string)
    (file fname content : string) :
  scanDirectory os a rootDir sourceName (Some regex) = (a', None) ->
  OS.Lstat os rootDir = Some info ->
  descendsTo rootDir info chain file fname ->
  Forall (fun p => shouldIgnorePath a p = false) chain ->
  regexp.MatchString regex fname = true ->
  OS.ReadFile os file = ReadOK content ->
  exists doc,
    In doc (App.Documents a') /\
    Document.Path doc = file /\ Document.Content doc = content /\
    Document.SourceDir doc = rootDir /\ Document.SourceName doc = sourceName.
Proof.
  unfold scanDirectory, Walk. intros Hscan Hstat Hd Hchain Hmatch Hread.
  rewrite Hstat in Hscan.
  destruct (walk _ rootDir info a) as [a1 res] eqn:Hw.
  assert (a1 = a' /\ forall e, res <> Some (Failed e)) as [-> Hres].
  { destruct res as [[|e]|]; injection Hscan as <-; try discriminate; by split. }
  by apply (walk_finds _ _ _ _ _ _ _ _ _ Hd _ _ _ _ Hw Hres).
Qed.

Lemma scanDirectory_complete_witness :
  exists doc,
    In doc (App.Documents
              (scanDirectory exampleOS exampleApp "/w/foo" "Docs" (Some exampleRegex)).1) /\
    Document.Path doc = "/w/foo/guide/faq.md" /\
    Document.Content doc = "Setup questions" /\
    Document.SourceDir doc = "/w/foo" /\ Document.SourceName doc = "Docs".
Proof.
  apply (scanDirectory_complete exampleOS exampleApp _ "/w/foo" "Docs" exampleRegex
           exampleTree ["/w/foo"; "/w/foo/guide"; "/w/foo/guide/faq.md"]
           "/w/foo/guide/faq.md" "faq.md" "Setup questions").
  - vm_compute. reflexivity.
  - reflexivity.
  - unfold exampleTree.
    apply (descendsTo_dir _ _ _ _ (FDir "guide" true [FFile "faq.md"; FFile "notes.txt"]));
      [simpl; tauto|].
    apply (descendsTo_dir _ _ _ _ (FFile "faq.md")); [simpl; tauto|].
    apply descendsTo_file.
  - repeat constructor.
  - vm_compute. reflexivity.
  - reflexivity.
Defined.

Lemma walkEntries_indexed (os : OS.t) (rootDir sourceName : string) (regex : regexp.Regexp)
    (path : string) (entries : list FileTree) :
  Forall (fun info =>
            forall path a a' err,
              walk (scanEntry os rootDir sourceName (Some regex)) path info a = (a', err) ->
              exists new,
                a' = App.withDocuments a (App.Documents a ++ new) /\
                Forall (indexedFrom os (App.IgnoreRegexes a) regex rootDir sourceName
                          path info) new) entries ->
  forall a a' err,
    walkEntries (scanEntry os rootDir sourceName (Some regex)) path entries a = (a', err) ->
    exists new,
      a' = App.withDocuments a (App.Documents a ++ new) /\
      Forall (fun doc =>
                exists entry,
                  In entry entries /\
                  indexedFrom os (App.IgnoreRegexes a) regex rootDir sourceName
                    (filepath.Join [path; fileName entry]) entry doc) new.
Proof.
  induction 1 as [|entry entries Hentry _ IH]; intros a a' err; cbn [walkEntries].
  { intros [= <- _]. exists []. by rewrite withDocuments_same. }
  cbv zeta. destruct (walk _ _ entry a) as [a1 err1] eqn:Hw.
  destruct (Hentry _ _ _ _ Hw) as (new1 & -> & Hnew1).
  assert (Forall (fun doc =>
            exists entry0,
              In entry0 (entry :: entries) /\
              indexedFrom os (App.IgnoreRegexes a) regex rootDir sourceName
                (filepath.Join [path; fileName entry0]) entry0 doc) new1) as Hfirst.
  { eapply Forall_impl; [exact Hnew1|]. intros doc Hdoc. exists entry. split; [by left|done]. }
  assert (forall a' err,
            walkEntries (scanEntry os rootDir sourceName (Some regex)) path entries
              (App.withDocuments a (App.Documents a ++ new1)) = (a', err) ->
            exists new,
              a' = App.withDocuments a (App.Documents a ++ new) /\
              Forall (fun doc =>
                exists entry0,
                  In entry0 (entry :: entries) /\
                  indexedFrom os (App.IgnoreRegexes a) regex rootDir sourceName
                    (filepath.Join [path; fileName entry0]) entry0 doc) new) as Hrest.
  { intros a2 err2 Hw2. destruct (IH _ _ _ Hw2) as (new2 & -> & Hnew2).
    exists (new1 ++ new2). split; [apply withDocuments_twice|].
    apply Forall_app. split; [done|].
    eapply Forall_impl; [exact Hnew2|]. intros doc (entry0 & Hin & Hdoc).
    exists entry0. split; [by right|done]. }
  destruct err1 as [[|e]|].
  - destruct entry; first [by apply Hrest | intros [= <- _]; by exists new1].
  - intros [= <- _]. by exists new1.
  - apply Hrest.
Qed.

Lemma walk_indexed (os : OS.t) (rootDir sourceName : string) (regex : regexp.Regexp)
    (info : FileTree) :
  forall path a a' err,
    walk (scanEntry os rootDir sourceName (Some regex)) path info a = (a', err) ->
    exists new,
      a' = App.withDocuments a (App.Documents a ++ new) /\
      Forall (indexedFrom os (App.IgnoreRegexes a) regex rootDir sourceName path info) new.
Proof.
  induction info as [name|name|name listable entries IH] using FileTree_ind';
    intros path a a' err.
  - cbn [walk]. unfold scanEntry. cbn [IsDir negb fileName].
    destruct (shouldIgnorePath a path) eqn:Hig.
    { intros [= <- _]. exists []. split; [by rewrite withDocuments_same|constructor]. }
    destruct (regexp.MatchString regex name) eqn:Hmatch.
    2:{ intros [= <- _]. exists []. split; [by rewrite withDocuments_same|constructor]. }
    destruct (OS.ReadFile os path) as [content| |] eqn:Hread.
    + destruct (processFile_appends os a path rootDir sourceName content Hread)
        as (doc & -> & Hpath & Hcontent & Hdir & Hname & Hrel & _).
      intros [= <- _]. exists [doc]. split; [done|]. constructor; [|constructor].
      exists [path], name. rewrite Hpath, Hcontent.
      split; [constructor|]. split; [by repeat constructor|]. done.
    + rewrite processFile_unreadable by (intros content; rewrite Hread; discriminate).
      intros [= <- _]. exists []. split; [by rewrite withDocuments_same|constructor].
    + rewrite processFile_unreadable by (intros content; rewrite Hread; discriminate).
      intros [= <- _]. exists []. split; [by rewrite withDocuments_same|constructor].
  - cbn [walk]. intros [= <- _].
    exists []. split; [by rewrite withDocuments_same|constructor].
  - rewrite walk_FDir. cbv zeta.
    destruct listable.
    + rewrite scanEntry_directory.
      destruct (shouldIgnorePath a path) eqn:Hig.
      { intros [= <- _]. exists []. split; [by rewrite withDocuments_same|constructor]. }
      intros Hw. destruct (walkEntries_indexed _ _ _ _ _ _ IH _ _ _ Hw) as (new & -> & Hnew).
      exists new. split; [done|].
      eapply Forall_impl; [exact Hnew|].
      intros doc (entry & Hin & chain & fname & Hd & Hc & Hrest).
      exists (path :: chain), fname. split; [by eapply descendsTo_dir|].
      split; [by constructor|done].
    + cbn. intros [= <- _].
      exists []. split; [by rewrite withDocuments_same|constructor].
Qed.

Lemma walk_no_regex (os : OS.t) (rootDir sourceName : string) (info : FileTree) :
  forall path a a' err,
    walk (scanEntry os rootDir sourceName None) path info a = (a', err) -> a' = a.
Proof.
  induction info as [name|name|name listable entries IH] using FileTree_ind';
    intros path a a' err.
  - cbn [walk]. unfold scanEntry. cbn [IsDir negb].
    destruct (shouldIgnorePath a path); by intros [= <- _].
  - cbn [walk]. by intros [= <- _].
  - rewrite walk_FDir. cbv zeta. destruct listable.
    + rewrite scanEntry_directory. destruct (shouldIgnorePath a path); [by intros [= <- _]|].
      revert a. induction IH as [|entry entries Hentry _ IHentries]; intros a;
        cbn [walkEntries]; [by intros [= <- _]|].
      cbv zeta. destruct (walk _ _ entry a) as [a1 err1] eqn:Hw.
      apply Hentry in Hw as ->.
      destruct err1 as [[|e1]|]; [destruct entry| |];
        first [apply IHentries | by intros [= <- _]].
    + cbn. by intros [= <- _].
Qed.

Lemma scanDirectory_indexed (os : OS.t) (a : App.t) (rootDir sourceName : string)
    (fileRegex : option regexp.Regexp) :
  exists new,
    (scanDirectory os a rootDir sourceName fileRegex).1
      = App.withDocuments a (App.Documents a ++ new) /\
    forall doc, In doc new ->
      exists regex info,
        fileRegex = Some regex /\
        OS.Lstat os rootDir = Some info /\
        indexedFrom os (App.IgnoreRegexes a) regex rootDir sourceName rootDir info doc.
Proof.
  unfold scanDirectory, Walk.
  destruct (OS.Lstat os rootDir) as [info|] eqn:Hstat.
  - destruct (walk _ rootDir info a) as [a1 err1] eqn:Hw.
    destruct fileRegex as [regex|].
    + destruct (walk_indexed _ _ _ _ _ _ _ _ _ Hw) as (new & -> & Hnew).
      exists new. split; [by destruct err1 as [[|e]|]|].
      intros doc Hin. exists regex, info. split; [done|]. split; [done|].
      rewrite Forall_forall in Hnew. by apply Hnew, list_elem_of_In.
    + apply walk_no_regex in Hw as ->. exists [].
      split; [rewrite withDocuments_same; by destruct err1 as [[|e]|]|by intros doc []].
  - exists []. split; [by rewrite withDocuments_same|by intros doc []].
Qed.

(** X8: a scan indexes nothing else: whether it succeeds or fails part of
    the way, it only appends to the index, and every document it appends
    was read from a file under the root whose name the pattern of the
    directory matches, with the content read from that file, the labels of
    the scanned directory and the path relative to the root. *)
Theorem scanDirectory_sound (os : OS.t) (a : App.t) (rootDir sourceName : string)
    (regex : regexp.Regexp) :
  exists new,
    (scanDirectory os a rootDir sourceName (Some regex)).1
      = App.withDocuments a (App.Documents a ++ new) /\
    forall doc, In doc new ->
      exists info,
        OS.Lstat os rootDir = Some info /\
        indexedFrom os (App.IgnoreRegexes a) regex rootDir sourceName rootDir info doc.
Proof.
  destruct (scanDirectory_indexed os a rootDir sourceName (Some regex)) as (new & Hnew & Hall).
  exists new. split; [done|]. intros doc Hin.
  destruct (Hall doc Hin) as (regex' & info & [= <-] & Hstat & Hdoc). by exists info.
Qed.

Lemma walk_fails (os : OS.t) (rootDir sourceName : string) (regex : regexp.Regexp)
    (info : FileTree) :
  forall path a a' e,
    walk (scanEntry os rootDir sourceName (Some regex)) path info a = (a', Some (Failed e)) ->
    exists p, e = ErrWalk p.
Proof.
  induction info as [name|name|name listable entries IH] using FileTree_ind';
    intros path a a' e.
  - cbn [walk]. unfold scanEntry. cbn [IsDir negb fileName].
    destruct (shouldIgnorePath a path); [discriminate|].
    by destruct (regexp.MatchString regex name).
  - cbn [walk]. intros [= _ <-]. by exists path.
  - rewrite walk_FDir. cbv zeta. destruct listable.
    + rewrite scanEntry_directory. destruct (shouldIgnorePath a path); [discriminate|].
      revert a. induction IH as [|entry entries Hentry _ IHentries]; intros a;
        cbn [walkEntries]; [discriminate|].
      cbv zeta. destruct (walk _ _ entry a) as [a1 [[|e1]|]] eqn:Hw.
      * destruct entry; first [discriminate | apply IHentries].
      * intros [= _ <-]. by apply (Hentry _ _ _ _ Hw).
      * apply IHentries.
    + cbn. intros [= _ <-]. by exists path.
Qed.

Lemma scanDirectory_ErrWalk (os : OS.t) (a a' : App.t) (rootDir sourceName : string)
    (regex : regexp.Regexp) (e : error) :
  scanDirectory os a rootDir sourceName (Some regex) = (a', Some e) ->
  exists p, e = ErrWalk p.
Proof.
  unfold scanDirectory, Walk.
  destruct (OS.Lstat os rootDir) as [info|].
  - destruct (walk _ rootDir info a) as [a1 [[|e1]|]] eqn:Hw; try discriminate.
    intros [= _ <-]. by apply (walk_fails _ _ _ _ _ _ _ _ _ Hw).
  - cbn. intros [= _ <-]. by exists rootDir.
Qed.

(** X9: the only way a scan with a compiled pattern fails is a failure of
    the walk itself (a missing root, a directory that cannot be listed, an
    entry that vanished): a file that cannot be read never fails the scan.
    When the root does not exist the scan fails on it and indexes
    nothing. *)
Theorem scanDirectory_errors (os : OS.t) (a : App.t) (rootDir sourceName : string)
    (regex : regexp.Regexp) :
  (forall e, (scanDirectory os a rootDir sourceName (Some regex)).2 = Some e ->
     exists p, e = ErrWalk p) /\
  (OS.Lstat os rootDir = None ->
   scanDirectory os a rootDir sourceName (Some regex) = (a, Some (ErrWalk rootDir))).
Proof.
  split.
  - intros e He.
    destruct (scanDirectory os a rootDir sourceName (Some regex)) as [a' err] eqn:Hscan.
    simpl in He. subst err. by apply (scanDirectory_ErrWalk _ _ _ _ _ _ _ Hscan).
  - unfold scanDirectory, Walk. by intros ->.
Qed.

Lemma scanDirectory_errors_witness :
  scanDirectory exampleLostOS exampleApp "/w/foo" "Docs" (Some exampleRegex)
    = (exampleApp, Some (ErrWalk "/w/foo")).
Proof.
  apply (proj2 (scanDirectory_errors exampleLostOS exampleApp "/w/foo" "Docs" exampleRegex)).
  reflexivity.
Defined.

(** ** Configuration *)

Lemma compileFilePatterns_all (dirs : list DirectoryConfig.t) :
  forall a a',
    compileFilePatterns dirs a = (a', None) ->
    (forall path, is_Some (App.FileRegexes a !! path) -> is_Some (App.FileRegexes a' !! path)) /\
    (forall dirConfig, In dirConfig dirs ->
       is_Some (App.FileRegexes a' !! DirectoryConfig.Path dirConfig)).
Proof.
  induction dirs as [|d dirs IH]; intros a a'; simpl.
  - intros [= <-]. split; [done|by intros dirConfig []].
  - destruct (regexp.Compile _) as [regex|]; [|discriminate].
    intros Hc. destruct (IH _ _ Hc) as [Hkeeps Hall]. simpl in Hkeeps. split.
    + intros path Hpath. apply Hkeeps. rewrite lookup_insert_is_Some. 
      destruct (decide (DirectoryConfig.Path d = path)); [by left|by right].
    + intros dirConfig [<-|Hin]; [|by apply Hall].
      apply Hkeeps. rewrite lookup_insert_is_Some. by left.
Qed.

Lemma scanEach_errors (os : OS.t) (dirs : list DirectoryConfig.t) :
  forall a a' e,
    (forall dirConfig, In dirConfig dirs ->
       is_Some (App.FileRegexes a !! DirectoryConfig.Path dirConfig)) ->
    scanEach os dirs a = (a', Some e) ->
    exists dirConfig p,
      In dirConfig dirs /\ e = ErrScan (DirectoryConfig.Path dirConfig) (ErrWalk p).
Proof.
  induction dirs as [|d dirs IH]; intros a a' e Hall; cbn [scanEach]; [discriminate|].
  cbv zeta. destruct (Hall d (or_introl eq_refl)) as [regex Hregex]. rewrite Hregex.
  destruct (scanDirectory os a _ _ (Some regex)) as [a1 [e1|]] eqn:Hs.
  - intros [= _ <-]. destruct (scanDirectory_ErrWalk _ _ _ _ _ _ _ Hs) as [p ->].
    exists d, p. split; [by left|done].
  - destruct (scanDirectory_IgnoreRegexes _ _ _ _ _ _ _ Hs) as (new & -> & _).
    intros Hrest.
    assert (forall dirConfig, In dirConfig dirs ->
              is_Some (App.FileRegexes (App.withDocuments a (App.Documents a ++ new))
                         !! DirectoryConfig.Path dirConfig)) as Hall'
      by (intros d' Hd'; apply Hall; by right).
    destruct (IH _ _ _ Hall' Hrest) as (dirConfig & p & Hin & ->).
    exists dirConfig, p. split; [by right|done].
Qed.

(** X10: after a LoadConfig that succeeds, every configured directory has
    a compiled file pattern, so the scan never calls MatchString through a
    nil pointer: if ScanDirectories fails, it fails on a configured
    directory with an error of the directory walk. *)
Theorem LoadConfig_then_scan `{JSON} (os os' : OS.t) (a a' : App.t)
    (configFile targetPath : string) :
  LoadConfig os a configFile targetPath = (a', None) ->
  (forall dirConfig, In dirConfig (Config.Directories (App.Config a')) ->
     exists regex, App.FileRegexes a' !! DirectoryConfig.Path dirConfig = Some regex) /\
  (forall e, (ScanDirectories os' a').2 = Some e ->
     exists dirConfig p,
       In dirConfig (Config.Directories (App.Config a')) /\
       e = ErrScan (DirectoryConfig.Path dirConfig) (ErrWalk p)).
Proof.
  intros Hload. destruct (LoadConfig_file_patterns _ _ _ _ _ Hload) as [a0 Hc].
  destruct (compileFilePatterns_all _ _ _ Hc) as [_ Hall]. split; [exact Hall|].
  intros e He. unfold ScanDirectories in He.
  destruct (scanEach os' _ a') as [a'' err] eqn:Hs. simpl in He. subst err.
  by apply (scanEach_errors _ _ _ _ _ Hall Hs).
Qed.

Lemma LoadConfig_then_scan_witness :
  let a' := (@LoadConfig plainjson.codec exampleLostOS App.NewApp "" "").1 in
  (forall dirConfig, In dirConfig (Config.Directories (App.Config a')) ->
     exists regex, App.FileRegexes a' !! DirectoryConfig.Path dirConfig = Some regex) /\
  (forall e, (ScanDirectories exampleLostOS a').2 = Some e ->
     exists dirConfig p,
       In dirConfig (Config.Directories (App.Config a')) /\
       e = ErrScan (DirectoryConfig.Path dirConfig) (ErrWalk p)).
Proof.
  apply (@LoadConfig_then_scan plainjson.codec exampleLostOS exampleLostOS App.NewApp _ "" "").
  vm_compute. reflexivity.
Defined.

Example LoadConfig_then_scan_ex :
  let a' := (@LoadConfig plainjson.codec exampleLostOS App.NewApp "" "").1 in
  (ScanDirectories exampleLostOS a').2 = Some (ErrScan "/w/foo" (ErrWalk "/w/foo")).
Proof. vm_compute. reflexivity. Qed.

Lemma withIgnoreRegexes_same (a : App.t) :
  App.withIgnoreRegexes a (App.IgnoreRegexes a ++ []) = a.
Proof. rewrite app_nil_r. by destruct a. Qed.


Lemma compileIgnorePatterns_TargetFile (patterns : list string) (a a' : App.t)
    (err : option error) :
  compileIgnorePatterns patterns a = (a', err) -> App.TargetFile a' = App.TargetFile a.
Proof.
  revert a. induction patterns as [|pattern patterns IH]; intros a; simpl.
  - by intros [= <- _].
  - destruct (regexp.Compile pattern); [|by intros [= <- _]].
    intros Hc. by rewrite (IH _ Hc).
Qed.

Lemma compileFilePatterns_single (dirConfig : DirectoryConfig.t) (a : App.t) :
  compileFilePatterns [dirConfig] a =
  match regexp.Compile (filePatternOf dirConfig) with
  | None =>
    (a, Some (ErrFilePattern (filePatternOf dirConfig) (DirectoryConfig.Path dirConfig)))
  | Some regex =>
    (App.withFileRegexes a (<[DirectoryConfig.Path dirConfig := regex]> (App.FileRegexes a)),
     None)
  end.
Proof. reflexivity. Qed.

Lemma Compile_md : regexp.Compile "\.md$" = Some exampleRegex.
Proof. vm_compute. reflexivity. Qed.




(** X12: a PATH argument replaces the directories of the configuration:
    after a LoadConfig that succeeds with one, the only configured
    directory is the directory itself, or the directory of the file, under
    the name "Documents" with the pattern "\.md$", its expression is the
    only file expression, and TargetFile is set for a file and untouched
    for a directory. *)
Theorem LoadConfig_target_path `{JSON} (os : OS.t) (a a' : App.t)
    (configFile targetPath : string) :
  targetPath <> "" ->
  LoadConfig os a configFile targetPath = (a', None) ->
  exists info regex,
    OS.Lstat os (filepath.Abs (OS.Getwd os) targetPath) = Some info /\
    regexp.Compile "\.md$" = Some regex /\
    Config.Directories (App.Config a') =
      [DirectoryConfig.mk
         (if IsDir info then filepath.Abs (OS.Getwd os) targetPath
          else filepath.Dir (filepath.Abs (OS.Getwd os) targetPath))
         "Documents" "\.md$"] /\
    App.FileRegexes a' =
      {[ (if IsDir info then filepath.Abs (OS.Getwd os) targetPath
          else filepath.Dir (filepath.Abs (OS.Getwd os) targetPath)) := regex ]} /\
    App.TargetFile a' =
      (if IsDir info then App.TargetFile a else filepath.Abs (OS.Getwd os) targetPath).
Proof.
  intros Htarget. unfold LoadConfig.
  set (loaded := match OS.ReadFile os _ with ReadOK _ => _ | _ => _ end).
  assert (forall a1, loaded = inl a1 -> App.TargetFile a1 = App.TargetFile a) as Hloaded.
  { subst loaded. intros a1. destruct (OS.ReadFile os _) as [data| |].
    - destruct (UnmarshalConfig data _); [|discriminate]. by intros [= <-].
    - destruct (String.eqb _ "dimandocs.json"); [|discriminate]. by intros [= <-].
    - discriminate. }
  destruct loaded as [a1|e]; [|discriminate]. specialize (Hloaded a1 eq_refl).
  destruct (String.eqb_spec targetPath "") as [|_]; [done|]. cbn [negb].
  unfold handleTargetPath.
  set (absPath := filepath.Abs (OS.Getwd os) targetPath).
  destruct (OS.Lstat os absPath) as [info|]; [|discriminate].
  assert (forall a2 a3 dir,
            Config.Directories (App.Config a2) = [DirectoryConfig.mk dir "Documents" "\.md$"] ->
            compileIgnorePatterns (Config.IgnorePatterns (App.Config a2)) a2 = (a3, None) ->
            compileFilePatterns (Config.Directories (App.Config a3)) (App.withFileRegexes a3 ∅)
              = (a', None) ->
            Config.Directories (App.Config a') = [DirectoryConfig.mk dir "Documents" "\.md$"] /\
            App.FileRegexes a' = {[ dir := exampleRegex ]} /\
            App.TargetFile a' = App.TargetFile a2) as Hrest.
  { intros a2 a3 dir Hdirs Hi.
    rewrite (compileIgnorePatterns_Config _ _ _ _ Hi), Hdirs, compileFilePatterns_single.
    change (filePatternOf (DirectoryConfig.mk dir "Documents" "\.md$")) with "\.md$".
    rewrite Compile_md.
    intros [= <-]. simpl.
    rewrite (compileIgnorePatterns_Config _ _ _ _ Hi), Hdirs.
    by rewrite (compileIgnorePatterns_TargetFile _ _ _ _ Hi). }
  destruct info as [name|name listable entries|name]; [| |discriminate]; cbn [IsDir].
  - match goal with |- context [compileIgnorePatterns ?ps ?x] =>
      destruct (compileIgnorePatterns ps x) as [a3 [e|]] eqn:Hi; [discriminate|] end.
    intros Hc. pose proof (fun dir Hdir => Hrest _ _ dir Hdir Hi Hc) as Hrest'.
    destruct (Hrest' _ eq_refl) as (Hdirs & Hregexes & Htf).
    exists (FFile name), exampleRegex. by repeat split.
  - match goal with |- context [compileIgnorePatterns ?ps ?x] =>
      destruct (compileIgnorePatterns ps x) as [a3 [e|]] eqn:Hi; [discriminate|] end.
    intros Hc. pose proof (fun dir Hdir => Hrest _ _ dir Hdir Hi Hc) as Hrest'.
    destruct (Hrest' _ eq_refl) as (Hdirs & Hregexes & Htf).
    exists (FDir name listable entries), exampleRegex. repeat split; try done.
    by rewrite Htf.
Qed.

Lemma LoadConfig_target_path_witness :
  let a' := (@LoadConfig plainjson.codec exampleConfigOS App.NewApp "" "../../foo").1 in
  exists info regex,
    OS.Lstat exampleConfigOS (filepath.Abs (OS.Getwd exampleConfigOS) "../../foo")
      = Some info /\
    regexp.Compile "\.md$" = Some regex /\
    Config.Directories (App.Config a') =
      [DirectoryConfig.mk
         (if IsDir info then filepath.Abs (OS.Getwd exampleConfigOS) "../../foo"
          else filepath.Dir (filepath.Abs (OS.Getwd exampleConfigOS) "../../foo"))
         "Documents" "\.md$"] /\
    App.FileRegexes a' =
      {[ (if IsDir info then filepath.Abs (OS.Getwd exampleConfigOS) "../../foo"
          else filepath.Dir (filepath.Abs (OS.Getwd exampleConfigOS) "../../foo")) := regex ]} /\
    App.TargetFile a' =
      (if IsDir info then App.TargetFile App.NewApp
       else filepath.Abs (OS.Getwd exampleConfigOS) "../../foo").
Proof.
  apply (@LoadConfig_target_path plainjson.codec exampleConfigOS App.NewApp _ "" "../../foo").
  - discriminate.
  - vm_compute. reflexivity.
Defined.

(** ** Groups *)

Lemma groupBySourceName_In (docs : list Document.t) (doc : Document.t) :
  In doc docs ->
  groupBySourceName docs !! Document.SourceName doc =
  Some (List.filter
          (fun doc' => String.eqb (Document.SourceName doc') (Document.SourceName doc)) docs).
Proof.
  intros Hin. unfold groupBySourceName. rewrite groupBySourceName_foldl, lookup_empty.
  destruct (List.filter _ docs) as [|doc0 group] eqn:Hfilter; [|done].
  assert (In doc []) as []. rewrite <- Hfilter. apply filter_In.
  split; [done|apply String.eqb_refl].
Qed.

Lemma groupBySourceName_nonempty (docs group : list Document.t) (name : string) :
  groupBySourceName docs !! name = Some group -> group <> [].
Proof.
  unfold groupBySourceName. rewrite groupBySourceName_foldl, lookup_empty.
  destruct (List.filter _ docs); [done|]. by intros [= <-].
Qed.

(** X13: the groups of GroupDocumentsByDirectory split the index by source
    name, in whatever order the map is visited: no two groups have the same
    name, no group is empty, each holds the documents of its source name
    in index order, and every document of the index is in the group of its
    source name. *)
Theorem GroupDocumentsByDirectory_partition (a : App.t) (groups : list DirectoryGroup.t) :
  GroupDocumentsByDirectory a groups ->
  NoDup (map DirectoryGroup.Name groups) /\
  (forall group, In group groups ->
     DirectoryGroup.Documents group <> [] /\
     DirectoryGroup.Documents group =
       List.filter
         (fun doc => String.eqb (Document.SourceName doc) (DirectoryGroup.Name group))
         (App.Documents a)) /\
  (forall doc, In doc (App.Documents a) ->
     exists group,
       In group groups /\
       DirectoryGroup.Name group = Document.SourceName doc /\
       In doc (DirectoryGroup.Documents group)).
Proof.
  intros (visited & Hv & ->). unfold rangeOver in Hv. split; [|split].
  - assert (map DirectoryGroup.Name
              (map (fun '(name, docs) => DirectoryGroup.mk name docs) visited)
            = visited.*1) as ->.
    { rewrite map_map. apply map_ext. by intros [name docs]. }
    rewrite Hv. apply NoDup_fst_map_to_list.
  - intros group ([name docs] & <- & Hin)%in_map_iff.
    assert (groupBySourceName (App.Documents a) !! name = Some docs) as Hlookup.
    { apply elem_of_map_to_list. rewrite <- Hv. by apply list_elem_of_In. }
    simpl. split; [by eapply groupBySourceName_nonempty|by apply groupBySourceName_lookup].
  - intros doc Hin. pose proof (groupBySourceName_In _ _ Hin) as Hlookup.
    apply elem_of_map_to_list in Hlookup. rewrite <- Hv in Hlookup.
    apply list_elem_of_In in Hlookup.
    eexists (DirectoryGroup.mk (Document.SourceName doc) _). split; [|split; [done|]].
    + apply in_map_iff. eexists (_, _). split; [reflexivity|exact Hlookup].
    + simpl. apply filter_In. split; [done|apply String.eqb_refl].
Qed.

Lemma GroupDocumentsByDirectory_partition_witness :
  let groups :=
    map (fun '(name, docs) => DirectoryGroup.mk name docs)
      (map_to_list (groupBySourceName (App.Documents exampleIndex))) in
  NoDup (map DirectoryGroup.Name groups) /\
  (forall group, In group groups ->
     DirectoryGroup.Documents group <> [] /\
     DirectoryGroup.Documents group =
       List.filter
         (fun doc => String.eqb (Document.SourceName doc) (DirectoryGroup.Name group))
         (App.Documents exampleIndex)) /\
  (forall doc, In doc (App.Documents exampleIndex) ->
     exists group,
       In group groups /\
       DirectoryGroup.Name group = Document.SourceName doc /\
       In doc (DirectoryGroup.Documents group)).
Proof.
  apply (GroupDocumentsByDirectory_partition exampleIndex).
  exists (map_to_list (groupBySourceName (App.Documents exampleIndex))).
  split; [unfold rangeOver|]; reflexivity.
Defined.

(** ** Loading, once more *)

(** X14: the bulk loader settles the index: loading a second time changes
    nothing, and after it no request for a document page changes the index
    either (the files being what they were). *)
Theorem loadDocumentContents_settles `{Renderer} (os : OS.t) (a : App.t) :
  let loaded := (loadDocumentContents os a).1 in
  loadDocumentContents os loaded = (loaded, None) /\
  forall urlPath, (handleDocument os loaded urlPath).1 = loaded.
Proof.
  cbv zeta. unfold loadDocumentContents. rewrite loadLoop_all. cbn [fst]. split.
  - cbn [App.Documents App.withDocuments]. rewrite loadLoop_all, map_map.
    f_equal. f_equal. apply map_ext. intros doc. apply loadContent_idempotent.
  - intros urlPath.
    destruct (handleDocument_state os
                (App.withDocuments a (map (loadContent os) (App.Documents a))) urlPath)
      as [Hsame|(i & doc & content & Hi & Hc & Hr & ->)]; [done|].
    cbn [App.Documents App.withDocuments] in *.
    assert (content = "") as ->.
    { change (map (loadContent os) (App.Documents a) !! i = Some doc) in Hi.
      rewrite list_lookup_fmap in Hi.
      destruct (App.Documents a !! i) as [doc0|]; [|discriminate].
      injection Hi as <-. unfold loadContent in Hc, Hr.
      destruct (String.eqb_spec (Document.Content doc0) "") as [Hc0|Hc0]; [|done].
      destruct (OS.ReadFile os (Document.Path doc0)) as [content0| |] eqn:Hr0.
      - simpl in Hc, Hr. rewrite Hr0 in Hr. by injection Hr as <-.
      - by rewrite Hr0 in Hr.
      - by rewrite Hr0 in Hr. }
    rewrite <- Hc, withContent_same. by rewrite (list_insert_id _ i doc Hi).
Qed.

(** ** Start-up *)

Lemma compileIgnorePatterns_appends (patterns : list string) :
  forall a a' err,
    compileIgnorePatterns patterns a = (a', err) ->
    exists regexes, a' = App.withIgnoreRegexes a (App.IgnoreRegexes a ++ regexes).
Proof.
  induction patterns as [|pattern patterns IH]; intros a a' err; simpl.
  - intros [= <- _]. exists []. by rewrite withIgnoreRegexes_same.
  - destruct (regexp.Compile pattern) as [regex|].
    + intros Hc. destruct (IH _ _ _ Hc) as [regexes ->].
      exists (regex :: regexes). simpl. by rewrite <- app_assoc.
    + intros [= <- _]. exists []. by rewrite withIgnoreRegexes_same.
Qed.

Lemma compileFilePatterns_sets (dirs : list DirectoryConfig.t) :
  forall a a' err,
    compileFilePatterns dirs a = (a', err) ->
    exists regexes, a' = App.withFileRegexes a regexes.
Proof.
  induction dirs as [|d dirs IH]; intros a a' err; simpl.
  - intros [= <- _]. exists (App.FileRegexes a). by destruct a.
  - destruct (regexp.Compile _) as [regex|].
    + intros Hc. destruct (IH _ _ _ Hc) as [regexes ->]. by eexists.
    + intros [= <- _]. exists (App.FileRegexes a). by destruct a.
Qed.

(** LoadConfig leaves the index and the settings of the run alone. *)
Lemma LoadConfig_keeps `{JSON} (os : OS.t) (a a' : App.t) (configFile targetPath : string)
    (err : option error) :
  LoadConfig os a configFile targetPath = (a', err) ->
  App.Documents a' = App.Documents a /\
  App.WorkingDir a' = App.WorkingDir a /\
  App.UseCache a' = App.UseCache a.
Proof.
  unfold LoadConfig.
  set (loaded := match OS.ReadFile os _ with ReadOK _ => _ | _ => _ end).
  assert (forall a1, loaded = inl a1 -> exists c, a1 = App.withConfig a c) as Hloaded.
  { subst loaded. intros a1. destruct (OS.ReadFile os _) as [data| |].
    - destruct (UnmarshalConfig data _) as [c|]; [|discriminate]. intros [= <-]. by exists c.
    - destruct (String.eqb _ "dimandocs.json"); [|discriminate]. intros [= <-]. by eexists.
    - discriminate. }
  destruct loaded as [a1|e]; [|by intros [= <- _]].
  destruct (Hloaded a1 eq_refl) as [c ->].
  set (targeted := if negb _ then _ else _).
  assert (exists c' f,
            targeted.1 = App.withTargetFile (App.withConfig a c') f) as (c' & f & Htargeted).
  { subst targeted. destruct (negb _); [|by exists c, (App.TargetFile a)].
    unfold handleTargetPath. destruct (OS.Lstat os _) as [[name|name listable entries|name]|];
      cbn [IsDir]; eexists _, _; unfold App.withConfig, App.withTargetFile; cbn; reflexivity. }
  destruct targeted as [a2 err2]. simpl in Htargeted. subst a2.
  destruct err2 as [e|]; [by intros [= <- _]|].
  destruct (compileIgnorePatterns _ _) as [a3 err3] eqn:Hi.
  destruct (compileIgnorePatterns_appends _ _ _ _ Hi) as [regexes ->].
  destruct err3 as [e|]; [by intros [= <- _]|].
  intros Hc. by destruct (compileFilePatterns_sets _ _ _ _ Hc) as [m ->].
Qed.

(** Writing another file than the configuration file does not change what
    LoadConfig does. *)
Lemma LoadConfig_write `{JSON} (os : OS.t) (a : App.t) (configFile targetPath path data : string) :
  (if String.eqb configFile "" then "dimandocs.json" else configFile) <> path ->
  LoadConfig (OS.write os path data) a configFile targetPath
    = LoadConfig os a configFile targetPath.
Proof.
  intros Hne. unfold LoadConfig. cbn [OS.ReadFile OS.write].
  by destruct (String.eqb_spec
                 (if String.eqb configFile "" then "dimandocs.json" else configFile) path).
Qed.

Lemma ScanDirectories_appends (os : OS.t) (a a' : App.t) (err : option error) :
  ScanDirectories os a = (a', err) ->
  exists new, a' = App.withDocuments a (App.Documents a ++ new).
Proof.
  unfold ScanDirectories. intros Hs.
  destruct (scanEach_not_ignored _ _ _ _ _ Hs) as (new & -> & _). by exists new.
Qed.

(** Start-up with a cache that can be read: the index is the cache. *)
Lemma Initialize_cache_hit `{JSON} (os : OS.t) (a a1 : App.t) (configFile targetPath : string)
    (data : string) (cache : CacheData.t) :
  OS.ReadFile os cacheFile = ReadOK data ->
  UnmarshalCache data = Some cache ->
  LoadConfig os
    (App.mk (App.Config a) (App.Documents a) (App.IgnoreRegexes a) (App.FileRegexes a)
       (OS.Getwd os) (App.TargetFile a) true)
    configFile targetPath = (a1, None) ->
  Initialize os a configFile targetPath true
    = (os, App.withDocuments a1 (map documentOf (CacheData.Documents cache)), None).
Proof.
  intros Hread Hparse Hload. unfold Initialize. rewrite Hload.
  destruct (LoadConfig_keeps _ _ _ _ _ _ Hload) as (_ & _ & Hcache). simpl in Hcache.
  rewrite Hcache. unfold loadFromCache. by rewrite Hread, Hparse.
Qed.

(** X15: with the cache enabled and a cache file that can be read and
    parsed, start-up does not look at the documents on disk at all: once
    the configuration is loaded, the index is the list of the cache,
    whatever version wrote it and whatever the configured directories hold
    now, and nothing is written.  When loading the configuration fails,
    its error is the result. *)
Theorem Initialize_trusts_cache `{JSON} (os : OS.t) (a : App.t)
    (configFile targetPath data : string) (cache : CacheData.t) :
  OS.ReadFile os cacheFile = ReadOK data ->
  UnmarshalCache data = Some cache ->
  Initialize os a configFile targetPath true =
  match LoadConfig os
          (App.mk (App.Config a) (App.Documents a) (App.IgnoreRegexes a)
             (App.FileRegexes a) (OS.Getwd os) (App.TargetFile a) true)
          configFile targetPath with
  | (a1, None) =>
    (os, App.withDocuments a1 (map documentOf (CacheData.Documents cache)), None)
  | (a1, Some e) => (os, a1, Some e)
  end.
Proof.
  intros Hread Hparse.
  destruct (LoadConfig os _ configFile targetPath) as [a1 [e|]] eqn:Hload.
  - unfold Initialize. by rewrite Hload.
  - by apply (Initialize_cache_hit _ _ _ _ _ data).
Qed.

(** X16: a start-up with the cache enabled that finds no cache and writes
    one is reproduced by the next start-up, from the cache alone: the
    second run returns the application of the first, with the Content of
    every document empty, and leaves the files as they are.  The
    configuration file must not be the cache file, and the JSON library
    must read back the cache it wrote. *)
Theorem Initialize_second_run `{JSON} (os os1 : OS.t) (a a1 : App.t)
    (configFile targetPath : string) :
  (if String.eqb configFile "" then "dimandocs.json" else configFile) <> cacheFile ->
  (forall data, OS.ReadFile os cacheFile <> ReadOK data) ->
  OS.CanWrite os cacheFile = true ->
  Initialize os a configFile targetPath true = (os1, a1, None) ->
  (exists data,
     MarshalCache (CacheData.mk (map cachedOf (App.Documents a1)) Version) = Some data /\
     UnmarshalCache data = Some (CacheData.mk (map cachedOf (App.Documents a1)) Version)) ->
  Initialize os1 a configFile targetPath true
    = (os1,
       App.withDocuments a1
         (map (fun doc => Document.withContent doc "") (App.Documents a1)),
       None).
Proof.
  intros Hconfig Hnocache Hwrite Hfirst (data & Hmarshal & Hparse).
  unfold Initialize in Hfirst.
  destruct (LoadConfig os _ configFile targetPath) as [a2 [e|]] eqn:Hload; [discriminate|].
  destruct (LoadConfig_keeps _ _ _ _ _ _ Hload) as (_ & _ & Hcache). simpl in Hcache.
  rewrite Hcache in Hfirst. unfold loadFromCache in Hfirst.
  destruct (OS.ReadFile os cacheFile) as [data0| |] eqn:Hread; [by destruct (Hnocache data0)|..].
  all: destruct (ScanDirectories os a2) as [a3 [e|]] eqn:Hscan; [discriminate|].
  all: destruct (ScanDirectories_appends _ _ _ _ Hscan) as [new Ha3].
  all: assert (App.UseCache a3 = true) as Hcache3 by (by rewrite Ha3).
  all: rewrite Hcache3 in Hfirst; injection Hfirst as <- <-.
  all: unfold saveToCache, WriteFile; rewrite Hmarshal, Hwrite; cbn [fst].
  all: rewrite (Initialize_cache_hit (OS.write os cacheFile data) a a2 configFile targetPath
                  data _ (ReadFile_write _ _ _) Hparse)
         by (cbn [OS.Getwd OS.write]; by rewrite LoadConfig_write).
  all: cbn [CacheData.Documents]; rewrite map_map, Ha3; reflexivity.
Qed.

Lemma Initialize_second_run_witness :
  let first := @Initialize plainjson.codec exampleStartOS App.NewApp "" "" true in
  @Initialize plainjson.codec first.1.1 App.NewApp "" "" true
    = (first.1.1,
       App.withDocuments first.1.2
         (map (fun doc => Document.withContent doc "") (App.Documents first.1.2)),
       None).
Proof.
  apply (@Initialize_second_run plainjson.codec exampleStartOS _ App.NewApp _ "" "").
  - discriminate.
  - intros data. vm_compute. discriminate.
  - reflexivity.
  - vm_compute. reflexivity.
  - eexists. split; [reflexivity|]. apply plainjson_round_trip.
Defined.

Example Initialize_ex :
  let first := @Initialize plainjson.codec exampleStartOS App.NewApp "" "" true in
  map Document.Path (App.Documents first.1.2) = ["/w/foo/README.md"; "/w/foo/guide/faq.md"] /\
  first.2 = None /\
  OS.ReadFile first.1.1 cacheFile
    = ReadOK (plainjson.writeCache
                (CacheData.mk (map cachedOf (App.Documents first.1.2)) Version)).
Proof. vm_compute. repeat split. Qed.

Lemma Initialize_trusts_cache_witness :
  let first := @Initialize plainjson.codec exampleStartOS App.NewApp "" "" true in
  let cache := CacheData.mk (map cachedOf (App.Documents first.1.2)) Version in
  @Initialize plainjson.codec first.1.1 App.NewApp "" "" true =
  match @LoadConfig plainjson.codec first.1.1
          (App.mk (App.Config App.NewApp) (App.Documents App.NewApp)
             (App.IgnoreRegexes App.NewApp) (App.FileRegexes App.NewApp)
             (OS.Getwd first.1.1) (App.TargetFile App.NewApp) true)
          "" "" with
  | (a1, None) =>
    (first.1.1, App.withDocuments a1 (map documentOf (CacheData.Documents cache)), None)
  | (a1, Some e) => (first.1.1, a1, Some e)
  end.
Proof.
  apply (@Initialize_trusts_cache plainjson.codec _ App.NewApp "" ""
           (plainjson.writeCache
              (CacheData.mk
                 (map cachedOf
                    (App.Documents
                       (@Initialize plainjson.codec exampleStartOS App.NewApp "" "" true).1.2))
                 Version))).
  - vm_compute. reflexivity.
  - apply plainjson_round_trip.
Defined.


(** ** The whole scan *)

Lemma scanEach_indexed (os : OS.t) (dirs : list DirectoryConfig.t) :
  forall a,
    exists new,
      (scanEach os dirs a).1 = App.withDocuments a (App.Documents a ++ new) /\
      forall doc, In doc new ->
        exists dirConfig regex info,
          In dirConfig dirs /\
          App.FileRegexes a !! DirectoryConfig.Path dirConfig = Some regex /\
          OS.Lstat os (DirectoryConfig.Path dirConfig) = Some info /\
          indexedFrom os (App.IgnoreRegexes a) regex (DirectoryConfig.Path dirConfig)
            (DirectoryConfig.Name dirConfig) (DirectoryConfig.Path dirConfig) info doc.
Proof.
  induction dirs as [|d dirs IH]; intros a; cbn [scanEach].
  { exists []. split; [by rewrite withDocuments_same|by intros doc []]. }
  cbv zeta.
  destruct (scanDirectory_indexed os a (DirectoryConfig.Path d) (DirectoryConfig.Name d)
              (App.FileRegexes a !! DirectoryConfig.Path d)) as (new1 & Hnew1 & Hall1).
  assert (forall doc, In doc new1 ->
            exists dirConfig regex info,
              In dirConfig (d :: dirs) /\
              App.FileRegexes a !! DirectoryConfig.Path dirConfig = Some regex /\
              OS.Lstat os (DirectoryConfig.Path dirConfig) = Some info /\
              indexedFrom os (App.IgnoreRegexes a) regex (DirectoryConfig.Path dirConfig)
                (DirectoryConfig.Name dirConfig) (DirectoryConfig.Path dirConfig) info doc)
    as Hfirst.
  { intros doc Hin. destruct (Hall1 doc Hin) as (regex & info & Hregex & Hstat & Hdoc).
    exists d, regex, info. split; [by left|done]. }
  destruct (scanDirectory os a _ _ _) as [a1 [e|]]; simpl in Hnew1; subst a1.
  - exists new1. by split.
  - destruct (IH (App.withDocuments a (App.Documents a ++ new1))) as (new2 & Hnew2 & Hall2).
    exists (new1 ++ new2). split; [by rewrite Hnew2, withDocuments_twice|].
    intros doc [Hin|Hin]%in_app_or; [by apply Hfirst|].
    destruct (Hall2 doc Hin) as (dirConfig & regex & info & Hd & Hrest).
    exists dirConfig, regex, info. split; [by right|done].
Qed.

(** X18: ScanDirectories only appends to the index, and every document it
    appends comes from one of the configured directories: it was read
    from a file under the path of the directory, reached through entries
    no ignore pattern matches, whose name the compiled pattern of the
    directory matches, and carries the path and the name of that directory
    as its source. *)
Theorem ScanDirectories_sound (os : OS.t) (a : App.t) :
  exists new,
    (ScanDirectories os a).1 = App.withDocuments a (App.Documents a ++ new) /\
    forall doc, In doc new ->
      exists dirConfig regex info,
        In dirConfig (Config.Directories (App.Config a)) /\
        App.FileRegexes a !! DirectoryConfig.Path dirConfig = Some regex /\
        OS.Lstat os (DirectoryConfig.Path dirConfig) = Some info /\
        indexedFrom os (App.IgnoreRegexes a) regex (DirectoryConfig.Path dirConfig)
          (DirectoryConfig.Name dirConfig) (DirectoryConfig.Path dirConfig) info doc /\
        Document.SourceDir doc = DirectoryConfig.Path dirConfig /\
        Document.SourceName doc = DirectoryConfig.Name dirConfig.
Proof.
  unfold ScanDirectories.
  destruct (scanEach_indexed os (Config.Directories (App.Config a)) a) as (new & Hnew & Hall).
  exists new. split; [done|]. intros doc Hin.
  destruct (Hall doc Hin) as (dirConfig & regex & info & Hd & Hregex & Hstat & Hdoc).
  exists dirConfig, regex, info. repeat split; try done.
  - by destruct Hdoc as (chain & fname & _ & _ & _ & _ & Hdir & _).
  - by destruct Hdoc as (chain & fname & _ & _ & _ & _ & _ & Hname & _).
Qed.

(** ** The overview is one line *)

Lemma noLF_app (s1 s2 : string) : noLF (s1 +:+ s2) <-> noLF s1 /\ noLF s2.
Proof.
  induction s1 as [|c s1 IH]; [simpl; tauto|].
  rewrite app_String. simpl. rewrite IH. tauto.
Qed.

Lemma noLF_rev_app (s1 s2 : string) : noLF (String.rev_app s1 s2) <-> noLF s1 /\ noLF s2.
Proof.
  revert s2. induction s1 as [|c s1 IH]; intros s2; [simpl; tauto|].
  simpl. rewrite IH. simpl. tauto.
Qed.

Lemma noLF_rev (s : string) : noLF (String.rev s) <-> noLF s.
Proof. unfold String.rev. rewrite noLF_rev_app. simpl. tauto. Qed.

Lemma noLF_dropBytes (n : nat) (s : string) : noLF s -> noLF (dropBytes n s).
Proof.
  revert s. induction n as [|n IH]; intros [|c s]; simpl; try done.
  intros [_ Hs]. by apply IH.
Qed.

Lemma noLF_trimLoop (runes : list string) (fuel : nat) (s : string) :
  noLF s -> noLF (strings.trimLoop runes fuel s).
Proof.
  revert s. induction fuel as [|fuel IH]; intros s Hs; [done|]. cbn [strings.trimLoop].
  destruct (strings.spaceAt runes s); [done|]. by apply IH, noLF_dropBytes.
Qed.

Lemma noLF_TrimSpace (s : string) : noLF s -> noLF (strings.TrimSpace s).
Proof.
  intros Hs. unfold strings.TrimSpace, strings.TrimRightSpace, strings.TrimLeftSpace.
  by apply noLF_rev, noLF_trimLoop, noLF_rev, noLF_trimLoop.
Qed.

Lemma noLF_Split (s : string) : Forall noLF (strings.Split s LF).
Proof.
  induction s as [|c s IH]; [by repeat constructor|]. simpl.
  destruct (Ascii.eqb_spec c LF) as [->|Hc]; [by constructor|].
  destruct (strings.Split s LF) as [|piece pieces]; [by repeat constructor|].
  apply Forall_cons in IH as [Hpiece Hpieces]. by repeat constructor.
Qed.

Lemma noLF_Join (lines : list string) (sep : string) :
  noLF sep -> Forall noLF lines -> noLF (strings.Join lines sep).
Proof.
  intros Hsep. induction 1 as [|line lines Hline Hlines IH]; [done|].
  destruct lines as [|line' lines]; [done|].
  rewrite Join_cons, !noLF_app. by repeat split.
Qed.

Lemma noLF_overviewLoop (lines : list string) :
  Forall noLF lines ->
  forall foundOverview paragraphLines,
    Forall noLF paragraphLines ->
    Forall noLF (overviewLoop lines foundOverview paragraphLines).
Proof.
  induction 1 as [|line lines Hline _ IH]; intros foundOverview paragraphLines Hp; [done|].
  cbn [overviewLoop]. cbv zeta.
  destruct (strings.HasPrefix (strings.TrimSpace line) "## Overview"); [by apply IH|].
  destruct foundOverview; [|by apply IH].
  destruct (String.eqb _ "" && _); [by apply IH|].
  destruct ((_ || _) && _); [done|].
  destruct (negb _); [|by apply IH].
  apply IH, Forall_app. split; [done|]. constructor; [|done]. by apply noLF_TrimSpace.
Qed.

(** X19: the Overview of a document is a single line: whatever the
    content, the text extractOverviewParagraph returns holds no line feed;
    and it is empty when no line of the content, trimmed, starts with
    "## Overview". *)
Theorem extractOverview_one_line (content : string) :
  noLF (extractOverviewParagraph content) /\
  (forallb (fun line => negb (strings.HasPrefix (strings.TrimSpace line) "## Overview"))
     (strings.Split content LF) = true ->
   extractOverviewParagraph content = "").
Proof.
  split.
  - unfold extractOverviewParagraph.
    apply noLF_Join; [by repeat split|].
    apply noLF_overviewLoop; [apply noLF_Split|constructor].
  - unfold extractOverviewParagraph.
    assert (forall lines,
              forallb (fun line =>
                         negb (strings.HasPrefix (strings.TrimSpace line) "## Overview"))
                lines = true ->
              overviewLoop lines false [] = []) as Hloop.
    { induction lines as [|line lines IH]; [done|]. cbn [forallb overviewLoop]. cbv zeta.
      intros [Hline Hlines]%andb_true_iff. apply negb_true_iff in Hline.
      rewrite Hline. by apply IH. }
    intros Hno. by rewrite Hloop.
Qed.

Lemma extractOverview_one_line_witness :
  noLF (extractOverviewParagraph
          ("## Overview" +:+ nl +:+ "Line one." +:+ nl +:+ "Line two.")) /\
  extractOverviewParagraph ("# Title" +:+ nl +:+ "Body") = "".
Proof.
  split.
  - apply (extractOverview_one_line
             ("## Overview" +:+ nl +:+ "Line one." +:+ nl +:+ "Line two.")).
  - apply (extractOverview_one_line ("# Title" +:+ nl +:+ "Body")). reflexivity.
Defined.

(** ** Trees only grow *)

Lemma findChild_updateChild_ne (part name : string) (descend : TreeNode.t -> TreeNode.t)
    (newNode : TreeNode.t) (children : list TreeNode.t) :
  (forall node, TreeNode.Name (descend node) = TreeNode.Name node) ->
  TreeNode.Name newNode = part ->
  name <> part ->
  findChild name (updateChild part descend newNode children) = findChild name children.
Proof.
  intros Hname Hnew Hne. induction children as [|c children IH]; simpl.
  - rewrite Hname, Hnew. by destruct (String.eqb_spec part name).
  - destruct (String.eqb_spec (TreeNode.Name c) part) as [Hc|Hc]; simpl.
    + rewrite Hname, Hc. by destruct (String.eqb_spec part name).
    + by rewrite IH.
Qed.

(** Adding a document keeps every path of the tree. *)
Lemma addParts_keeps (parts : list string) (doc : Document.t) :
  forall currentPath node parts',
    is_Some (findPath parts' node) ->
    is_Some (findPath parts' (addParts parts doc currentPath node)).
Proof.
  induction parts as [|part parts IH]; intros currentPath node parts' Hfound; [done|].
  destruct parts' as [|part' parts']; [done|].
  cbn [findPath addParts] in *.
  set (path' := if String.eqb currentPath "" then part else _).
  destruct node as [name path isFile document children isOpen].
  cbn [TreeNode.withChildren TreeNode.Children] in *.
  destruct (findChild part' children) as [child|] eqn:Hchild; [|by destruct Hfound].
  destruct (decide (part' = part)) as [->|Hne].
  - rewrite findChild_updateChild; [|intros n; apply addParts_Name|reflexivity].
    rewrite Hchild. cbn [default]. by apply IH.
  - rewrite findChild_updateChild_ne; [|intros n; apply addParts_Name|reflexivity|done].
    by rewrite Hchild.
Qed.

Lemma findChild_Name (name : string) (children : list TreeNode.t) (child : TreeNode.t) :
  findChild name children = Some child -> TreeNode.Name child = name.
Proof.
  induction children as [|c children IH]; simpl; [done|].
  destruct (String.eqb_spec (TreeNode.Name c) name) as [Hc|_]; [|done].
  by intros [= <-].
Qed.

Lemma findPath_Name (parts : list string) :
  forall node found,
    parts <> [] ->
    findPath parts node = Some found ->
    TreeNode.Name found = List.last parts "".
Proof.
  induction parts as [|part parts IH]; intros node found Hne; [done|].
  cbn [findPath]. destruct (findChild part (TreeNode.Children node)) as [child|] eqn:Hchild;
    [|done].
  destruct parts as [|part' parts].
  - intros [= <-]. simpl. by eapply findChild_Name.
  - intros Hfound. by apply (IH child).
Qed.

Lemma addDocumentToTree_keeps (root : TreeNode.t) (doc : Document.t) (sourceDir : string)
    (parts : list string) :
  is_Some (findPath parts root) ->
  is_Some (findPath parts (addDocumentToTree root doc sourceDir)).
Proof. apply addParts_keeps. Qed.

Lemma addDocumentToTree_reaches (root : TreeNode.t) (doc : Document.t) (sourceDir : string) :
  is_Some
    (findPath
       (strings.Split
          (filepath.ToSlash
             (default (Document.Path doc) (filepath.Rel sourceDir (Document.Path doc)))) "/")
       (addDocumentToTree root doc sourceDir)).
Proof.
  unfold addDocumentToTree.
  replace (match filepath.Rel sourceDir (Document.Path doc) with
           | Some r => r
           | None => Document.Path doc
           end)
    with (default (Document.Path doc) (filepath.Rel sourceDir (Document.Path doc)))
    by (by destruct (filepath.Rel _ _)).
  set (parts := strings.Split _ "/").
  assert (parts <> []) as Hne.
  { subst parts. by destruct (Split_cons (filepath.ToSlash
      (default (Document.Path doc) (filepath.Rel sourceDir (Document.Path doc)))) "/")
      as (piece & pieces & ->). }
  pose proof (findPath_added doc parts "" root Hne) as Hadded.
  destruct (findPath parts root) as [present|].
  - by rewrite Hadded.
  - destruct Hadded as (added & -> & _). done.
Qed.

(** X20: the tree of a source reaches every document of the source: for
    each document the tree was built from, the children named by the parts
    of its path relative to its source directory lead from the root to a
    node, and the node bears the last part as its name. *)
Theorem buildTree_reaches (sourceName : string) (docs : list Document.t) (doc : Document.t) :
  In doc docs ->
  let relPath :=
    default (Document.Path doc)
      (filepath.Rel (Document.SourceDir doc) (Document.Path doc)) in
  let parts := strings.Split (filepath.ToSlash relPath) "/" in
  exists node,
    findPath parts (DirectoryTree.Root (buildTree sourceName docs)) = Some node /\
    TreeNode.Name node = List.last parts "".
Proof.
  intros Hin relPath parts. unfold buildTree. cbn [DirectoryTree.Root].
  generalize (TreeNode.mk sourceName "" false None [] true). intros root.
  assert (is_Some
            (findPath parts
               (foldl (fun root doc => addDocumentToTree root doc (Document.SourceDir doc))
                  root docs))) as [node Hnode].
  { revert root. induction docs as [|d docs IH]; intros root; [done|].
    cbn [foldl]. destruct Hin as [->|Hin]; [|by apply IH].
    pose proof (addDocumentToTree_reaches root doc (Document.SourceDir doc)) as Hfound.
    fold relPath in Hfound. fold parts in Hfound.
    revert Hfound. generalize (addDocumentToTree root doc (Document.SourceDir doc)).
    clear IH. induction docs as [|d docs IH]; intros root' Hfound; [done|].
    cbn [foldl]. by apply IH, addDocumentToTree_keeps. }
  exists node. split; [done|].
  eapply findPath_Name; [|exact Hnode].
  subst parts. by destruct (Split_cons (filepath.ToSlash relPath) "/") as (piece & pieces & ->).
Qed.

Lemma buildTree_reaches_witness :
  exists node,
    findPath ["guide"; "faq.md"] exampleRoot = Some node /\
    TreeNode.Name node = "faq.md".
Proof.
  apply (buildTree_reaches "Docs"
           (List.filter (fun doc => String.eqb (Document.SourceName doc) "Docs") exampleDocs)
           exampleFaq).
  vm_compute. tauto.
Defined.
